(** * pastebin2: the encryption envelope and the paste store, verified

    A shallow embedding of [src/utils/crypto.ts] and [src/services/api.ts].

    The program is glue over the browser platform, so the development has
    these layers:

    - [JS]: the pure platform operations the source calls (string
      slicing, [parseInt], the regular expression [/.{1,2}/g], the typed
      array conversion, [TextEncoder]/[TextDecoder], [Date]), written out
      from ECMAScript and the WHATWG Encoding standard;
    - [Crypto] and [Api]: the source functions, one definition per
      function, over what the platform supplies and ECMAScript leaves
      open: the cryptographic provider (AES-GCM, PBKDF2, the random
      source), the clock, the time zone and the text of a date, which
      are section variables;
    - [TestProvider]: a deterministic provider, and [Notions]: the
      predicates the statements are written with;
    - the properties of the hex codec, of the envelope and of the store,
      with the provider's contracts as hypotheses;
    - [UseCrypto], [UseFetchPaste], [CreatePaste] and [ViewPaste]: the
      hooks and the handlers of the two pages, over explicit states,
      with what React does between them (an effect runs again when a
      dependency changed) written out; [JSText]: what they need of
      the platform besides; and the properties of the hooks and the
      pages, down to the store and the cipher. *)

From Stdlib Require Import List NArith ZArith Lia Bool Ascii String.
From Stdlib.Strings Require Import Byte.
From stdpp Require Import gmap finite.
Import ListNotations.

(** ** The platform: strings, numbers, typed arrays *)

Module JS.

(** A JavaScript string is a sequence of UTF-16 code units. *)
Abbreviation js_string := (list N).

(** A string literal of the source (ASCII only). *)
Definition lit (s : string) : js_string :=
  List.map N_of_ascii (list_ascii_of_string s).

(** A [Uint8Array]. *)
Abbreviation bytes := (list byte).

(** A JavaScript number, as far as this program computes with them:
    an integer, or [None] for NaN. *)
Abbreviation number := (option Z).

(** What the program can throw. [Error msg] is [new Error(msg)]. *)
Inductive exn : Type :=
| DataError
| OperationError
| RangeError
| Error (msg : string).

(** The outcome of a call that may throw; for an [async] function, the
    value of the promise or what it was rejected with. *)
Inductive result (A : Type) : Type :=
| Ok (a : A)
| Throw (e : exn).
Arguments Ok {A} a.
Arguments Throw {A} e.

Definition byte_of_N (n : N) : byte :=
  match Byte.of_N (n mod 256) with
  | Some b => b
  | None => x00
  end.

(** ToUint8: the conversion applied to each element by
    [new Uint8Array(array)]: NaN becomes 0, an integer is taken
    modulo 256. *)
Definition ToUint8 (v : number) : byte :=
  match v with
  | None => x00
  | Some z => byte_of_N (Z.to_N (z mod 256))
  end.

(** ECMAScript LineTerminator and WhiteSpace code units. *)
Definition is_line_terminator (c : N) : bool :=
  ((c =? 0x0A) || (c =? 0x0D) || (c =? 0x2028) || (c =? 0x2029))%N.

Definition is_white_space (c : N) : bool :=
  ((c =? 0x09) || (c =? 0x0B) || (c =? 0x0C) || (c =? 0x20) || (c =? 0xA0)
   || (c =? 0x1680) || ((0x2000 <=? c) && (c <=? 0x200A))
   || (c =? 0x202F) || (c =? 0x205F) || (c =? 0x3000) || (c =? 0xFEFF))%N.

(** [String.prototype.substring(start, end)] on in-range or out-of-range
    indices: both are clamped to the length and swapped when reversed. *)
Definition substring (s : js_string) (start : nat) (end_ : option nat) : js_string :=
  let len := length s in
  let fs := Nat.min start len in
  let fe := match end_ with Some e => Nat.min e len | None => len end in
  let from := Nat.min fs fe in
  let to := Nat.max fs fe in
  firstn (to - from) (skipn from s).

(** [String.prototype.padStart(targetLength, padString)]. *)
Definition padStart (s : js_string) (targetLength : nat) (pad : js_string) : js_string :=
  let fill := targetLength - length s in
  firstn fill (concat (repeat pad fill)) ++ s.

(** [String.prototype.endsWith] for a single code unit. *)
Definition endsWith (s : js_string) (c : N) : bool :=
  match rev s with
  | d :: _ => (d =? c)%N
  | [] => false
  end.

(** The value of a code unit as a digit: 0-9, then a-z or A-Z for 10-35. *)
Definition digit_value (c : N) : option N :=
  (if (0x30 <=? c) && (c <=? 0x39) then Some (c - 0x30)
   else if (0x61 <=? c) && (c <=? 0x7A) then Some (c - 0x61 + 10)
   else if (0x41 <=? c) && (c <=? 0x5A) then Some (c - 0x41 + 10)
   else None)%N.

Definition radix_digit (R : N) (c : N) : option N :=
  match digit_value c with
  | Some d => if (d <? R)%N then Some d else None
  | None => None
  end.

(** The longest prefix of radix-[R] digits, folded into its value;
    [None] when the prefix is empty. *)
Fixpoint parse_digits (R : N) (acc : option N) (s : js_string) : option N :=
  match s with
  | [] => acc
  | c :: s' =>
      match radix_digit R c with
      | Some d =>
          parse_digits R (Some (match acc with Some a => a * R + d | None => d end)%N) s'
      | None => acc
      end
  end.

Fixpoint trim_start (s : js_string) : js_string :=
  match s with
  | c :: s' => if is_white_space c || is_line_terminator c then trim_start s' else s
  | [] => []
  end.

(** [parseInt(string, radix)], ECMAScript 19.2.5; [radix = None] is the
    call with one argument. *)
Definition parseInt (s : js_string) (radix : option N) : number :=
  let str := trim_start s in
  let '(sign, str) :=
    match str with
    | 0x2D%N :: str' => ((-1)%Z, str')
    | 0x2B%N :: str' => (1%Z, str')
    | _ => (1%Z, str)
    end in
  let r := match radix with Some r => r | None => 0%N end in
  if negb (r =? 0)%N && ((r <? 2) || (36 <? r))%N then None
  else
    let stripPrefix := (r =? 0)%N || (r =? 16)%N in
    let R := if (r =? 0)%N then 10%N else r in
    let '(R, str) :=
      if stripPrefix then
        match str with
        | 0x30%N :: x :: str' =>
            if ((x =? 0x78) || (x =? 0x58))%N then (16%N, str') else (R, str)
        | _ => (R, str)
        end
      else (R, str) in
    match parse_digits R None str with
    | None => None
    | Some m => Some (sign * Z.of_N m)%Z
    end.

(** [Number.prototype.toString(radix)] on a non-negative integer. *)
Definition digit_char (d : N) : N :=
  (if d <? 10 then 0x30 + d else 0x61 + (d - 10))%N.

Fixpoint radix_digits (radix : N) (fuel : nat) (n : N) (acc : js_string) : js_string :=
  match fuel with
  | O => acc
  | S fuel' =>
      let acc' := digit_char (n mod radix) :: acc in
      if (n / radix =? 0)%N then acc' else radix_digits radix fuel' (n / radix) acc'
  end.

Definition toString (n : N) (radix : N) : js_string :=
  radix_digits radix (S (N.size_nat n)) n [].

(** [s.match(/.{1,2}/g)]: [.] matches any code unit but a line
    terminator, greedily one or two at a time; a line terminator is
    skipped. The result is [null] when nothing matches. *)
Fixpoint dot_1_2_matches (s : js_string) : list js_string :=
  match s with
  | [] => []
  | c :: s' =>
      if is_line_terminator c then dot_1_2_matches s'
      else
        match s' with
        | [] => [[c]]
        | d :: s'' =>
            if is_line_terminator d then [c] :: dot_1_2_matches s''
            else [c; d] :: dot_1_2_matches s''
        end
  end.

Definition match_dot_1_2 (s : js_string) : option (list js_string) :=
  match dot_1_2_matches s with
  | [] => None
  | ms => Some ms
  end.

(** *** TextEncoder and TextDecoder

    [new TextEncoder().encode(str)] converts the string to scalar values
    (an unpaired surrogate becomes U+FFFD) and writes each in UTF-8.
    [new TextDecoder().decode(buffer)] runs the UTF-8 decoder of the
    Encoding standard in replacement mode, drops one leading U+FEFF
    (the default [ignoreBOM: false]) and returns UTF-16. The standard's
    masks and shifts are written as [mod], [/] and [*]. *)

Definition is_high_surrogate (c : N) : bool := ((0xD800 <=? c) && (c <=? 0xDBFF))%N.
Definition is_low_surrogate (c : N) : bool := ((0xDC00 <=? c) && (c <=? 0xDFFF))%N.

Fixpoint to_scalar_values (s : js_string) : list N :=
  match s with
  | [] => []
  | c :: s' =>
      if is_high_surrogate c then
        match s' with
        | d :: s'' =>
            if is_low_surrogate d
            then (0x10000 + (c - 0xD800) * 0x400 + (d - 0xDC00))%N :: to_scalar_values s''
            else 0xFFFD%N :: to_scalar_values s'
        | [] => [0xFFFD%N]
        end
      else if is_low_surrogate c then 0xFFFD%N :: to_scalar_values s'
      else c :: to_scalar_values s'
  end.

Definition utf8_encode_cp (cp : N) : bytes :=
  (if cp <=? 0x7F then [byte_of_N cp]
   else if cp <=? 0x7FF then
     [byte_of_N (0xC0 + cp / 64); byte_of_N (0x80 + cp mod 64)]
   else if cp <=? 0xFFFF then
     [byte_of_N (0xE0 + cp / 4096); byte_of_N (0x80 + (cp / 64) mod 64);
      byte_of_N (0x80 + cp mod 64)]
   else
     [byte_of_N (0xF0 + cp / 262144); byte_of_N (0x80 + (cp / 4096) mod 64);
      byte_of_N (0x80 + (cp / 64) mod 64); byte_of_N (0x80 + cp mod 64)])%N.

Definition TextEncoder_encode (s : js_string) : bytes :=
  flat_map utf8_encode_cp (to_scalar_values s).

Record utf8_decoder : Type := {
  code_point : N;
  bytes_seen : N;
  bytes_needed : N;
  lower_boundary : N;
  upper_boundary : N
}.

Definition utf8_initial : utf8_decoder :=
  {| code_point := 0; bytes_seen := 0; bytes_needed := 0;
     lower_boundary := 0x80; upper_boundary := 0xBF |}.

(** The decoder on a byte when no continuation byte is pending: the code
    points it emits and its next state. *)
Definition utf8_lead (b : N) : list N * utf8_decoder :=
  (if b <=? 0x7F then ([b], utf8_initial)
   else if (0xC2 <=? b) && (b <=? 0xDF) then
     ([], {| code_point := b mod 32; bytes_seen := 0; bytes_needed := 1;
             lower_boundary := 0x80; upper_boundary := 0xBF |})
   else if (0xE0 <=? b) && (b <=? 0xEF) then
     ([], {| code_point := b mod 16; bytes_seen := 0; bytes_needed := 2;
             lower_boundary := if b =? 0xE0 then 0xA0 else 0x80;
             upper_boundary := if b =? 0xED then 0x9F else 0xBF |})
   else if (0xF0 <=? b) && (b <=? 0xF4) then
     ([], {| code_point := b mod 8; bytes_seen := 0; bytes_needed := 3;
             lower_boundary := if b =? 0xF0 then 0x90 else 0x80;
             upper_boundary := if b =? 0xF4 then 0x8F else 0xBF |})
   else ([0xFFFD], utf8_initial))%N.

Fixpoint utf8_decode (st : utf8_decoder) (bs : bytes) : list N :=
  match bs with
  | [] => if (bytes_needed st =? 0)%N then [] else [0xFFFD%N]
  | b :: bs' =>
      let b := Byte.to_N b in
      if (bytes_needed st =? 0)%N then
        let '(out, st') := utf8_lead b in out ++ utf8_decode st' bs'
      else if ((b <? lower_boundary st) || (upper_boundary st <? b))%N then
        (* error: the decoder is reset and reads the same byte again *)
        let '(out, st') := utf8_lead b in 0xFFFD%N :: out ++ utf8_decode st' bs'
      else
        let cp := (code_point st * 64 + b mod 64)%N in
        if (bytes_seen st + 1 =? bytes_needed st)%N
        then cp :: utf8_decode utf8_initial bs'
        else utf8_decode
               {| code_point := cp; bytes_seen := bytes_seen st + 1;
                  bytes_needed := bytes_needed st;
                  lower_boundary := 0x80; upper_boundary := 0xBF |} bs'
  end.

Definition utf16_units (cp : N) : js_string :=
  (if cp <? 0x10000 then [cp]
   else [0xD800 + (cp - 0x10000) / 0x400; 0xDC00 + (cp - 0x10000) mod 0x400])%N.

Definition strip_bom (cps : list N) : list N :=
  match cps with
  | cp :: rest => if (cp =? 0xFEFF)%N then rest else cps
  | [] => []
  end.

Definition TextDecoder_decode (bs : bytes) : js_string :=
  flat_map utf16_units (strip_bom (utf8_decode utf8_initial bs)).

(** A string is well formed when every surrogate code unit is half of a
    pair, high then low. *)
Fixpoint well_formed (s : js_string) : bool :=
  match s with
  | [] => true
  | c :: s' =>
      (c <? 0x10000)%N &&
      (if is_high_surrogate c then
         match s' with
         | d :: s'' => is_low_surrogate d && well_formed s''
         | [] => false
         end
       else negb (is_low_surrogate c) && well_formed s')
  end.

Definition starts_with_bom (s : js_string) : bool :=
  match s with
  | c :: _ => (c =? 0xFEFF)%N
  | [] => false
  end.

(** *** Date

    A Date object holds a time value: milliseconds since the epoch, or
    NaN. The setters and getters used by the source work on local time,
    so they depend on the environment's time zone, [LocalTZA]. Numbers
    are exact integers here. The platform computes in IEEE doubles,
    which are exact on integers below 2^53; a setter can pass 2^53 on
    its way to a valid date ([MakeTime] adds the hours to the time
    within the day before [MakeDate] adds the day back), but only from
    a clock far from the present, so the statements about an expiry
    bound the clock ([Notions.exact_clock]). *)

Definition msPerSecond : Z := 1000.
Definition msPerMinute : Z := 60000.
Definition msPerHour : Z := 3600000.
Definition msPerDay : Z := 86400000.

Definition Day (t : Z) : Z := (t / msPerDay)%Z.
Definition TimeWithinDay (t : Z) : Z := (t mod msPerDay)%Z.
Definition HourFromTime (t : Z) : Z := ((t / msPerHour) mod 24)%Z.
Definition MinFromTime (t : Z) : Z := ((t / msPerMinute) mod 60)%Z.
Definition SecFromTime (t : Z) : Z := ((t / msPerSecond) mod 60)%Z.
Definition msFromTime (t : Z) : Z := (t mod msPerSecond)%Z.

Definition DaysInYear (y : Z) : Z :=
  (if negb (y mod 4 =? 0) then 365
   else if negb (y mod 100 =? 0) then 366
   else if negb (y mod 400 =? 0) then 365
   else 366)%Z.

Definition DayFromYear (y : Z) : Z :=
  (365 * (y - 1970) + (y - 1969) / 4 - (y - 1901) / 100 + (y - 1601) / 400)%Z.

(** The largest year whose first day is not after day [d], searched
    downwards from a year that starts after [d]. *)
Fixpoint year_scan (fuel : nat) (d y : Z) : Z :=
  match fuel with
  | O => y
  | S fuel' => if (DayFromYear y <=? d)%Z then y else year_scan fuel' d (y - 1)%Z
  end.

Definition YearFromTime (t : Z) : Z :=
  let d := Day t in
  let above := (1970 + (if 0 <=? d then d / 365 else d / 366) + 1)%Z in
  year_scan (Z.to_nat (Z.abs d / 150000) + 3) d above.

Definition InLeapYear (t : Z) : Z :=
  (if DaysInYear (YearFromTime t) =? 366 then 1 else 0)%Z.

Definition DayWithinYear (t : Z) : Z := (Day t - DayFromYear (YearFromTime t))%Z.

(** The day within the year on which month [m] (0-11) begins. *)
Definition month_start (m leap : Z) : Z :=
  (if m =? 0 then 0 else if m =? 1 then 31 else if m =? 2 then 59 + leap
   else if m =? 3 then 90 + leap else if m =? 4 then 120 + leap
   else if m =? 5 then 151 + leap else if m =? 6 then 181 + leap
   else if m =? 7 then 212 + leap else if m =? 8 then 243 + leap
   else if m =? 9 then 273 + leap else if m =? 10 then 304 + leap
   else 334 + leap)%Z.

Definition MonthFromTime (t : Z) : Z :=
  let d := DayWithinYear t in
  let l := InLeapYear t in
  (if d <? 31 then 0 else if d <? 59 + l then 1 else if d <? 90 + l then 2
   else if d <? 120 + l then 3 else if d <? 151 + l then 4
   else if d <? 181 + l then 5 else if d <? 212 + l then 6
   else if d <? 243 + l then 7 else if d <? 273 + l then 8
   else if d <? 304 + l then 9 else if d <? 334 + l then 10 else 11)%Z.

Definition DateFromTime (t : Z) : Z :=
  (DayWithinYear t + 1 - month_start (MonthFromTime t) (InLeapYear t))%Z.

Definition number_add (a b : number) : number :=
  match a, b with
  | Some x, Some y => Some (x + y)%Z
  | _, _ => None
  end.

(** [a < b] on numbers: false when either is NaN. *)
Definition number_lt (a b : number) : bool :=
  match a, b with
  | Some x, Some y => (x <? y)%Z
  | _, _ => false
  end.

Definition MakeTime (hour min sec ms : number) : number :=
  match hour, min, sec, ms with
  | Some h, Some m, Some s, Some milli =>
      Some (h * msPerHour + m * msPerMinute + s * msPerSecond + milli)%Z
  | _, _, _, _ => None
  end.

Definition MakeDay (year month date : number) : number :=
  match year, month, date with
  | Some y, Some m, Some dt =>
      let ym := (y + m / 12)%Z in
      let mn := (m mod 12)%Z in
      let leap := (if DaysInYear ym =? 366 then 1 else 0)%Z in
      Some (DayFromYear ym + month_start mn leap + dt - 1)%Z
  | _, _, _ => None
  end.

Definition MakeDate (day time : number) : number :=
  match day, time with
  | Some d, Some tm => Some (d * msPerDay + tm)%Z
  | _, _ => None
  end.

Definition TimeClip (t : number) : number :=
  match t with
  | Some v => if (Z.abs v <=? 8640000000000000)%Z then Some v else None
  | None => None
  end.

Section LocalTime.

(** [LocalTZA t isUTC], the offset of local time in milliseconds. *)
Variable LocalTZA : Z -> bool -> Z.

Definition LocalTime (t : Z) : Z := (t + LocalTZA t true)%Z.

Definition UTC (t : number) : number :=
  match t with
  | Some v => Some (v - LocalTZA v false)%Z
  | None => None
  end.

Definition getHours (tv : number) : number :=
  match tv with
  | Some t => Some (HourFromTime (LocalTime t))
  | None => None
  end.

Definition getMinutes (tv : number) : number :=
  match tv with
  | Some t => Some (MinFromTime (LocalTime t))
  | None => None
  end.

Definition getDate (tv : number) : number :=
  match tv with
  | Some t => Some (DateFromTime (LocalTime t))
  | None => None
  end.

(** The setters return the Date's new time value. *)
Definition setHours (tv : number) (hour : number) : number :=
  match tv with
  | None => None
  | Some t0 =>
      let t := LocalTime t0 in
      let date :=
        MakeDate (Some (Day t))
          (MakeTime hour (Some (MinFromTime t)) (Some (SecFromTime t))
             (Some (msFromTime t))) in
      TimeClip (UTC date)
  end.

Definition setMinutes (tv : number) (min : number) : number :=
  match tv with
  | None => None
  | Some t0 =>
      let t := LocalTime t0 in
      let date :=
        MakeDate (Some (Day t))
          (MakeTime (Some (HourFromTime t)) min (Some (SecFromTime t))
             (Some (msFromTime t))) in
      TimeClip (UTC date)
  end.

Definition setDate (tv : number) (date : number) : number :=
  match tv with
  | None => None
  | Some t0 =>
      let t := LocalTime t0 in
      let newDate :=
        MakeDate
          (MakeDay (Some (YearFromTime t)) (Some (MonthFromTime t)) date)
          (Some (TimeWithinDay t)) in
      TimeClip (UTC newDate)
  end.

End LocalTime.

End JS.

(** ** [src/utils/crypto.ts] *)

Module Crypto.
Import JS.

Inductive hash_name : Type := SHA_1 | SHA_256 | SHA_384 | SHA_512.

Section WebCrypto.

(** The platform's cryptographic provider ([window.crypto]): the state
    of its random source, AES-GCM with the default 128-bit tag and no
    additional data (key, iv, data), and PBKDF2 (hash, iterations,
    password, salt, key length in bits). [aes_gcm_decrypt] is [None]
    when the provider rejects the operation. *)
Context {rng : Type}.
Variable getRandomValues : nat -> rng -> bytes * rng.
Variable aes_gcm_encrypt : bytes -> bytes -> bytes -> bytes.
Variable aes_gcm_decrypt : bytes -> bytes -> bytes -> option bytes.
Variable pbkdf2 : hash_name -> N -> bytes -> bytes -> N -> bytes.

(** Computations that may draw random values and may throw. [await]
    is [bind]. The [console.log] calls of the source write to the
    debug console only and are left out. *)
Definition M (A : Type) : Type := rng -> result A * rng.

Definition ret {A} (a : A) : M A := fun r => (Ok a, r).

Definition throw {A} (e : exn) : M A := fun r => (Throw e, r).

Definition bind {A B} (m : M A) (k : A -> M B) : M B :=
  fun r =>
    match m r with
    | (Ok a, r') => k a r'
    | (Throw e, r') => (Throw e, r')
    end.

Definition try_catch {A} (body : M A) (handler : exn -> M A) : M A :=
  fun r =>
    match body r with
    | (Ok a, r') => (Ok a, r')
    | (Throw e, r') => handler e r'
    end.

Notation "x <- m ;; k" := (bind m (fun x => k))
  (at level 100, m at next level, right associativity).

Definition crypto_getRandomValues (n : nat) : M bytes :=
  fun r => let '(b, r') := getRandomValues n r in (Ok b, r').

(** [subtle.importKey('raw', data, {name: 'AES-GCM'}, ...)]: a
    DataError unless the key is 128, 192 or 256 bits long. *)
Definition aes_key_length_ok (keyData : bytes) : bool :=
  let n := length keyData in
  (n =? 16)%nat || (n =? 24)%nat || (n =? 32)%nat.

Definition subtle_importKey_AES_GCM (keyData : bytes) : M bytes :=
  if aes_key_length_ok keyData then ret keyData else throw DataError.

Definition subtle_encrypt_AES_GCM (key iv data : bytes) : M bytes :=
  ret (aes_gcm_encrypt key iv data).

Definition subtle_decrypt_AES_GCM (key iv data : bytes) : M bytes :=
  match aes_gcm_decrypt key iv data with
  | Some plain => ret plain
  | None => throw OperationError
  end.

Definition strToUint8Array (str : js_string) : bytes :=
  TextEncoder_encode str.

Definition uint8ArrayToStr (buffer : bytes) : js_string :=
  TextDecoder_decode buffer.

Definition arrayBufferToHex (buffer : bytes) : js_string :=
  concat (List.map (fun b => padStart (toString (Byte.to_N b) 16) 2 (lit "0")) buffer).

Definition hexToArrayBuffer (hex : js_string) : bytes :=
  match match_dot_1_2 hex with
  | None => []
  | Some matches =>
      List.map (fun byte => ToUint8 (parseInt byte (Some 16%N))) matches
  end.

Definition generateKey : M js_string :=
  exportedKey <- crypto_getRandomValues 32 ;;
  ret (arrayBufferToHex exportedKey).

Definition deriveKeyFromPassword (password : js_string) (salt : bytes) : M bytes :=
  let passwordKey := strToUint8Array password in
  ret (pbkdf2 SHA_256 100000 passwordKey salt 256).

Definition importKey (hexKey : js_string) : M bytes :=
  let keyData := hexToArrayBuffer hexKey in
  subtle_importKey_AES_GCM keyData.

Definition encrypt (text hexKey : js_string) : M js_string :=
  key <- importKey hexKey ;;
  iv <- crypto_getRandomValues 12 ;;
  encrypted <- subtle_encrypt_AES_GCM key iv (strToUint8Array text) ;;
  let ivHex := arrayBufferToHex iv in
  let encryptedHex := arrayBufferToHex encrypted in
  ret (ivHex ++ encryptedHex).

Definition encryptWithPassword (text password : js_string) : M js_string :=
  salt <- crypto_getRandomValues 16 ;;
  iv <- crypto_getRandomValues 12 ;;
  key <- deriveKeyFromPassword password salt ;;
  encrypted <- subtle_encrypt_AES_GCM key iv (strToUint8Array text) ;;
  let saltHex := arrayBufferToHex salt in
  let ivHex := arrayBufferToHex iv in
  let encryptedHex := arrayBufferToHex encrypted in
  ret (saltHex ++ ivHex ++ encryptedHex).

Definition decrypt_failed : string :=
  "Failed to decrypt: Invalid key or corrupted data".

Definition decrypt_password_failed : string :=
  "Failed to decrypt: Invalid password or corrupted data".

Definition decrypt (ciphertext hexKey : js_string) : M js_string :=
  let ivHex := substring ciphertext 0 (Some 24) in
  let encryptedHex := substring ciphertext 24 None in
  let iv := hexToArrayBuffer ivHex in
  let encrypted := hexToArrayBuffer encryptedHex in
  key <- importKey hexKey ;;
  try_catch
    (decrypted <- subtle_decrypt_AES_GCM key iv encrypted ;;
     ret (uint8ArrayToStr decrypted))
    (fun error => throw (Error decrypt_failed)).

Definition decryptWithPassword (ciphertext password : js_string) : M js_string :=
  let saltHex := substring ciphertext 0 (Some 32) in
  let ivHex := substring ciphertext 32 (Some 56) in
  let encryptedHex := substring ciphertext 56 None in
  let salt := hexToArrayBuffer saltHex in
  let iv := hexToArrayBuffer ivHex in
  let encrypted := hexToArrayBuffer encryptedHex in
  try_catch
    (key <- deriveKeyFromPassword password salt ;;
     decrypted <- subtle_decrypt_AES_GCM key iv encrypted ;;
     let plaintext := uint8ArrayToStr decrypted in
     ret plaintext)
    (fun error => throw (Error decrypt_password_failed)).

End WebCrypto.

End Crypto.

(** ** [src/services/api.ts] *)

Module Api.
Import JS.

(** [types.ts]. A stored paste is the object its JSON text parses to;
    [hasPassword = None] is a record written without the field, which
    reads as [undefined]. *)
Record PasteData : Type := {
  ciphertext : js_string;
  expiresAt : js_string;
  hasPassword : option bool
}.

Record PasteResponse : Type := {
  id : js_string;
  response_ciphertext : js_string;
  response_expiresAt : js_string;
  response_hasPassword : bool
}.

(** [localStorage], from key to the stored object. *)
Abbreviation storage := (gmap (list N) PasteData).

Definition API_PREFIX : js_string := lit "pastebin_".

Section Environment.

(** The time zone of the browser, and the two conversions between a
    time value and its ISO text: [Date_toISOString_text] formats a
    valid time value, [Date_parse] is [Date.parse]. *)
Variable LocalTZA : Z -> bool -> Z.
Variable Date_toISOString_text : Z -> js_string.
Variable Date_parse : js_string -> number.

Definition toISOString (tv : number) : result js_string :=
  match tv with
  | Some t => Ok (Date_toISOString_text t)
  | None => Throw RangeError
  end.

(** [new Date(string)]. *)
Definition new_Date (s : js_string) : number := TimeClip (Date_parse s).

(** [now] is the time value of [new Date()]. *)
Definition ttlToExpiresAt (now : Z) (ttl : js_string) : result js_string :=
  let now : number := Some now in
  let expiresAt := TimeClip now in
  let value := parseInt ttl None in
  let expiresAt :=
    if endsWith ttl 0x68 (* h *) then
      setHours LocalTZA expiresAt (number_add (getHours LocalTZA now) value)
    else if endsWith ttl 0x64 (* d *) then
      setDate LocalTZA expiresAt (number_add (getDate LocalTZA now) value)
    else if endsWith ttl 0x6D (* m *) then
      setMinutes LocalTZA expiresAt (number_add (getMinutes LocalTZA now) value)
    else
      setHours LocalTZA expiresAt (number_add (getHours LocalTZA now) (Some 24%Z)) in
  toISOString expiresAt.

(** [random36] is the text of [Math.random().toString(36)]. *)
Definition generateId (random36 : js_string) : js_string :=
  substring random36 2 (Some 10).

Definition createPaste (now : Z) (random36 : js_string)
    (ciphertext ttl : js_string) (hasPassword : bool) (localStorage : storage)
  : result PasteResponse * storage :=
  let id := generateId random36 in
  match ttlToExpiresAt now ttl with
  | Throw e => (Throw e, localStorage)
  | Ok expiresAt =>
      let pasteData :=
        {| ciphertext := ciphertext; expiresAt := expiresAt;
           hasPassword := Some hasPassword |} in
      let localStorage := <[API_PREFIX ++ id := pasteData]> localStorage in
      (Ok {| id := id; response_ciphertext := ciphertext;
             response_expiresAt := expiresAt;
             response_hasPassword := hasPassword |},
       localStorage)
  end.

Definition fetchPaste (now : Z) (id : js_string) (localStorage : storage)
  : option PasteData * storage :=
  match localStorage !! (API_PREFIX ++ id) with
  | None => (None, localStorage)
  | Some paste =>
      let paste :=
        match hasPassword paste with
        | None =>
            {| ciphertext := ciphertext paste; expiresAt := expiresAt paste;
               hasPassword := Some false |}
        | Some _ => paste
        end in
      if number_lt (new_Date (expiresAt paste)) (Some now) then
        (None, delete (API_PREFIX ++ id) localStorage)
      else (Some paste, localStorage)
  end.

End Environment.

End Api.

(** ** A deterministic provider

    The design notes of the specification ask for a provider that can be
    replaced by a test double. This one is deterministic: the random
    source is a counter, the cipher appends a 16-byte tag read off the
    key, the key derivation pads password and salt. It satisfies the
    contracts assumed of the platform below, which shows them
    consistent, and it instantiates the theorems on concrete inputs. *)

Module TestProvider.
Import JS.

Definition rng : Type := N.

Definition getRandomValues (n : nat) (r : rng) : bytes * rng :=
  (repeat (byte_of_N r) n, (r + 1)%N).

Definition tag (key : bytes) : bytes := firstn 16 (key ++ repeat x00 16).

Fixpoint bytes_eqb (a b : bytes) : bool :=
  match a, b with
  | [], [] => true
  | x :: a', y :: b' => Byte.eqb x y && bytes_eqb a' b'
  | _, _ => false
  end.

Definition aes_gcm_encrypt (key iv data : bytes) : bytes := data ++ tag key.

Definition aes_gcm_decrypt (key iv data : bytes) : option bytes :=
  if (length data <? 16)%nat then None
  else
    let n := (length data - 16)%nat in
    if bytes_eqb (skipn n data) (tag key) then Some (firstn n data) else None.

Definition pbkdf2 (h : Crypto.hash_name) (iterations : N) (password salt : bytes)
    (bits : N) : bytes :=
  firstn (N.to_nat (bits / 8)) (password ++ salt ++ repeat x00 (N.to_nat (bits / 8))).

(** Two keys as a link would carry them. *)
Definition key1 : js_string :=
  lit "000102030405060708090a0b0c0d0e0f101112131415161718191a1b1c1d1e1f".

Definition key2 : js_string :=
  lit "ff0102030405060708090a0b0c0d0e0f101112131415161718191a1b1c1d1e1f".

(** Two time zones: UTC, and one that moves from UTC-5 to UTC-4 at
    2024-03-10T07:00:00Z. A local time in the hour that is skipped is
    read with the offset before the change. *)
Definition utc (t : Z) (isUTC : bool) : Z := 0%Z.

Definition eastern (t : Z) (isUTC : bool) : Z :=
  let change := if isUTC then 1710054000000%Z else (1710054000000 - 4 * msPerHour)%Z in
  if (t <? change)%Z then (-5 * msPerHour)%Z else (-4 * msPerHour)%Z.

(** A stand-in for the ISO text of a time value: the milliseconds in
    decimal, which [parseInt] reads back. *)
Definition iso_text (t : Z) : js_string :=
  (if (t <? 0)%Z then [0x2D%N] else []) ++ toString (Z.to_N (Z.abs t)) 10.

Definition iso_parse (s : js_string) : number := parseInt s (Some 10%N).

(** A stored paste. *)
Definition a_paste (expires : Z) (flag : option bool) : Api.PasteData :=
  {| Api.ciphertext := lit "00ff"; Api.expiresAt := iso_text expires;
     Api.hasPassword := flag |}.

End TestProvider.

(** ** Notions the statements use *)

Module Notions.
Import JS Crypto Api.

Definition is_hex_digit (c : N) : bool :=
  (((0x30 <=? c) && (c <=? 0x39)) || ((0x61 <=? c) && (c <=? 0x66))
   || ((0x41 <=? c) && (c <=? 0x46)))%N.

(** A key as the link carries it: 64 hex characters. *)
Definition is_hex_key (hexKey : js_string) : bool :=
  (length hexKey =? 64)%nat && forallb is_hex_digit hexKey.

(** The two characters [arrayBufferToHex] writes for a byte. *)
Definition hex_pair (b : byte) : js_string :=
  [digit_char (Byte.to_N b / 16); digit_char (Byte.to_N b mod 16)].

(** A Unicode scalar value: a code point that is not a surrogate. *)
Definition is_scalar_value (cp : N) : bool :=
  ((cp <=? 0x10FFFF) && negb ((0xD800 <=? cp) && (cp <=? 0xDFFF)))%N.

Section Envelopes.

Context {rng : Type}.
Variable getRandomValues : nat -> rng -> bytes * rng.
Variable aes_gcm_encrypt : bytes -> bytes -> bytes -> bytes.
Variable pbkdf2 : hash_name -> N -> bytes -> bytes -> N -> bytes.

(** The envelope [encrypt] builds from the nonce the random source
    supplies in state [r]. *)
Definition keyed_envelope (text hexKey : js_string) (r : rng) : js_string :=
  let iv := fst (getRandomValues 12 r) in
  arrayBufferToHex iv
  ++ arrayBufferToHex
       (aes_gcm_encrypt (hexToArrayBuffer hexKey) iv (strToUint8Array text)).

Definition password_envelope (text password : js_string) (r : rng) : js_string :=
  let salt := fst (getRandomValues 16 r) in
  let iv := fst (getRandomValues 12 (snd (getRandomValues 16 r))) in
  arrayBufferToHex salt ++ arrayBufferToHex iv
  ++ arrayBufferToHex
       (aes_gcm_encrypt (pbkdf2 SHA_256 100000 (strToUint8Array password) salt 256)
          iv (strToUint8Array text)).

End Envelopes.

(** A time value a Date can hold. *)
Definition valid_time (t : Z) : Prop := (Z.abs t <= 8640000000000000)%Z.

(** A clock and a zone offset with which the date arithmetic of the
    source, done in doubles, is exact for every expiry in the valid
    range: the clock within 3 * 10^14 ms of 1970, which is until the
    year 11476, and an offset of at most a day. The largest value a
    setter then forms, the time to live added to the time within the
    day, stays below 2^53. *)
Definition exact_clock (now offset : Z) : Prop :=
  (Z.abs now <= 300000000000000)%Z /\ (Z.abs offset <= msPerDay)%Z.

(** The time to live the text of [ttl] stands for: the leading integer
    in hours, days or minutes by the last letter, and 24 hours without
    one. *)
Definition ttl_duration (ttl : js_string) : number :=
  if endsWith ttl 0x68 then
    option_map (fun v => v * msPerHour)%Z (parseInt ttl None)
  else if endsWith ttl 0x64 then
    option_map (fun v => v * msPerDay)%Z (parseInt ttl None)
  else if endsWith ttl 0x6D then
    option_map (fun v => v * msPerMinute)%Z (parseInt ttl None)
  else Some (24 * msPerHour)%Z.

(** What [createPaste] returns and leaves in the store when the paste
    expires at time value [expires]. *)
Definition paste_created (Date_toISOString_text : Z -> js_string) (expires : Z)
    (random36 ciphertext : js_string) (hasPassword : bool) (localStorage : storage)
  : result PasteResponse * storage :=
  (Ok {| id := generateId random36;
         response_ciphertext := ciphertext;
         response_expiresAt := Date_toISOString_text expires;
         response_hasPassword := hasPassword |},
   <[API_PREFIX ++ generateId random36 :=
       {| Api.ciphertext := ciphertext;
          expiresAt := Date_toISOString_text expires;
          Api.hasPassword := Some hasPassword |}]> localStorage).

End Notions.

(** ** More of the platform: trimming, error messages, numbers as text *)

Module JSText.
Import JS.

(** [String.prototype.trim]: white space and line terminators are
    removed at both ends. *)
Definition trim (s : js_string) : js_string :=
  rev (trim_start (rev (trim_start s))).

(** A string is falsy when it is empty. *)
Definition falsy (s : js_string) : bool :=
  match s with
  | [] => true
  | _ :: _ => false
  end.

(** A state that holds [string | null] is truthy when it holds a string
    that is not empty; [a || b] is [a] when [a] is truthy. *)
Definition truthy_text (e : option string) : bool :=
  match e with
  | Some (String _ _) => true
  | _ => false
  end.

Definition or_else (a b : option string) : option string :=
  if truthy_text a then a else b.

(** [err instanceof Error]: true of everything this program throws, a
    DOMException (DataError, OperationError) and a RangeError
    included. *)
Definition instanceof_Error (err : exn) : bool :=
  match err with
  | DataError | OperationError | RangeError | Error _ => true
  end.

(** [err.message]. The text the platform gives its own errors is up to
    the platform: [native_message]. *)
Definition message (native_message : exn -> string) (err : exn) : string :=
  match err with
  | Error msg => msg
  | _ => native_message err
  end.

(** A number in a template literal. *)
Definition number_to_string (v : number) : js_string :=
  match v with
  | None => lit "NaN"
  | Some z => (if (z <? 0)%Z then [0x2D%N] else []) ++ toString (Z.to_N (Z.abs z)) 10
  end.

Definition number_sub (a b : number) : number :=
  match a, b with
  | Some x, Some y => Some (x - y)%Z
  | _, _ => None
  end.

(** [a <= b] and [a > b]: false when either is NaN. *)
Definition number_le (a b : number) : bool :=
  match a, b with
  | Some x, Some y => (x <=? y)%Z
  | _, _ => false
  end.

Definition number_gt (a b : number) : bool :=
  match a, b with
  | Some x, Some y => (y <? x)%Z
  | _, _ => false
  end.

(** [Math.floor(a / b)] and [a % b] for a positive integer [b]. *)
Definition floor_div (a : number) (b : Z) : number :=
  match a with
  | Some x => Some (x / b)%Z
  | None => None
  end.

Definition remainder (a : number) (b : Z) : number :=
  match a with
  | Some x => Some (Z.rem x b)
  | None => None
  end.

End JSText.

(** ** [src/hooks/useCrypto.ts] *)

Module UseCrypto.
Import JS JSText.

(** The state of the hook. *)
Record CryptoState : Type := {
  isProcessing : bool;
  error : option string
}.

(** The state the hook starts in. *)
Definition initial : CryptoState := {| isProcessing := false; error := None |}.

Definition setIsProcessing (b : bool) (h : CryptoState) : CryptoState :=
  {| isProcessing := b; error := error h |}.

Definition setError (e : option string) (h : CryptoState) : CryptoState :=
  {| isProcessing := isProcessing h; error := e |}.

Section Provider.

Context {rng : Type}.
Variable getRandomValues : nat -> rng -> bytes * rng.
Variable aes_gcm_encrypt : bytes -> bytes -> bytes -> bytes.
Variable aes_gcm_decrypt : bytes -> bytes -> bytes -> option bytes.
Variable pbkdf2 : Crypto.hash_name -> N -> bytes -> bytes -> N -> bytes.
Variable native_message : exn -> string.

(** Each function of the hook is a call of [utils/crypto] between
    [setIsProcessing(true); setError(null)] and, in [finally],
    [setIsProcessing(false)]; what the call throws is thrown again as
    [new Error(errorMessage)] after [setError(errorMessage)]. A call
    takes the state of the hook and of the random source and returns
    them as they are when its promise settles. *)
Definition encryptText (text : js_string) (h : CryptoState) (r : rng)
  : result (js_string * js_string) * CryptoState * rng :=
  let h := setIsProcessing true h in
  let h := setError None h in
  let '(outcome, h, r) :=
    match Crypto.bind (Crypto.generateKey getRandomValues) (fun key =>
          Crypto.bind (Crypto.encrypt getRandomValues aes_gcm_encrypt text key)
            (fun ciphertext => Crypto.ret (ciphertext, key))) r with
    | (Ok v, r) => (Ok v, h, r)
    | (Throw err, r) =>
        let errorMessage :=
          if instanceof_Error err then message native_message err
          else "Failed to encrypt text"%string in
        let h := setError (Some errorMessage) h in
        (Throw (Error errorMessage), h, r)
    end in
  (outcome, setIsProcessing false h, r).

Definition encryptWithPassword (text password : js_string) (h : CryptoState) (r : rng)
  : result js_string * CryptoState * rng :=
  let h := setIsProcessing true h in
  let h := setError None h in
  let '(outcome, h, r) :=
    match Crypto.encryptWithPassword getRandomValues aes_gcm_encrypt pbkdf2
            text password r with
    | (Ok ciphertext, r) => (Ok ciphertext, h, r)
    | (Throw err, r) =>
        let errorMessage :=
          if instanceof_Error err then message native_message err
          else "Failed to encrypt text with password"%string in
        let h := setError (Some errorMessage) h in
        (Throw (Error errorMessage), h, r)
    end in
  (outcome, setIsProcessing false h, r).

Definition decryptText (ciphertext key : js_string) (h : CryptoState) (r : rng)
  : result js_string * CryptoState * rng :=
  let h := setIsProcessing true h in
  let h := setError None h in
  let '(outcome, h, r) :=
    match Crypto.decrypt aes_gcm_decrypt ciphertext key r with
    | (Ok plaintext, r) => (Ok plaintext, h, r)
    | (Throw err, r) =>
        let errorMessage :=
          if instanceof_Error err then message native_message err
          else "Failed to decrypt text"%string in
        let h := setError (Some errorMessage) h in
        (Throw (Error errorMessage), h, r)
    end in
  (outcome, setIsProcessing false h, r).

Definition decryptWithPassword (ciphertext password : js_string) (h : CryptoState)
    (r : rng) : result js_string * CryptoState * rng :=
  let h := setIsProcessing true h in
  let h := setError None h in
  let '(outcome, h, r) :=
    match Crypto.decryptWithPassword aes_gcm_decrypt pbkdf2 ciphertext password r with
    | (Ok plaintext, r) => (Ok plaintext, h, r)
    | (Throw err, r) =>
        let errorMessage :=
          if instanceof_Error err then message native_message err
          else "Failed to decrypt text with password"%string in
        let h := setError (Some errorMessage) h in
        (Throw (Error errorMessage), h, r)
    end in
  (outcome, setIsProcessing false h, r).

End Provider.

End UseCrypto.

(** ** [src/hooks/useFetchPaste.ts] *)

Module UseFetchPaste.
Import JS JSText Api.

Record FetchState : Type := {
  paste : option PasteData;
  loading : bool;
  error : option string
}.

(** The state the hook starts in. *)
Definition initial : FetchState :=
  {| paste := None; loading := true; error := None |}.

(** [fetchData], the body of the effect, run to its end. [fetchPaste]
    throws nothing, so the [catch] is not entered. *)
Definition fetchData (Date_parse : js_string -> number) (now : Z) (id : js_string)
    (s : FetchState) (localStorage : storage) : FetchState * storage :=
  let s := {| paste := paste s; loading := true; error := error s |} in
  let s := {| paste := paste s; loading := loading s; error := None |} in
  let '(pasteData, localStorage) := fetchPaste Date_parse now id localStorage in
  let s :=
    match pasteData with
    | None =>
        {| paste := None; loading := loading s;
           error := Some "Paste not found or expired"%string |}
    | Some p => {| paste := Some p; loading := loading s; error := error s |}
    end in
  ({| paste := paste s; loading := false; error := error s |}, localStorage).

End UseFetchPaste.

(** ** [src/pages/CreatePaste.tsx] *)

Module CreatePaste.
Import JS JSText Api.

(** The state of the form. *)
Record FormState : Type := {
  content : js_string;
  ttl : js_string;
  usePassword : bool;
  password : js_string;
  isSubmitting : bool;
  error : option string
}.

(** The state the form starts in. *)
Definition initial : FormState :=
  {| content := []; ttl := lit "24h"; usePassword := false; password := [];
     isSubmitting := false; error := None |}.

Definition setError (e : option string) (f : FormState) : FormState :=
  {| content := content f; ttl := ttl f; usePassword := usePassword f;
     password := password f; isSubmitting := isSubmitting f; error := e |}.

Definition setIsSubmitting (b : bool) (f : FormState) : FormState :=
  {| content := content f; ttl := ttl f; usePassword := usePassword f;
     password := password f; isSubmitting := b; error := error f |}.

(** What a submission leaves behind: the form, the hook, the random
    source, the store, and where it navigated to, if it did. *)
Record Outcome (rng : Type) : Type := {
  form : FormState;
  hook : UseCrypto.CryptoState;
  random : rng;
  localStorage : storage;
  navigated : option js_string
}.
Arguments form {rng} _.
Arguments hook {rng} _.
Arguments random {rng} _.
Arguments localStorage {rng} _.
Arguments navigated {rng} _.

Section Environment.

Context {rng : Type}.
Variable getRandomValues : nat -> rng -> bytes * rng.
Variable aes_gcm_encrypt : bytes -> bytes -> bytes -> bytes.
Variable pbkdf2 : Crypto.hash_name -> N -> bytes -> bytes -> N -> bytes.
Variable native_message : exn -> string.
Variable LocalTZA : Z -> bool -> Z.
Variable Date_toISOString_text : Z -> js_string.

(** [handleSubmit]. [now] is the clock and [random36] the text of the
    random number when [createPaste] is reached. *)
Definition handleSubmit (now : Z) (random36 : js_string) (f : FormState)
    (h : UseCrypto.CryptoState) (r : rng) (store : storage) : Outcome rng :=
  if falsy (trim (content f)) then
    {| form := setError (Some "Content cannot be empty"%string) f;
       hook := h; random := r; localStorage := store; navigated := None |}
  else if usePassword f && falsy (trim (password f)) then
    {| form :=
         setError
           (Some "Password cannot be empty when password protection is enabled"%string) f;
       hook := h; random := r; localStorage := store; navigated := None |}
  else
    let f := setError None f in
    let f := setIsSubmitting true f in
    let catch (err : exn) (f : FormState) : FormState :=
      let errorMessage :=
        if instanceof_Error err then message native_message err
        else "Failed to create paste"%string in
      setError (Some errorMessage) f in
    let out :=
      if usePassword f then
        match UseCrypto.encryptWithPassword getRandomValues aes_gcm_encrypt pbkdf2
                native_message (content f) (password f) h r with
        | (Ok ciphertext, h, r) =>
            match createPaste LocalTZA Date_toISOString_text now random36
                    ciphertext (ttl f) true store with
            | (Ok response, store) =>
                {| form := f; hook := h; random := r; localStorage := store;
                   navigated := Some (lit "/p/" ++ id response) |}
            | (Throw err, store) =>
                {| form := catch err f; hook := h; random := r;
                   localStorage := store; navigated := None |}
            end
        | (Throw err, h, r) =>
            {| form := catch err f; hook := h; random := r;
               localStorage := store; navigated := None |}
        end
      else
        match UseCrypto.encryptText getRandomValues aes_gcm_encrypt
                native_message (content f) h r with
        | (Ok (ciphertext, key), h, r) =>
            match createPaste LocalTZA Date_toISOString_text now random36
                    ciphertext (ttl f) false store with
            | (Ok response, store) =>
                {| form := f; hook := h; random := r; localStorage := store;
                   navigated := Some (lit "/p/" ++ id response ++ lit "#" ++ key) |}
            | (Throw err, store) =>
                {| form := catch err f; hook := h; random := r;
                   localStorage := store; navigated := None |}
            end
        | (Throw err, h, r) =>
            {| form := catch err f; hook := h; random := r;
               localStorage := store; navigated := None |}
        end in
    {| form := setIsSubmitting false (form out); hook := hook out;
       random := random out; localStorage := localStorage out;
       navigated := navigated out |}.

End Environment.

End CreatePaste.

(** ** [src/pages/ViewPaste.tsx] *)

Module ViewPaste.
Import JS JSText Api.

(** The state of the page. *)
Record ViewState : Type := {
  content : js_string;
  decryptionError : option string;
  password : js_string;
  showPasswordPrompt : bool;
  isDecrypting : bool
}.

Definition initial : ViewState :=
  {| content := []; decryptionError := None; password := [];
     showPasswordPrompt := false; isDecrypting := false |}.

Definition setContent (c : js_string) (v : ViewState) : ViewState :=
  {| content := c; decryptionError := decryptionError v; password := password v;
     showPasswordPrompt := showPasswordPrompt v; isDecrypting := isDecrypting v |}.

Definition setDecryptionError (e : option string) (v : ViewState) : ViewState :=
  {| content := content v; decryptionError := e; password := password v;
     showPasswordPrompt := showPasswordPrompt v; isDecrypting := isDecrypting v |}.

Definition setPassword (p : js_string) (v : ViewState) : ViewState :=
  {| content := content v; decryptionError := decryptionError v; password := p;
     showPasswordPrompt := showPasswordPrompt v; isDecrypting := isDecrypting v |}.

Definition setShowPasswordPrompt (b : bool) (v : ViewState) : ViewState :=
  {| content := content v; decryptionError := decryptionError v;
     password := password v; showPasswordPrompt := b;
     isDecrypting := isDecrypting v |}.

Definition setIsDecrypting (b : bool) (v : ViewState) : ViewState :=
  {| content := content v; decryptionError := decryptionError v;
     password := password v; showPasswordPrompt := showPasswordPrompt v;
     isDecrypting := b |}.

(** [paste.hasPassword] as a condition: an absent flag is falsy. *)
Definition truthy (flag : option bool) : bool :=
  match flag with
  | Some b => b
  | None => false
  end.

(** [location.hash.substring(1)]. *)
Definition key_of_hash (hash : js_string) : js_string := substring hash 1 None.

Section Environment.

Context {rng : Type}.
Variable aes_gcm_decrypt : bytes -> bytes -> bytes -> option bytes.
Variable pbkdf2 : Crypto.hash_name -> N -> bytes -> bytes -> N -> bytes.
Variable native_message : exn -> string.
Variable Date_parse : js_string -> number.

(** [decryptPaste], the function the effect defines, for a paste that
    is there. *)
Definition decryptPaste (paste : PasteData) (key : js_string) (v : ViewState)
    (h : UseCrypto.CryptoState) (r : rng) : ViewState * UseCrypto.CryptoState * rng :=
  let done (plaintext : js_string) (v : ViewState) : ViewState :=
    let v := setContent plaintext v in
    let v := setDecryptionError None v in
    setShowPasswordPrompt false v in
  if truthy (hasPassword paste) && negb (falsy key) then
    match UseCrypto.decryptText aes_gcm_decrypt native_message
            (ciphertext paste) key h r with
    | (Ok plaintext, h, r) => (done plaintext v, h, r)
    | (Throw err, h, r) => (setShowPasswordPrompt true v, h, r)
    end
  else if negb (truthy (hasPassword paste)) && negb (falsy key) then
    match UseCrypto.decryptText aes_gcm_decrypt native_message
            (ciphertext paste) key h r with
    | (Ok plaintext, h, r) => (done plaintext v, h, r)
    | (Throw err, h, r) =>
        (setDecryptionError
           (Some "Failed to decrypt: Invalid key or corrupted data"%string) v, h, r)
    end
  else (v, h, r).

(** One run of the effect, to the end of what it starts. *)
Definition effect (paste : option PasteData) (key : js_string) (v : ViewState)
    (h : UseCrypto.CryptoState) (r : rng) : ViewState * UseCrypto.CryptoState * rng :=
  match paste with
  | None => (v, h, r)
  | Some p =>
      if truthy (hasPassword p) && falsy key then (setShowPasswordPrompt true v, h, r)
      else if negb (showPasswordPrompt v) then decryptPaste p key v h r
      else (v, h, r)
  end.

Definition handlePasswordSubmit (paste : option PasteData) (v : ViewState)
    (h : UseCrypto.CryptoState) (r : rng) : ViewState * UseCrypto.CryptoState * rng :=
  match paste with
  | None => (v, h, r)
  | Some p =>
      if falsy (trim (password v)) then (v, h, r)
      else
        let v := setIsDecrypting true v in
        let v := setDecryptionError None v in
        let '(v, h, r) :=
          match UseCrypto.decryptWithPassword aes_gcm_decrypt pbkdf2 native_message
                  (ciphertext p) (password v) h r with
          | (Ok plaintext, h, r) =>
              let v := setContent plaintext v in
              (setShowPasswordPrompt false v, h, r)
          | (Throw err, h, r) =>
              (setDecryptionError (Some "Failed to decrypt: Invalid password"%string) v,
               h, r)
          end in
        (setIsDecrypting false v, h, r)
  end.

(** React runs the effect again after every render in which one of
    [paste], [key], [decryptText] and [showPasswordPrompt] is not what
    it was in the render before. [decryptText] is the same function in
    every render, and an update of the state changes neither [paste]
    nor [key]: so after an update the effect runs as long as
    [showPasswordPrompt] is not what it was, [shown], in the render
    before. *)
Fixpoint rerun_effect (fuel : nat) (paste : option PasteData) (key : js_string)
    (shown : bool) (v : ViewState) (h : UseCrypto.CryptoState) (r : rng)
  : ViewState * UseCrypto.CryptoState * rng :=
  match fuel with
  | O => (v, h, r)
  | S fuel' =>
      if Bool.eqb shown (showPasswordPrompt v) then (v, h, r)
      else
        let '(v', h', r') := effect paste key v h r in
        rerun_effect fuel' paste key (showPasswordPrompt v) v' h' r'
  end.

(** [getRemainingTime]; [now] is the clock. *)
Definition getRemainingTime (now : Z) (dateString : js_string) : js_string :=
  let expiresAt := new_Date Date_parse dateString in
  let now : number := Some now in
  let diff := number_sub expiresAt now in
  if number_le diff (Some 0%Z) then lit "Expired"
  else
    let days := floor_div diff (1000 * 60 * 60 * 24) in
    let hours := floor_div (remainder diff (1000 * 60 * 60 * 24)) (1000 * 60 * 60) in
    let minutes := floor_div (remainder diff (1000 * 60 * 60)) (1000 * 60) in
    if number_gt days (Some 0%Z) then
      number_to_string days ++ lit "d " ++ number_to_string hours ++ lit "h remaining"
    else if number_gt hours (Some 0%Z) then
      number_to_string hours ++ lit "h " ++ number_to_string minutes ++ lit "m remaining"
    else number_to_string minutes ++ lit "m remaining".

(** What the page shows, by the first condition of the render that
    holds: the text of each screen that comes from the state. The
    last screen shows [content] as it is or through the Markdown
    renderer. *)
Inductive Screen : Type :=
| Loading
| NotFound (text : option string)
| PasswordPrompt (shown_error : option string)
| MissingKey
| DecryptFailed (text : option string)
| Shown (content : js_string) (remaining : js_string) (passwordProtected : bool).

Definition render (now : Z) (fetched : UseFetchPaste.FetchState) (key : js_string)
    (v : ViewState) (h : UseCrypto.CryptoState) : Screen :=
  if UseFetchPaste.loading fetched || UseCrypto.isProcessing h then Loading
  else
    match UseFetchPaste.paste fetched with
    | None =>
        NotFound (or_else (UseFetchPaste.error fetched)
                    (Some "Paste not found or expired"%string))
    | Some paste =>
        if truthy_text (UseFetchPaste.error fetched) then
          NotFound (or_else (UseFetchPaste.error fetched)
                      (Some "Paste not found or expired"%string))
        else if showPasswordPrompt v then
          PasswordPrompt
            (if truthy_text (decryptionError v) then decryptionError v else None)
        else if falsy key && negb (showPasswordPrompt v)
                && negb (truthy (hasPassword paste)) then MissingKey
        else if truthy_text (decryptionError v) || truthy_text (UseCrypto.error h) then
          DecryptFailed (or_else (decryptionError v) (UseCrypto.error h))
        else
          Shown (content v) (getRemainingTime now (expiresAt paste))
            (truthy (hasPassword paste))
    end.

End Environment.

End ViewPaste.

(** ** Further notions the statements use *)

Module MoreNotions.
Import JS JSText Crypto Api.

(** The digits [arrayBufferToHex] writes: 0-9 and a-f. *)
Definition is_lower_hex_digit (c : N) : bool :=
  (((0x30 <=? c) && (c <=? 0x39)) || ((0x61 <=? c) && (c <=? 0x66)))%N.

(** [String.prototype.toUpperCase] on ASCII text. *)
Definition toUpperCase_ascii (s : js_string) : js_string :=
  List.map (fun c => if ((0x61 <=? c) && (c <=? 0x7A))%N then (c - 0x20)%N else c) s.

(** No code unit of the string is a line terminator. *)
Definition one_line (s : js_string) : bool :=
  forallb (fun c => negb (is_line_terminator c)) s.

(** Every element is a 16-bit code unit, as in any string of the
    program. *)
Definition code_units (s : js_string) : bool := forallb (fun c => c <? 0x10000)%N s.

(** The string is white space and line terminators only. *)
Definition blank (s : js_string) : bool :=
  forallb (fun c => is_white_space c || is_line_terminator c) s.

(** What [fetchPaste] returns of a stored paste: the paste itself, with
    [hasPassword] false when it was stored without one. *)
Definition as_fetched (paste : PasteData) : PasteData :=
  match hasPassword paste with
  | None =>
      {| ciphertext := ciphertext paste; expiresAt := expiresAt paste;
         hasPassword := Some false |}
  | Some _ => paste
  end.

(** The state of [useCrypto] after a call has settled with [outcome]:
    not processing, and holding the message of the error thrown, or
    none. *)
Definition settled {A : Type} (outcome : result A) (h : UseCrypto.CryptoState) : Prop :=
  UseCrypto.isProcessing h = false
  /\ match outcome with
     | Ok _ => UseCrypto.error h = None
     | Throw e => exists msg, e = Error msg /\ UseCrypto.error h = Some msg
     end.

(** The text [getRemainingTime] gives for [d] days, [h] hours and [m]
    minutes. *)
Definition remaining_text (d h m : Z) : js_string :=
  if (0 <? d)%Z then
    number_to_string (Some d) ++ lit "d " ++ number_to_string (Some h)
    ++ lit "h remaining"
  else if (0 <? h)%Z then
    number_to_string (Some h) ++ lit "h " ++ number_to_string (Some m)
    ++ lit "m remaining"
  else number_to_string (Some m) ++ lit "m remaining".

Section Page.

Context {rng : Type}.
Variable aes_gcm_decrypt : bytes -> bytes -> bytes -> option bytes.
Variable pbkdf2 : hash_name -> N -> bytes -> bytes -> N -> bytes.
Variable native_message : exn -> string.
Variable Date_parse : js_string -> number.

(** Opening the page of paste [id] with the fragment [hash]: from the
    states the hooks start in, the fetch of [useFetchPaste], the effect
    of the page on what was fetched, and the effect again for as long
    as React runs it. *)
Definition open_page (fuel : nat) (now : Z) (id hash : js_string)
    (localStorage : storage) (r : rng)
  : UseFetchPaste.FetchState * ViewPaste.ViewState * UseCrypto.CryptoState * rng
    * storage :=
  let key := ViewPaste.key_of_hash hash in
  let '(fetched, localStorage) :=
    UseFetchPaste.fetchData Date_parse now id UseFetchPaste.initial localStorage in
  let '(v, h, r) :=
    ViewPaste.effect aes_gcm_decrypt native_message (UseFetchPaste.paste fetched)
      key ViewPaste.initial UseCrypto.initial r in
  let '(v, h, r) :=
    ViewPaste.rerun_effect aes_gcm_decrypt native_message fuel
      (UseFetchPaste.paste fetched) key
      (ViewPaste.showPasswordPrompt ViewPaste.initial) v h r in
  (fetched, v, h, r, localStorage).

(** Submitting the password prompt: the handler, and the effect for as
    long as React runs it after what the handler did to the state. *)
Definition submit_password (fuel : nat) (paste : option PasteData) (key : js_string)
    (v : ViewPaste.ViewState) (h : UseCrypto.CryptoState) (r : rng)
  : ViewPaste.ViewState * UseCrypto.CryptoState * rng :=
  let '(v', h', r') :=
    ViewPaste.handlePasswordSubmit aes_gcm_decrypt pbkdf2 native_message paste v h r in
  ViewPaste.rerun_effect aes_gcm_decrypt native_message fuel paste key
    (ViewPaste.showPasswordPrompt v) v' h' r'.

End Page.

End MoreNotions.

(** ** Forms and messages to run the pages on *)

Module TestPages.
Import JS.

(** The messages a platform gives its own errors. *)
Definition native_message (err : exn) : string :=
  match err with
  | DataError => "Invalid key length"
  | OperationError => "The operation failed for an operation-specific reason"
  | RangeError => "Invalid time value"
  | Error msg => msg
  end.

(** A form filled in, without and with a password. *)
Definition form (content ttl : js_string) : CreatePaste.FormState :=
  {| CreatePaste.content := content; CreatePaste.ttl := ttl;
     CreatePaste.usePassword := false; CreatePaste.password := [];
     CreatePaste.isSubmitting := false; CreatePaste.error := None |}.

Definition form_with_password (content ttl password : js_string)
  : CreatePaste.FormState :=
  {| CreatePaste.content := content; CreatePaste.ttl := ttl;
     CreatePaste.usePassword := true; CreatePaste.password := password;
     CreatePaste.isSubmitting := false; CreatePaste.error := None |}.

End TestPages.


(** ** The hex codec *)

Module HexFacts.
Import JS Crypto Notions.

Lemma padStart_toString_byte (b : byte) :
  padStart (toString (Byte.to_N b) 16) 2 (lit "0") = hex_pair b.
Proof. destruct b; reflexivity. Qed.

Lemma arrayBufferToHex_cons (b : byte) (bs : bytes) :
  arrayBufferToHex (b :: bs) = hex_pair b ++ arrayBufferToHex bs.
Proof.
  unfold arrayBufferToHex. cbn [List.map concat].
  now rewrite padStart_toString_byte.
Qed.

(** The text [arrayBufferToHex] writes, digit by digit. *)
Lemma arrayBufferToHex_hex_pairs (buffer : bytes) :
  arrayBufferToHex buffer = flat_map hex_pair buffer.
Proof.
  induction buffer as [|b bs IH]; [reflexivity|].
  rewrite arrayBufferToHex_cons, IH. reflexivity.
Qed.

Lemma arrayBufferToHex_app (a b : bytes) :
  arrayBufferToHex (a ++ b) = arrayBufferToHex a ++ arrayBufferToHex b.
Proof.
  unfold arrayBufferToHex. now rewrite List.map_app, concat_app.
Qed.

Lemma hex_pair_parse (b : byte) :
  ToUint8 (parseInt (hex_pair b) (Some 16%N)) = b.
Proof. destruct b; reflexivity. Qed.

Lemma hex_pair_hex (b : byte) : forallb is_hex_digit (hex_pair b) = true.
Proof. destruct b; reflexivity. Qed.

Lemma hex_digit_not_line_terminator (c : N) :
  is_hex_digit c = true -> is_line_terminator c = false.
Proof.
  unfold is_hex_digit, is_line_terminator. intros H.
  repeat match goal with
         | |- context [(?a =? ?b)%N] => destruct (N.eqb_spec a b); [subst; discriminate H |]
         end.
  reflexivity.
Qed.

Lemma arrayBufferToHex_length (bs : bytes) :
  length (arrayBufferToHex bs) = 2 * length bs.
Proof.
  induction bs as [|b bs IH]; [reflexivity|].
  rewrite arrayBufferToHex_cons. cbn [hex_pair app length]. lia.
Qed.

Lemma arrayBufferToHex_hex (bs : bytes) :
  forallb is_hex_digit (arrayBufferToHex bs) = true.
Proof.
  induction bs as [|b bs IH]; [reflexivity|].
  rewrite arrayBufferToHex_cons, forallb_app, hex_pair_hex, IH. reflexivity.
Qed.

(** On a pair of characters that are not line terminators the regular
    expression takes both. *)
Lemma dot_1_2_matches_pair (h l : N) (s : js_string) :
  is_line_terminator h = false -> is_line_terminator l = false ->
  dot_1_2_matches (h :: l :: s) = [h; l] :: dot_1_2_matches s.
Proof. intros Hh Hl. cbn [dot_1_2_matches]. now rewrite Hh, Hl. Qed.

Lemma hexToArrayBuffer_matches (s : js_string) :
  hexToArrayBuffer s =
  List.map (fun byte => ToUint8 (parseInt byte (Some 16%N))) (dot_1_2_matches s).
Proof.
  unfold hexToArrayBuffer, match_dot_1_2.
  destruct (dot_1_2_matches s); reflexivity.
Qed.

Lemma hexToArrayBuffer_hex_pair (b : byte) (s : js_string) :
  hexToArrayBuffer (hex_pair b ++ s) = b :: hexToArrayBuffer s.
Proof.
  rewrite !hexToArrayBuffer_matches.
  pose proof (hex_pair_hex b) as Hhex. pose proof (hex_pair_parse b) as Hp.
  unfold hex_pair in *. cbn [app forallb] in *.
  apply andb_prop in Hhex as [Hh Hl]. apply andb_prop in Hl as [Hl _].
  rewrite dot_1_2_matches_pair by now apply hex_digit_not_line_terminator.
  cbn [List.map]. now rewrite Hp.
Qed.

Lemma hexToArrayBuffer_arrayBufferToHex_app (bs : bytes) (s : js_string) :
  hexToArrayBuffer (arrayBufferToHex bs ++ s) = bs ++ hexToArrayBuffer s.
Proof.
  induction bs as [|b bs IH]; [reflexivity|].
  rewrite arrayBufferToHex_cons, <- app_assoc, hexToArrayBuffer_hex_pair, IH.
  reflexivity.
Qed.

Lemma hex_roundtrip (b : bytes) : hexToArrayBuffer (arrayBufferToHex b) = b.
Proof.
  rewrite <- (app_nil_r (arrayBufferToHex b)).
  rewrite hexToArrayBuffer_arrayBufferToHex_app. cbn. apply app_nil_r.
Qed.

Lemma arrayBufferToHex_inj (a b : bytes) :
  arrayBufferToHex a = arrayBufferToHex b -> a = b.
Proof.
  intros H. apply (f_equal hexToArrayBuffer) in H.
  now rewrite !hex_roundtrip in H.
Qed.

(** C8. The hex codec loses nothing: reading back the hex text of a byte
    sequence gives the byte sequence. *)
Theorem hexToArrayBuffer_arrayBufferToHex (b : bytes) :
  hexToArrayBuffer (arrayBufferToHex b) = b.
Proof. exact (hex_roundtrip b). Qed.

End HexFacts.

Module Utf8Facts.
Import JS Notions.

Lemma to_N_byte_of_N (n : N) : (n < 256)%N -> Byte.to_N (byte_of_N n) = n.
Proof.
  intros H. unfold byte_of_N. rewrite N.mod_small by exact H.
  destruct (Byte.of_N n) eqn:E.
  - now apply Byte.to_of_N.
  - apply Byte.of_N_None_iff in E. lia.
Qed.

(** A mask keeps the low part of a lead or continuation byte. *)
Lemma mod_offset (off m x : N) :
  (off mod m = 0 -> x < m -> (off + x) mod m = x)%N.
Proof.
  intros Hoff Hx. rewrite N.Div0.add_mod, Hoff, N.add_0_l, N.Div0.mod_mod.
  now apply N.mod_small.
Qed.

(** Splitting a number into base-64 digits, the unit of UTF-8. *)
Ltac digits64 x :=
  let q := fresh "q" in
  let r := fresh "r" in
  pose proof (N.div_mod x 64 ltac:(discriminate));
  pose proof (N.mod_lt x 64 ltac:(discriminate));
  set (q := (x / 64)%N) in *; set (r := (x mod 64)%N) in *; clearbody r.

Ltac decide_tests :=
  repeat match goal with
    | |- context [(?a <=? ?b)%N] =>
        first [ rewrite (proj2 (N.leb_le a b)) by lia
              | rewrite (proj2 (N.leb_gt a b)) by lia ]
    | |- context [(?a <? ?b)%N] =>
        first [ rewrite (proj2 (N.ltb_lt a b)) by lia
              | rewrite (proj2 (N.ltb_ge a b)) by lia ]
    | |- context [(?a =? ?b)%N] =>
        first [ rewrite (proj2 (N.eqb_eq a b)) by lia
              | rewrite (proj2 (N.eqb_neq a b)) by lia ]
    end.

Ltac unmask :=
  repeat match goal with
    | |- context [((?off + ?x) mod ?m)%N] =>
        rewrite (mod_offset off m x) by (try reflexivity; lia)
    end.

Ltac run_decoder :=
  cbn [app utf8_decode utf8_initial bytes_needed N.eqb];
  rewrite !to_N_byte_of_N by lia; unfold utf8_lead;
  repeat (progress (decide_tests;
          cbn [andb orb negb fst snd app bytes_needed bytes_seen code_point
                 lower_boundary upper_boundary N.eqb N.add Pos.add Pos.succ Pos.eqb]));
  unmask; try (f_equal; lia).

Lemma utf8_decode_encode_cp (cp : N) (rest : bytes) :
  is_scalar_value cp = true ->
  utf8_decode utf8_initial (utf8_encode_cp cp ++ rest)
  = cp :: utf8_decode utf8_initial rest.
Proof.
  unfold is_scalar_value. intros Hs.
  apply andb_prop in Hs as [Hmax Hsur]. apply N.leb_le in Hmax.
  assert (Hns : (cp < 0xD800 \/ 0xDFFF < cp)%N).
  { destruct (N.leb_spec 0xD800 cp); destruct (N.leb_spec cp 0xDFFF);
      cbn in Hsur; try discriminate; lia. }
  clear Hsur. unfold utf8_encode_cp.
  destruct (N.leb_spec cp 0x7F) as [H1|H1].
  - cbn [app utf8_decode utf8_initial bytes_needed N.eqb].
    rewrite to_N_byte_of_N by lia. unfold utf8_lead.
    rewrite (proj2 (N.leb_le _ _) H1). reflexivity.
  - destruct (N.leb_spec cp 0x7FF) as [H2|H2].
    + digits64 cp. clearbody q. run_decoder.
    + destruct (N.leb_spec cp 0xFFFF) as [H3|H3].
      * change 4096%N with (64 * 64)%N. rewrite <- N.Div0.div_div.
        digits64 cp. digits64 q. clearbody q0 q.
        destruct (N.eq_dec q0 0%N); [|destruct (N.eq_dec q0 13%N)]; run_decoder.
      * change 262144%N with (64 * 64 * 64)%N. change 4096%N with (64 * 64)%N.
        rewrite <- !N.Div0.div_div.
        digits64 cp. digits64 q. digits64 q0. clearbody q1 q0 q.
        destruct (N.eq_dec q1 0%N); [|destruct (N.eq_dec q1 4%N)]; run_decoder.
Qed.

Lemma utf8_decode_encode (cps : list N) :
  forallb is_scalar_value cps = true ->
  utf8_decode utf8_initial (flat_map utf8_encode_cp cps) = cps.
Proof.
  induction cps as [|cp cps IH]; intros H; [reflexivity|].
  cbn [forallb] in H. apply andb_prop in H as [Hcp Hcps].
  cbn [flat_map]. rewrite utf8_decode_encode_cp by exact Hcp.
  now rewrite IH.
Qed.

(** What a well-formed string looks like at its head. *)
Lemma well_formed_cases (s : js_string) :
  well_formed s = true ->
  s = []
  \/ (exists c s', s = c :: s' /\ (c < 0x10000)%N /\ is_high_surrogate c = false
                   /\ is_low_surrogate c = false /\ well_formed s' = true)
  \/ (exists c d s', s = c :: d :: s' /\ is_high_surrogate c = true
                     /\ is_low_surrogate d = true /\ well_formed s' = true).
Proof.
  destruct s as [|c s']; [now left|]. cbn [well_formed]. intros H.
  apply andb_prop in H as [Hc H]. apply N.ltb_lt in Hc.
  destruct (is_high_surrogate c) eqn:Hh.
  - destruct s' as [|d s'']; [discriminate|].
    apply andb_prop in H as [Hd H]. right; right. now exists c, d, s''.
  - apply andb_prop in H as [Hl H]. apply negb_true_iff in Hl.
    right; left. now exists c, s'.
Qed.

Lemma well_formed_ind (P : js_string -> Prop) :
  P [] ->
  (forall c s, (c < 0x10000)%N -> is_high_surrogate c = false ->
               is_low_surrogate c = false -> well_formed s = true ->
               P s -> P (c :: s)) ->
  (forall c d s, is_high_surrogate c = true -> is_low_surrogate d = true ->
                 well_formed s = true -> P s -> P (c :: d :: s)) ->
  forall s, well_formed s = true -> P s.
Proof.
  intros Hnil Hone Hpair s.
  remember (length s) as n eqn:Hn. revert s Hn.
  induction n as [n IH] using lt_wf_ind. intros s Hn Hwf.
  destruct (well_formed_cases s Hwf)
    as [-> | [(c & s' & -> & Hc & Hh & Hl & Hs') | (c & d & s' & -> & Hh & Hl & Hs')]].
  - exact Hnil.
  - apply Hone; try assumption.
    apply (IH (length s')); [cbn in Hn; lia | reflexivity | assumption].
  - apply Hpair; try assumption.
    apply (IH (length s')); [cbn in Hn; lia | reflexivity | assumption].
Qed.

Lemma surrogate_bounds (c : N) :
  (is_high_surrogate c = true <-> (0xD800 <= c <= 0xDBFF)%N)
  /\ (is_low_surrogate c = true <-> (0xDC00 <= c <= 0xDFFF)%N).
Proof.
  unfold is_high_surrogate, is_low_surrogate.
  rewrite !andb_true_iff, !N.leb_le. tauto.
Qed.

Lemma not_surrogate_bounds (c : N) :
  is_high_surrogate c = false -> is_low_surrogate c = false ->
  (c < 0xD800 \/ 0xDFFF < c)%N.
Proof.
  unfold is_high_surrogate, is_low_surrogate.
  rewrite !andb_false_iff, !N.leb_gt. lia.
Qed.

Lemma to_scalar_values_scalar (s : js_string) :
  well_formed s = true -> forallb is_scalar_value (to_scalar_values s) = true.
Proof.
  revert s. apply well_formed_ind;
    [reflexivity | intros c s Hc Hh Hl Hwf IH | intros c d s Hh Hl Hwf IH].
  - cbn [to_scalar_values]. rewrite Hh, Hl. cbn [forallb]. rewrite IH.
    pose proof (not_surrogate_bounds c Hh Hl).
    unfold is_scalar_value.
    replace (c <=? 0x10FFFF)%N with true by (symmetry; apply N.leb_le; lia).
    destruct (N.leb_spec 0xD800 c); destruct (N.leb_spec c 0xDFFF);
      try reflexivity; lia.
  - cbn [to_scalar_values]. rewrite Hh, Hl. cbn [forallb]. rewrite IH.
    apply surrogate_bounds in Hh. apply surrogate_bounds in Hl.
    unfold is_scalar_value.
    replace (_ <=? 0x10FFFF)%N with true by (symmetry; apply N.leb_le; lia).
    replace (_ <=? 0xDFFF)%N with false by (symmetry; apply N.leb_gt; lia).
    now rewrite andb_false_r.
Qed.

Lemma utf16_of_scalar_values (s : js_string) :
  well_formed s = true -> flat_map utf16_units (to_scalar_values s) = s.
Proof.
  revert s. apply well_formed_ind;
    [reflexivity | intros c s Hc Hh Hl Hwf IH | intros c d s Hh Hl Hwf IH].
  - cbn [to_scalar_values]. rewrite Hh, Hl. cbn [flat_map]. rewrite IH.
    unfold utf16_units. now rewrite (proj2 (N.ltb_lt _ _) Hc).
  - cbn [to_scalar_values]. rewrite Hh, Hl. cbn [flat_map]. rewrite IH.
    apply surrogate_bounds in Hh. apply surrogate_bounds in Hl.
    unfold utf16_units.
    replace (_ <? 0x10000)%N with false by (symmetry; apply N.ltb_ge; lia).
    replace (0x10000 + (c - 0xD800) * 0x400 + (d - 0xDC00) - 0x10000)%N
      with ((c - 0xD800) * 0x400 + (d - 0xDC00))%N by lia.
    rewrite N.div_add_l by discriminate.
    rewrite N.add_comm with (n := ((c - 0xD800) * 0x400)%N), N.Div0.mod_add.
    rewrite N.div_small, N.mod_small by lia.
    cbn [app]. repeat f_equal; lia.
Qed.

Lemma strip_bom_scalar_values (s : js_string) :
  well_formed s = true -> starts_with_bom s = false ->
  strip_bom (to_scalar_values s) = to_scalar_values s.
Proof.
  intros Hwf Hbom.
  destruct (well_formed_cases s Hwf)
    as [-> | [(c & s' & -> & Hc & Hh & Hl & Hs') | (c & d & s' & -> & Hh & Hl & Hs')]].
  - reflexivity.
  - cbn [to_scalar_values]. rewrite Hh, Hl. cbn [strip_bom].
    cbn [starts_with_bom] in Hbom. now rewrite Hbom.
  - cbn [to_scalar_values]. rewrite Hh, Hl. cbn [strip_bom].
    apply surrogate_bounds in Hh. apply surrogate_bounds in Hl.
    replace (_ =? 0xFEFF)%N with false by (symmetry; apply N.eqb_neq; lia).
    reflexivity.
Qed.

(** Text survives [TextEncoder] then [TextDecoder] when it is well
    formed and does not begin with U+FEFF. *)
Lemma TextDecoder_TextEncoder (s : js_string) :
  well_formed s = true -> starts_with_bom s = false ->
  TextDecoder_decode (TextEncoder_encode s) = s.
Proof.
  intros Hwf Hbom. unfold TextDecoder_decode, TextEncoder_encode.
  rewrite utf8_decode_encode by now apply to_scalar_values_scalar.
  rewrite strip_bom_scalar_values by assumption.
  now apply utf16_of_scalar_values.
Qed.

End Utf8Facts.

(** ** The envelope *)

Module EnvelopeFacts.
Import JS Crypto Notions HexFacts Utf8Facts.

Lemma substring_prefix (a b : js_string) (n : nat) :
  length a = n -> substring (a ++ b) 0 (Some n) = a.
Proof.
  intros <-. unfold substring. rewrite length_app.
  replace (Nat.min 0 _) with 0%nat by lia.
  replace (Nat.min (length a) (length a + length b)) with (length a) by lia.
  replace (Nat.min 0 (length a)) with 0%nat by lia.
  replace (Nat.max 0 (length a)) with (length a) by lia.
  rewrite skipn_O, Nat.sub_0_r.
  now rewrite firstn_app, Nat.sub_diag, firstn_all, firstn_O, app_nil_r.
Qed.

Lemma substring_suffix (a b : js_string) (n : nat) :
  length a = n -> substring (a ++ b) n None = b.
Proof.
  intros <-. unfold substring. rewrite length_app.
  replace (Nat.min (length a) (length a + length b)) with (length a) by lia.
  replace (Nat.min (length a) (length a + length b)) with (length a) by lia.
  replace (Nat.max (length a) (length a + length b)) with (length a + length b)%nat by lia.
  rewrite skipn_app, skipn_all, Nat.sub_diag, skipn_O. cbn [app].
  replace (length a + length b - length a)%nat with (length b) by lia.
  apply firstn_all.
Qed.

Lemma substring_middle (a b c : js_string) (n m : nat) :
  length a = n -> (length a + length b)%nat = m ->
  substring (a ++ b ++ c) n (Some m) = b.
Proof.
  intros <- <-. unfold substring. rewrite !length_app.
  replace (Nat.min (length a) _) with (length a) by lia.
  replace (Nat.min (length a + length b) _) with (length a + length b)%nat by lia.
  replace (Nat.min (length a) _) with (length a) by lia.
  replace (Nat.max (length a) _) with (length a + length b)%nat by lia.
  rewrite skipn_app, skipn_all, Nat.sub_diag, skipn_O. cbn [app].
  replace (length a + length b - length a)%nat with (length b) by lia.
  now rewrite firstn_app, Nat.sub_diag, firstn_all, firstn_O, app_nil_r.
Qed.

Lemma substring_short_suffix (s : js_string) (n : nat) :
  length s <= n -> substring s n None = [].
Proof.
  intros H. unfold substring.
  replace (Nat.min n (length s)) with (length s) by lia.
  rewrite Nat.min_id, Nat.max_id, Nat.sub_diag. reflexivity.
Qed.

(** Hex text of even length reads back as half as many bytes. *)
Lemma hexToArrayBuffer_length (n : nat) (s : js_string) :
  length s = 2 * n -> forallb is_hex_digit s = true ->
  length (hexToArrayBuffer s) = n.
Proof.
  rewrite hexToArrayBuffer_matches, length_map. revert s.
  induction n as [|n IH]; intros s Hlen Hhex.
  - destruct s; [reflexivity | discriminate].
  - destruct s as [|h [|l s]]; try (cbn in Hlen; lia).
    cbn [forallb] in Hhex.
    apply andb_prop in Hhex as [Hh Hhex]. apply andb_prop in Hhex as [Hl Hhex].
    rewrite dot_1_2_matches_pair by now apply hex_digit_not_line_terminator.
    cbn [length]. f_equal. apply IH; [cbn in Hlen; lia | exact Hhex].
Qed.

Lemma hex_key_imports (hexKey : js_string) :
  is_hex_key hexKey = true -> aes_key_length_ok (hexToArrayBuffer hexKey) = true.
Proof.
  unfold is_hex_key. intros H. apply andb_prop in H as [Hlen Hhex].
  apply Nat.eqb_eq in Hlen. unfold aes_key_length_ok.
  now rewrite (hexToArrayBuffer_length 32 hexKey Hlen Hhex).
Qed.

Lemma arrayBufferToHex_hex_key (key : bytes) :
  length key = 32 -> is_hex_key (arrayBufferToHex key) = true.
Proof.
  intros H. unfold is_hex_key.
  now rewrite arrayBufferToHex_length, H, arrayBufferToHex_hex.
Qed.

Section Provider.

Context {rng : Type}.
Variable getRandomValues : nat -> rng -> bytes * rng.
Variable aes_gcm_encrypt : bytes -> bytes -> bytes -> bytes.
Variable aes_gcm_decrypt : bytes -> bytes -> bytes -> option bytes.
Variable pbkdf2 : hash_name -> N -> bytes -> bytes -> N -> bytes.

(** The contracts of the provider the properties rest on:
    the random source fills the array it is given; AES-GCM decrypts
    what it encrypted under the same key and nonce; its output is the
    data followed by a 16-byte tag; it rejects an input shorter than
    the tag; PBKDF2 returns the 256 bits asked for. *)
Hypothesis getRandomValues_length :
  forall n r, length (fst (getRandomValues n r)) = n.
Hypothesis aes_gcm_correct :
  forall key iv data,
    aes_key_length_ok key = true -> length iv = 12 ->
    aes_gcm_decrypt key iv (aes_gcm_encrypt key iv data) = Some data.
Hypothesis aes_gcm_tag :
  forall key iv data, length (aes_gcm_encrypt key iv data) = length data + 16.
Hypothesis aes_gcm_short :
  forall key iv data, length data < 16 -> aes_gcm_decrypt key iv data = None.
Hypothesis pbkdf2_length :
  forall password salt, length (pbkdf2 SHA_256 100000 password salt 256) = 32.

Local Abbreviation encrypt := (Crypto.encrypt getRandomValues aes_gcm_encrypt).
Local Abbreviation decrypt := (Crypto.decrypt (rng := rng) aes_gcm_decrypt).
Local Abbreviation encryptWithPassword :=
  (Crypto.encryptWithPassword getRandomValues aes_gcm_encrypt pbkdf2).
Local Abbreviation decryptWithPassword :=
  (Crypto.decryptWithPassword (rng := rng) aes_gcm_decrypt pbkdf2).
Local Abbreviation keyed_envelope :=
  (Notions.keyed_envelope getRandomValues aes_gcm_encrypt).
Local Abbreviation password_envelope :=
  (Notions.password_envelope getRandomValues aes_gcm_encrypt pbkdf2).

Lemma encrypt_eq (text hexKey : js_string) (r : rng) :
  aes_key_length_ok (hexToArrayBuffer hexKey) = true ->
  encrypt text hexKey r
  = (Ok (keyed_envelope text hexKey r), snd (getRandomValues 12 r)).
Proof.
  intros Hkey.
  unfold Crypto.encrypt, importKey, subtle_importKey_AES_GCM, bind,
    crypto_getRandomValues, subtle_encrypt_AES_GCM, ret, keyed_envelope.
  rewrite Hkey. now destruct (getRandomValues 12 r).
Qed.

Lemma encrypt_bad_key (text hexKey : js_string) (r : rng) :
  aes_key_length_ok (hexToArrayBuffer hexKey) = false ->
  encrypt text hexKey r = (Throw DataError, r).
Proof.
  intros Hkey.
  unfold Crypto.encrypt, importKey, subtle_importKey_AES_GCM, bind, throw.
  now rewrite Hkey.
Qed.

Lemma encryptWithPassword_eq (text password : js_string) (r : rng) :
  encryptWithPassword text password r
  = (Ok (password_envelope text password r),
     snd (getRandomValues 12 (snd (getRandomValues 16 r)))).
Proof.
  unfold Crypto.encryptWithPassword, deriveKeyFromPassword, bind,
    crypto_getRandomValues, subtle_encrypt_AES_GCM, ret, password_envelope.
  destruct (getRandomValues 16 r) as [salt r1]. cbn [fst snd].
  now destruct (getRandomValues 12 r1).
Qed.

Lemma decrypt_eq (ciphertext hexKey : js_string) (r : rng) :
  aes_key_length_ok (hexToArrayBuffer hexKey) = true ->
  decrypt ciphertext hexKey r
  = (match aes_gcm_decrypt (hexToArrayBuffer hexKey)
             (hexToArrayBuffer (substring ciphertext 0 (Some 24)))
             (hexToArrayBuffer (substring ciphertext 24 None)) with
     | Some plain => Ok (uint8ArrayToStr plain)
     | None => Throw (Error decrypt_failed)
     end, r).
Proof.
  intros Hkey.
  unfold Crypto.decrypt, importKey, subtle_importKey_AES_GCM, bind, try_catch,
    subtle_decrypt_AES_GCM, ret, throw.
  rewrite Hkey. now destruct (aes_gcm_decrypt _ _ _).
Qed.

Lemma decryptWithPassword_eq (ciphertext password : js_string) (r : rng) :
  decryptWithPassword ciphertext password r
  = (match aes_gcm_decrypt
             (pbkdf2 SHA_256 100000 (strToUint8Array password)
                (hexToArrayBuffer (substring ciphertext 0 (Some 32))) 256)
             (hexToArrayBuffer (substring ciphertext 32 (Some 56)))
             (hexToArrayBuffer (substring ciphertext 56 None)) with
     | Some plain => Ok (uint8ArrayToStr plain)
     | None => Throw (Error decrypt_password_failed)
     end, r).
Proof.
  unfold Crypto.decryptWithPassword, deriveKeyFromPassword, bind, try_catch,
    subtle_decrypt_AES_GCM, ret, throw.
  now destruct (aes_gcm_decrypt _ _ _).
Qed.

(** The fields of an envelope, read back the way [decrypt] reads
    them. *)
Lemma keyed_envelope_fields (iv encrypted : bytes) :
  length iv = 12 ->
  hexToArrayBuffer (substring (arrayBufferToHex iv ++ arrayBufferToHex encrypted) 0 (Some 24)) = iv
  /\ hexToArrayBuffer (substring (arrayBufferToHex iv ++ arrayBufferToHex encrypted) 24 None) = encrypted.
Proof.
  intros Hiv.
  assert (Hlen : length (arrayBufferToHex iv) = 24)
    by (rewrite arrayBufferToHex_length, Hiv; reflexivity).
  now rewrite (substring_prefix _ _ 24 Hlen), (substring_suffix _ _ 24 Hlen),
    !hex_roundtrip.
Qed.

Lemma password_envelope_fields (salt iv encrypted : bytes) :
  length salt = 16 -> length iv = 12 ->
  let env := arrayBufferToHex salt ++ arrayBufferToHex iv ++ arrayBufferToHex encrypted in
  hexToArrayBuffer (substring env 0 (Some 32)) = salt
  /\ hexToArrayBuffer (substring env 32 (Some 56)) = iv
  /\ hexToArrayBuffer (substring env 56 None) = encrypted.
Proof.
  intros Hsalt Hiv env.
  assert (Hl1 : length (arrayBufferToHex salt) = 32)
    by (rewrite arrayBufferToHex_length, Hsalt; reflexivity).
  assert (Hl2 : length (arrayBufferToHex iv) = 24)
    by (rewrite arrayBufferToHex_length, Hiv; reflexivity).
  repeat split; unfold env.
  - now rewrite (substring_prefix _ _ 32 Hl1), hex_roundtrip.
  - rewrite (substring_middle _ _ _ 32 56 Hl1) by (rewrite Hl1, Hl2; reflexivity).
    apply hex_roundtrip.
  - rewrite app_assoc, (substring_suffix _ _ 56)
      by (rewrite length_app, Hl1, Hl2; reflexivity).
    apply hex_roundtrip.
Qed.

(** Decrypting an envelope under the key that made it gives the text
    as [TextDecoder] reads the bytes [TextEncoder] wrote. *)
Lemma decrypt_keyed_envelope (text hexKey : js_string) (r r2 : rng) :
  aes_key_length_ok (hexToArrayBuffer hexKey) = true ->
  decrypt (keyed_envelope text hexKey r) hexKey r2
  = (Ok (uint8ArrayToStr (strToUint8Array text)), r2).
Proof.
  intros Hkey. rewrite decrypt_eq by exact Hkey. unfold keyed_envelope.
  destruct (keyed_envelope_fields (fst (getRandomValues 12 r))
              (aes_gcm_encrypt (hexToArrayBuffer hexKey)
                 (fst (getRandomValues 12 r)) (strToUint8Array text)))
    as [-> ->]; [apply getRandomValues_length|].
  rewrite aes_gcm_correct; [reflexivity | exact Hkey | apply getRandomValues_length].
Qed.

Lemma decrypt_password_envelope (text password : js_string) (r r2 : rng) :
  decryptWithPassword (password_envelope text password r) password r2
  = (Ok (uint8ArrayToStr (strToUint8Array text)), r2).
Proof.
  rewrite decryptWithPassword_eq. unfold password_envelope.
  set (salt := fst (getRandomValues 16 r)).
  set (iv := fst (getRandomValues 12 (snd (getRandomValues 16 r)))).
  destruct (password_envelope_fields salt iv
              (aes_gcm_encrypt
                 (pbkdf2 SHA_256 100000 (strToUint8Array password) salt 256)
                 iv (strToUint8Array text)))
    as (-> & -> & ->); try apply getRandomValues_length.
  rewrite aes_gcm_correct; [reflexivity | | apply getRandomValues_length].
  unfold aes_key_length_ok. now rewrite pbkdf2_length.
Qed.

(** A key [generateKey] makes is 64 hex characters. *)
Lemma generateKey_hex_key (r : rng) :
  exists hexKey,
    fst (generateKey getRandomValues r) = Ok hexKey /\ is_hex_key hexKey = true.
Proof.
  unfold generateKey, bind, crypto_getRandomValues, ret.
  pose proof (getRandomValues_length 32 r) as Hlen.
  destruct (getRandomValues 32 r) as [key r']. cbn [fst] in *.
  eexists. split; [reflexivity|]. now apply arrayBufferToHex_hex_key.
Qed.

(** C4. The envelope [encrypt] returns is, digit by digit, the hex
    encoding of the nonce followed by the hex encoding of the cipher's
    output (the encrypted text and its 16-byte tag): for each byte its
    two digits, the high one first, and nothing else. So it is
    [24 + 2 * len] characters long. The one [encryptWithPassword]
    returns is salt, nonce, output, so [32 + 24 + 2 * len]. *)
Theorem envelope_layout (text hexKey password : js_string) (r : rng) :
  aes_key_length_ok (hexToArrayBuffer hexKey) = true ->
  let iv := fst (getRandomValues 12 r) in
  let encrypted :=
    aes_gcm_encrypt (hexToArrayBuffer hexKey) iv (strToUint8Array text) in
  let salt := fst (getRandomValues 16 r) in
  let iv' := fst (getRandomValues 12 (snd (getRandomValues 16 r))) in
  let encrypted' :=
    aes_gcm_encrypt (pbkdf2 SHA_256 100000 (strToUint8Array password) salt 256)
      iv' (strToUint8Array text) in
  (fst (encrypt text hexKey r)
   = Ok (flat_map hex_pair iv ++ flat_map hex_pair encrypted)
   /\ length (flat_map hex_pair iv ++ flat_map hex_pair encrypted)
      = 24 + 2 * length encrypted
   /\ length encrypted = length (strToUint8Array text) + 16)
  /\ (fst (encryptWithPassword text password r)
      = Ok (flat_map hex_pair salt ++ flat_map hex_pair iv'
            ++ flat_map hex_pair encrypted')
      /\ length (flat_map hex_pair salt ++ flat_map hex_pair iv'
                 ++ flat_map hex_pair encrypted')
         = 32 + 24 + 2 * length encrypted'
      /\ length encrypted' = length (strToUint8Array text) + 16).
Proof.
  intros Hkey iv encrypted salt iv' encrypted'.
  rewrite encrypt_eq by exact Hkey. rewrite encryptWithPassword_eq.
  unfold Notions.keyed_envelope, Notions.password_envelope.
  fold iv encrypted salt iv' encrypted'.
  rewrite <- !arrayBufferToHex_hex_pairs.
  repeat split; try apply aes_gcm_tag.
  - rewrite length_app, !arrayBufferToHex_length. unfold iv.
    rewrite getRandomValues_length. lia.
  - rewrite !length_app, !arrayBufferToHex_length. unfold salt, iv'.
    rewrite !getRandomValues_length. lia.
Qed.


(** C1, as the code has it. For a well-formed text (no unpaired
    surrogate) that does not begin with U+FEFF, and a key of 64 hex
    characters, [encrypt] returns an envelope and [decrypt] of that
    envelope under the same key returns the text. *)
Theorem decrypt_encrypt (text hexKey : js_string) (r r2 : rng) :
  is_hex_key hexKey = true ->
  well_formed text = true -> starts_with_bom text = false ->
  exists env,
    fst (encrypt text hexKey r) = Ok env
    /\ decrypt env hexKey r2 = (Ok text, r2).
Proof.
  intros Hkey Hwf Hbom. apply hex_key_imports in Hkey.
  exists (keyed_envelope text hexKey r). split.
  - now rewrite encrypt_eq.
  - rewrite decrypt_keyed_envelope by exact Hkey.
    unfold uint8ArrayToStr, strToUint8Array.
    now rewrite TextDecoder_TextEncoder.
Qed.

(** C2, as the code has it. For a well-formed text that does not
    begin with U+FEFF and any password, [decryptWithPassword] of the
    envelope [encryptWithPassword] returns gives the text back. The
    key is derived by PBKDF2 with SHA-256 and 100000 iterations from
    the password and the salt alone: it does not depend on the state
    of the random source. *)
Theorem decryptWithPassword_encryptWithPassword
    (text password : js_string) (r r2 : rng) :
  well_formed text = true -> starts_with_bom text = false ->
  (exists env,
      fst (encryptWithPassword text password r) = Ok env
      /\ decryptWithPassword env password r2 = (Ok text, r2))
  /\ (forall (salt : bytes) (r3 : rng),
         deriveKeyFromPassword pbkdf2 password salt r3
         = (Ok (pbkdf2 SHA_256 100000 (strToUint8Array password) salt 256), r3)).
Proof.
  intros Hwf Hbom. split; [|reflexivity].
  exists (password_envelope text password r). split.
  - now rewrite encryptWithPassword_eq.
  - rewrite decrypt_password_envelope.
    unfold uint8ArrayToStr, strToUint8Array.
    now rewrite TextDecoder_TextEncoder.
Qed.

(** C3, as the code has it. An envelope shorter than 24 characters
    leaves nothing after the nonce field, the cipher rejects the empty
    input, and [decrypt] fails with the one error it ever raises from
    the cipher: [Error("Failed to decrypt: Invalid key or corrupted
    data")]. The decode step itself rejects nothing. *)
Theorem decrypt_short_envelope (ciphertext hexKey : js_string) (r : rng) :
  aes_key_length_ok (hexToArrayBuffer hexKey) = true ->
  length ciphertext < 24 ->
  decrypt ciphertext hexKey r
  = (Throw (Error "Failed to decrypt: Invalid key or corrupted data"), r).
Proof.
  intros Hkey Hlen. rewrite decrypt_eq by exact Hkey.
  rewrite (substring_short_suffix ciphertext 24) by lia.
  rewrite aes_gcm_short by (cbn; lia). reflexivity.
Qed.

(** C5, as the code has it. Whenever the cipher rejects an envelope
    under the key given, for whatever reason, [decrypt] fails with
    [Error("Failed to decrypt: Invalid key or corrupted data")] and
    returns no text; in particular when it rejects an envelope made
    under another key. *)
Theorem decrypt_rejected (hexKey2 : js_string) :
  aes_key_length_ok (hexToArrayBuffer hexKey2) = true ->
  (forall ciphertext r,
      aes_gcm_decrypt (hexToArrayBuffer hexKey2)
        (hexToArrayBuffer (substring ciphertext 0 (Some 24)))
        (hexToArrayBuffer (substring ciphertext 24 None)) = None ->
      decrypt ciphertext hexKey2 r
      = (Throw (Error "Failed to decrypt: Invalid key or corrupted data"), r))
  /\ (forall text hexKey1 r r2,
         aes_key_length_ok (hexToArrayBuffer hexKey1) = true ->
         aes_gcm_decrypt (hexToArrayBuffer hexKey2) (fst (getRandomValues 12 r))
           (aes_gcm_encrypt (hexToArrayBuffer hexKey1) (fst (getRandomValues 12 r))
              (strToUint8Array text)) = None ->
         exists env,
           fst (encrypt text hexKey1 r) = Ok env
           /\ decrypt env hexKey2 r2
              = (Throw (Error "Failed to decrypt: Invalid key or corrupted data"), r2)).
Proof.
  intros Hkey2. split.
  - intros ciphertext r Hrej. rewrite decrypt_eq by exact Hkey2.
    now rewrite Hrej.
  - intros text hexKey1 r r2 Hkey1 Hrej.
    exists (keyed_envelope text hexKey1 r). split.
    + now rewrite encrypt_eq.
    + rewrite decrypt_eq by exact Hkey2. unfold keyed_envelope.
      destruct (keyed_envelope_fields (fst (getRandomValues 12 r))
                  (aes_gcm_encrypt (hexToArrayBuffer hexKey1)
                     (fst (getRandomValues 12 r)) (strToUint8Array text)))
        as [-> ->]; [apply getRandomValues_length|].
      now rewrite Hrej.
Qed.

End Provider.

End EnvelopeFacts.

(** ** The deterministic provider meets the contracts *)

Module TestProviderFacts.
Import JS Crypto Notions HexFacts EnvelopeFacts.

Lemma test_getRandomValues_length (n : nat) (r : TestProvider.rng) :
  length (fst (TestProvider.getRandomValues n r)) = n.
Proof. apply repeat_length. Qed.

Lemma bytes_eqb_refl (a : bytes) : TestProvider.bytes_eqb a a = true.
Proof.
  induction a as [|x a IH]; [reflexivity|].
  cbn [TestProvider.bytes_eqb]. now rewrite IH, (Byte.byte_dec_lb (eq_refl x)).
Qed.

Lemma tag_length (key : bytes) : length (TestProvider.tag key) = 16.
Proof.
  unfold TestProvider.tag. rewrite length_firstn, length_app, repeat_length. lia.
Qed.

Lemma test_aes_gcm_tag (key iv data : bytes) :
  length (TestProvider.aes_gcm_encrypt key iv data) = length data + 16.
Proof.
  unfold TestProvider.aes_gcm_encrypt. now rewrite length_app, tag_length.
Qed.

Lemma test_aes_gcm_correct (key iv data : bytes) :
  aes_key_length_ok key = true -> length iv = 12 ->
  TestProvider.aes_gcm_decrypt key iv (TestProvider.aes_gcm_encrypt key iv data)
  = Some data.
Proof.
  intros _ _. unfold TestProvider.aes_gcm_decrypt. rewrite test_aes_gcm_tag.
  replace (length data + 16 <? 16)%nat with false
    by (symmetry; apply Nat.ltb_ge; lia).
  replace (length data + 16 - 16)%nat with (length data) by lia.
  unfold TestProvider.aes_gcm_encrypt.
  rewrite skipn_app, skipn_all, Nat.sub_diag, skipn_O. cbn [app].
  rewrite bytes_eqb_refl, firstn_app, Nat.sub_diag, firstn_all, firstn_O.
  now rewrite app_nil_r.
Qed.

Lemma test_aes_gcm_short (key iv data : bytes) :
  length data < 16 -> TestProvider.aes_gcm_decrypt key iv data = None.
Proof.
  intros H. unfold TestProvider.aes_gcm_decrypt.
  now rewrite (proj2 (Nat.ltb_lt _ _) H).
Qed.

Lemma test_pbkdf2_length (password salt : bytes) :
  length (TestProvider.pbkdf2 SHA_256 100000 password salt 256) = 32.
Proof.
  unfold TestProvider.pbkdf2. change (N.to_nat (256 / 8)) with 32.
  rewrite length_firstn, !length_app, repeat_length. lia.
Qed.

End TestProviderFacts.

(** ** Where the envelope claims stop holding *)

Module EnvelopeLimits.
Import JS Crypto Notions HexFacts Utf8Facts EnvelopeFacts.

(** *** Text that does not survive the round trip *)

(** C1 fails as stated: whatever the provider, a text that begins with
    U+FEFF comes back without it, and an unpaired surrogate comes back
    as U+FFFD. *)
Lemma decrypt_encrypt_changes_text :
  let hexKey := TestProvider.key1 in
    is_hex_key hexKey = true
    /\ forall (rng : Type) (getRandomValues : nat -> rng -> bytes * rng)
         (aes_gcm_encrypt : bytes -> bytes -> bytes -> bytes)
         (aes_gcm_decrypt : bytes -> bytes -> bytes -> option bytes),
        (forall n r, length (fst (getRandomValues n r)) = n) ->
        (forall key iv data,
            aes_key_length_ok key = true -> length iv = 12 ->
            aes_gcm_decrypt key iv (aes_gcm_encrypt key iv data) = Some data) ->
        forall r r2 : rng,
          (exists env,
              fst (encrypt getRandomValues aes_gcm_encrypt (0xFEFF%N :: lit "hi") hexKey r)
              = Ok env
              /\ decrypt aes_gcm_decrypt env hexKey r2 = (Ok (lit "hi"), r2)
              /\ lit "hi" <> 0xFEFF%N :: lit "hi")
          /\ (exists env,
                 fst (encrypt getRandomValues aes_gcm_encrypt [0xD800%N] hexKey r)
                 = Ok env
                 /\ decrypt aes_gcm_decrypt env hexKey r2 = (Ok [0xFFFD%N], r2)
                 /\ [0xFFFD%N] <> [0xD800%N]).
Proof.
  cbv zeta. split; [reflexivity|].
  intros rng getRandomValues aes_gcm_encrypt aes_gcm_decrypt Hlen Hcorrect r r2.
  assert (Hkey : aes_key_length_ok (hexToArrayBuffer TestProvider.key1) = true)
    by reflexivity.
  split.
  - exists (keyed_envelope getRandomValues aes_gcm_encrypt
              (0xFEFF%N :: lit "hi") TestProvider.key1 r).
    rewrite encrypt_eq by exact Hkey.
    rewrite (decrypt_keyed_envelope _ _ _ Hlen Hcorrect) by exact Hkey.
    repeat split. discriminate.
  - exists (keyed_envelope getRandomValues aes_gcm_encrypt
              [0xD800%N] TestProvider.key1 r).
    rewrite encrypt_eq by exact Hkey.
    rewrite (decrypt_keyed_envelope _ _ _ Hlen Hcorrect) by exact Hkey.
    repeat split. discriminate.
Qed.

(** C2 fails as stated in the same way. *)
Lemma password_roundtrip_changes_text :
  let password := lit "correct horse" in
  well_formed (0xFEFF%N :: lit "hi") = true
  /\ forall (rng : Type) (getRandomValues : nat -> rng -> bytes * rng)
      (aes_gcm_encrypt : bytes -> bytes -> bytes -> bytes)
      (aes_gcm_decrypt : bytes -> bytes -> bytes -> option bytes)
      (pbkdf2 : hash_name -> N -> bytes -> bytes -> N -> bytes),
      (forall n r, length (fst (getRandomValues n r)) = n) ->
      (forall key iv data,
          aes_key_length_ok key = true -> length iv = 12 ->
          aes_gcm_decrypt key iv (aes_gcm_encrypt key iv data) = Some data) ->
      (forall pw salt, length (pbkdf2 SHA_256 100000%N pw salt 256%N) = 32) ->
      forall r r2 : rng,
        (exists env,
            fst (encryptWithPassword getRandomValues aes_gcm_encrypt pbkdf2
                   (0xFEFF%N :: lit "hi") password r) = Ok env
            /\ decryptWithPassword aes_gcm_decrypt pbkdf2 env password r2
               = (Ok (lit "hi"), r2)
            /\ lit "hi" <> 0xFEFF%N :: lit "hi")
        /\ (exists env,
               fst (encryptWithPassword getRandomValues aes_gcm_encrypt pbkdf2
                      [0xD800%N] password r) = Ok env
               /\ decryptWithPassword aes_gcm_decrypt pbkdf2 env password r2
                  = (Ok [0xFFFD%N], r2)
               /\ [0xFFFD%N] <> [0xD800%N]).
Proof.
  cbv zeta. split; [reflexivity|].
  intros rng getRandomValues aes_gcm_encrypt aes_gcm_decrypt pbkdf2
    Hlen Hcorrect Hpb r r2.
  split.
  - exists (password_envelope getRandomValues aes_gcm_encrypt pbkdf2
              (0xFEFF%N :: lit "hi") (lit "correct horse") r).
    rewrite encryptWithPassword_eq.
    rewrite (decrypt_password_envelope _ _ _ _ Hlen Hcorrect Hpb).
    repeat split. discriminate.
  - exists (password_envelope getRandomValues aes_gcm_encrypt pbkdf2
              [0xD800%N] (lit "correct horse") r).
    rewrite encryptWithPassword_eq.
    rewrite (decrypt_password_envelope _ _ _ _ Hlen Hcorrect Hpb).
    repeat split. discriminate.
Qed.

(** *** Characters that are not hex digits *)

Lemma firstn_exact {A} (a b : list A) (n : nat) :
  length a = n -> firstn n (a ++ b) = a.
Proof.
  intros <-. now rewrite firstn_app, Nat.sub_diag, firstn_all, firstn_O, app_nil_r.
Qed.

Lemma skipn_exact {A} (a b : list A) (n : nat) :
  length a = n -> skipn n (a ++ b) = b.
Proof.
  intros <-. now rewrite skipn_app, skipn_all, Nat.sub_diag, skipn_O.
Qed.

Lemma hexToArrayBuffer_line_terminator (c : N) (s : js_string) :
  is_line_terminator c = true -> hexToArrayBuffer (c :: s) = hexToArrayBuffer s.
Proof.
  intros Hc. rewrite !hexToArrayBuffer_matches. cbn [dot_1_2_matches].
  now rewrite Hc.
Qed.

(** C3 fails as stated: whatever the provider, an envelope with a line
    feed put after its nonce field contains a character that is not a
    hex digit and still decrypts to the text. *)
Lemma decrypt_accepts_line_feed :
  let text := lit "hello world" in
  let hexKey := TestProvider.key1 in
    is_hex_key hexKey = true
    /\ forall (rng : Type) (getRandomValues : nat -> rng -> bytes * rng)
         (aes_gcm_encrypt : bytes -> bytes -> bytes -> bytes)
         (aes_gcm_decrypt : bytes -> bytes -> bytes -> option bytes),
        (forall n r, length (fst (getRandomValues n r)) = n) ->
        (forall key iv data,
            aes_key_length_ok key = true -> length iv = 12 ->
            aes_gcm_decrypt key iv (aes_gcm_encrypt key iv data) = Some data) ->
        forall r r2 : rng,
        exists env,
          fst (encrypt getRandomValues aes_gcm_encrypt text hexKey r) = Ok env
          /\ forallb is_hex_digit (firstn 24 env ++ 0x0A%N :: skipn 24 env) = false
          /\ decrypt aes_gcm_decrypt (firstn 24 env ++ 0x0A%N :: skipn 24 env) hexKey r2
             = (Ok text, r2).
Proof.
  cbv zeta. split; [reflexivity|].
  intros rng getRandomValues aes_gcm_encrypt aes_gcm_decrypt Hlen Hcorrect r r2.
  assert (Hkey : aes_key_length_ok (hexToArrayBuffer TestProvider.key1) = true)
    by reflexivity.
  exists (keyed_envelope getRandomValues aes_gcm_encrypt
            (lit "hello world") TestProvider.key1 r).
  rewrite encrypt_eq by exact Hkey. split; [reflexivity|].
  unfold keyed_envelope.
  set (iv := fst (getRandomValues 12 r)).
  set (encrypted := aes_gcm_encrypt _ iv _).
  assert (Hiv : length (arrayBufferToHex iv) = 24)
    by (unfold iv; now rewrite arrayBufferToHex_length, Hlen).
  rewrite (firstn_exact _ _ 24 Hiv), (skipn_exact _ _ 24 Hiv).
  split.
  - rewrite forallb_app. cbn [forallb]. apply andb_false_r.
  - rewrite decrypt_eq by exact Hkey.
    rewrite (substring_prefix _ _ 24 Hiv), (substring_suffix _ _ 24 Hiv).
    rewrite hexToArrayBuffer_line_terminator by reflexivity.
    rewrite !hex_roundtrip. unfold encrypted.
    rewrite Hcorrect; [reflexivity | exact Hkey | apply Hlen].
Qed.

(** *** Two keys, one envelope *)

#[local] Instance byte_eq_decision : EqDecision byte := Byte.byte_eq_dec.

#[local] Instance of_bits_inj : Inj (=) (=) Byte.of_bits.
Proof.
  intros x y H. apply (f_equal Byte.to_bits) in H.
  now rewrite !Byte.to_bits_of_bits in H.
Qed.

#[local] Instance of_bits_surj : Surj (=) Byte.of_bits.
Proof. intros b. exists (Byte.to_bits b). apply Byte.of_bits_to_bits. Qed.

#[local] Instance byte_finite : Finite byte := bijective_finite Byte.of_bits.

Lemma byte_card : card byte = 256.
Proof. reflexivity. Qed.

(** There are more 32-byte keys than 16-byte outputs, so a function
    from the former to the latter sends two keys to one output. *)
Lemma key_collision (f : bytes -> bytes) :
  (forall key, length key = 32 -> length (f key) = 16) ->
  exists key1 key2,
    length key1 = 32 /\ length key2 = 32 /\ key1 <> key2 /\ f key1 = f key2.
Proof.
  intros Hf.
  pose (g := fun k : { l : bytes | length l = 32 } =>
               (f (proj1_sig k) ↾ Hf _ (proj2_sig k)
                : { l : bytes | length l = 16 })).
  destruct (finite_pigeonhole g) as (k1 & k2 & Hne & Heq).
  { rewrite !list_card, byte_card. apply Nat.pow_lt_mono_r; lia. }
  exists (proj1_sig k1), (proj1_sig k2). repeat split.
  - exact (proj2_sig k1).
  - exact (proj2_sig k2).
  - intros H. apply Hne. now apply (sig_eq_pi _).
  - apply (f_equal proj1_sig) in Heq. exact Heq.
Qed.

(** C5 fails as stated: whatever the provider, as long as its output is
    the data and a 16-byte tag, there are two distinct keys such that
    the envelope of the empty text made under the first decrypts under
    the second. *)
Lemma decrypt_accepts_another_key :
  let text := lit "" in
  strToUint8Array text = []
  /\ forall (rng : Type) (getRandomValues : nat -> rng -> bytes * rng)
      (aes_gcm_encrypt : bytes -> bytes -> bytes -> bytes)
      (aes_gcm_decrypt : bytes -> bytes -> bytes -> option bytes),
      (forall n r, length (fst (getRandomValues n r)) = n) ->
      (forall key iv data,
          aes_key_length_ok key = true -> length iv = 12 ->
          aes_gcm_decrypt key iv (aes_gcm_encrypt key iv data) = Some data) ->
      (forall key iv data,
          length (aes_gcm_encrypt key iv data) = length data + 16) ->
      forall r r2 : rng,
      exists hexKey1 hexKey2 env,
        is_hex_key hexKey1 = true /\ is_hex_key hexKey2 = true
        /\ hexToArrayBuffer hexKey1 <> hexToArrayBuffer hexKey2
        /\ fst (encrypt getRandomValues aes_gcm_encrypt text hexKey1 r) = Ok env
        /\ decrypt aes_gcm_decrypt env hexKey2 r2 = (Ok text, r2).
Proof.
  cbv zeta. split; [reflexivity|].
  intros rng getRandomValues aes_gcm_encrypt aes_gcm_decrypt Hlen Hcorrect Htag r r2.
  set (iv := fst (getRandomValues 12 r)).
  destruct (key_collision (fun key => aes_gcm_encrypt key iv []))
    as (k1 & k2 & Hk1 & Hk2 & Hne & Hsame).
  { intros key _. now rewrite Htag. }
  assert (Hok : forall k, length k = 32 ->
                  aes_key_length_ok (hexToArrayBuffer (arrayBufferToHex k)) = true).
  { intros k Hk. rewrite hex_roundtrip. unfold aes_key_length_ok. now rewrite Hk. }
  exists (arrayBufferToHex k1), (arrayBufferToHex k2),
    (keyed_envelope getRandomValues aes_gcm_encrypt (lit "") (arrayBufferToHex k1) r).
  repeat split.
  - now apply arrayBufferToHex_hex_key.
  - now apply arrayBufferToHex_hex_key.
  - now rewrite !hex_roundtrip.
  - rewrite encrypt_eq by now apply Hok. reflexivity.
  - rewrite decrypt_eq by now apply Hok. unfold keyed_envelope. fold iv.
    destruct (keyed_envelope_fields iv
                (aes_gcm_encrypt (hexToArrayBuffer (arrayBufferToHex k1)) iv
                   (strToUint8Array (lit ""))))
      as [-> ->]; [apply Hlen|].
    rewrite !hex_roundtrip. change (strToUint8Array (lit "")) with (@nil byte).
    rewrite Hsame, Hcorrect; [reflexivity | | apply Hlen].
    unfold aes_key_length_ok. now rewrite Hk2.
Qed.

End EnvelopeLimits.

(** ** The envelope theorems on concrete inputs *)

Module EnvelopeExamples.
Import JS Crypto Notions HexFacts EnvelopeFacts.

(** "hello world" under a key and under a password: the nonce (and the
    salt) of the test source, the 11 bytes of the text and a 16-byte
    tag, digit by digit. *)
Lemma envelope_layout_witness :
  fst (encrypt TestProvider.getRandomValues TestProvider.aes_gcm_encrypt
         (lit "hello world") TestProvider.key1 5%N)
  = Ok (lit "050505050505050505050505" ++ lit "68656c6c6f20776f726c64"
        ++ lit "000102030405060708090a0b0c0d0e0f")
  /\ length (lit "050505050505050505050505" ++ lit "68656c6c6f20776f726c64"
             ++ lit "000102030405060708090a0b0c0d0e0f")
     = 24 + 2 * (11 + 16)
  /\ fst (encryptWithPassword TestProvider.getRandomValues
            TestProvider.aes_gcm_encrypt TestProvider.pbkdf2
            (lit "hello world") (lit "correct horse") 5%N)
     = Ok (lit "05050505050505050505050505050505" ++ lit "060606060606060606060606"
           ++ lit "68656c6c6f20776f726c64"
           ++ lit "636f727265637420686f727365050505")
  /\ length (lit "05050505050505050505050505050505"
             ++ lit "060606060606060606060606" ++ lit "68656c6c6f20776f726c64"
             ++ lit "636f727265637420686f727365050505")
     = 32 + 24 + 2 * (11 + 16).
Proof.
  destruct (envelope_layout TestProvider.getRandomValues
              TestProvider.aes_gcm_encrypt TestProvider.pbkdf2
              TestProviderFacts.test_getRandomValues_length
              TestProviderFacts.test_aes_gcm_tag
              (lit "hello world") TestProvider.key1 (lit "correct horse") 5%N
              eq_refl) as [(H1 & H2 & _) (H3 & H4 & _)].
  split; [exact H1|]. split; [exact H2|].
  split; [exact H3 | exact H4].
Defined.


(** "hello world" there and back under [key1]. *)
Lemma decrypt_encrypt_witness :
  exists env,
    fst (encrypt TestProvider.getRandomValues TestProvider.aes_gcm_encrypt
           (lit "hello world") TestProvider.key1 5%N) = Ok env
    /\ decrypt TestProvider.aes_gcm_decrypt env TestProvider.key1 6%N
       = (Ok (lit "hello world"), 6%N).
Proof.
  apply (decrypt_encrypt TestProvider.getRandomValues
           TestProvider.aes_gcm_encrypt TestProvider.aes_gcm_decrypt
           TestProviderFacts.test_getRandomValues_length
           TestProviderFacts.test_aes_gcm_correct); reflexivity.
Defined.

(** "hello world" there and back under a password. *)
Lemma decryptWithPassword_encryptWithPassword_witness :
  exists env,
    fst (encryptWithPassword TestProvider.getRandomValues
           TestProvider.aes_gcm_encrypt TestProvider.pbkdf2
           (lit "hello world") (lit "correct horse") 5%N) = Ok env
    /\ decryptWithPassword TestProvider.aes_gcm_decrypt TestProvider.pbkdf2
         env (lit "correct horse") 7%N
       = (Ok (lit "hello world"), 7%N).
Proof.
  apply (decryptWithPassword_encryptWithPassword TestProvider.getRandomValues
           TestProvider.aes_gcm_encrypt TestProvider.aes_gcm_decrypt
           TestProvider.pbkdf2
           TestProviderFacts.test_getRandomValues_length
           TestProviderFacts.test_aes_gcm_correct
           TestProviderFacts.test_pbkdf2_length); reflexivity.
Defined.

(** The empty envelope and ["abc"]. *)
Lemma decrypt_short_envelope_witness :
  decrypt TestProvider.aes_gcm_decrypt (lit "") TestProvider.key1 0%N
  = (Throw (Error "Failed to decrypt: Invalid key or corrupted data"), 0%N)
  /\ decrypt TestProvider.aes_gcm_decrypt (lit "abc") TestProvider.key1 0%N
     = (Throw (Error "Failed to decrypt: Invalid key or corrupted data"), 0%N).
Proof.
  split;
    apply (decrypt_short_envelope TestProvider.aes_gcm_decrypt
             TestProviderFacts.test_aes_gcm_short);
    first [reflexivity | cbn; lia].
Defined.

(** An envelope made under [key1], opened with [key2]. *)
Lemma decrypt_rejected_witness :
  exists env,
    fst (encrypt TestProvider.getRandomValues TestProvider.aes_gcm_encrypt
           (lit "hello world") TestProvider.key1 5%N) = Ok env
    /\ decrypt TestProvider.aes_gcm_decrypt env TestProvider.key2 6%N
       = (Throw (Error "Failed to decrypt: Invalid key or corrupted data"), 6%N).
Proof.
  apply (proj2 (decrypt_rejected TestProvider.getRandomValues
                  TestProvider.aes_gcm_encrypt TestProvider.aes_gcm_decrypt
                  TestProviderFacts.test_getRandomValues_length
                  TestProvider.key2 eq_refl)); reflexivity.
Defined.

End EnvelopeExamples.

(** ** The paste store *)

Module StoreFacts.
Import JS Api Notions.

(** *** Dates *)

Ltac zdigits x c :=
  let q := fresh "q" in
  let r := fresh "r" in
  pose proof (Z.div_mod x c ltac:(lia));
  pose proof (Z.mod_pos_bound x c ltac:(lia));
  set (q := (x / c)%Z) in *; set (r := (x mod c)%Z) in *; clearbody r.

(** A time value is its day and its time fields. *)
Lemma time_fields (t : Z) :
  (Day t * msPerDay
   + (HourFromTime t * msPerHour + MinFromTime t * msPerMinute
      + SecFromTime t * msPerSecond + msFromTime t) = t)%Z.
Proof.
  unfold Day, HourFromTime, MinFromTime, SecFromTime, msFromTime,
    msPerDay, msPerHour, msPerMinute, msPerSecond.
  replace (t / 86400000)%Z with (t / 1000 / 60 / 60 / 24)%Z
    by (rewrite !Z.div_div by lia; reflexivity).
  replace (t / 3600000)%Z with (t / 1000 / 60 / 60)%Z
    by (rewrite !Z.div_div by lia; reflexivity).
  replace (t / 60000)%Z with (t / 1000 / 60)%Z
    by (rewrite !Z.div_div by lia; reflexivity).
  zdigits t 1000%Z. zdigits q 60%Z. zdigits q0 60%Z. zdigits q1 24%Z.
  clearbody q2 q1 q0 q. lia.
Qed.

Lemma day_and_time (t : Z) : (Day t * msPerDay + TimeWithinDay t = t)%Z.
Proof.
  unfold Day, TimeWithinDay, msPerDay.
  pose proof (Z.div_mod t 86400000 ltac:(lia)). lia.
Qed.

Lemma MonthFromTime_range (t : Z) : (0 <= MonthFromTime t <= 11)%Z.
Proof.
  unfold MonthFromTime.
  repeat match goal with
         | |- context [(?a <? ?b)%Z] => destruct (a <? b)%Z
         end; lia.
Qed.

(** [MakeDay] on the year and month of [t] counts from the first day of
    that month. *)
Lemma MakeDay_same_month (t dt : Z) :
  MakeDay (Some (YearFromTime t)) (Some (MonthFromTime t)) (Some dt)
  = Some (Day t - DateFromTime t + dt)%Z.
Proof.
  pose proof (MonthFromTime_range t) as Hm.
  unfold MakeDay.
  rewrite (Z.div_small (MonthFromTime t) 12), (Z.mod_small (MonthFromTime t) 12) by lia.
  rewrite Z.add_0_r. f_equal.
  unfold DateFromTime, DayWithinYear, InLeapYear. lia.
Qed.

Lemma TimeClip_valid (t : Z) : valid_time t -> TimeClip (Some t) = Some t.
Proof.
  unfold valid_time, TimeClip. intros H. now rewrite (proj2 (Z.leb_le _ _) H).
Qed.

(** The calendar: [DayFromYear] advances by the length of the year, and
    [YearFromTime] is the year ECMAScript defines, the largest whose
    first day is not after the time value. *)
Lemma DayFromYear_step (y : Z) :
  DayFromYear (y + 1) = (DayFromYear y + DaysInYear y)%Z.
Proof.
  unfold DayFromYear, DaysInYear.
  destruct (Z.eqb_spec (y mod 4) 0); destruct (Z.eqb_spec (y mod 100) 0);
    destruct (Z.eqb_spec (y mod 400) 0); cbn [negb];
    Z.div_mod_to_equations; lia.
Qed.

Lemma year_scan_spec (fuel : nat) (d y : Z) :
  (d < DayFromYear (y + 1))%Z ->
  (DayFromYear (y - Z.of_nat fuel + 1) <= d)%Z ->
  (DayFromYear (year_scan fuel d y) <= d < DayFromYear (year_scan fuel d y + 1))%Z.
Proof.
  revert y. induction fuel as [|fuel IH]; intros y Hup Hlow.
  - cbn in Hlow. rewrite Z.sub_0_r in Hlow. lia.
  - cbn [year_scan]. destruct (Z.leb_spec (DayFromYear y) d) as [Hy|Hy]; [lia|].
    apply IH.
    + now replace (y - 1 + 1)%Z with y by lia.
    + now replace (y - 1 - Z.of_nat fuel + 1)%Z with (y - Z.of_nat (S fuel) + 1)%Z by lia.
Qed.

Lemma YearFromTime_spec (t : Z) :
  valid_time t ->
  (DayFromYear (YearFromTime t) <= Day t < DayFromYear (YearFromTime t + 1))%Z.
Proof.
  unfold valid_time. intros Ht.
  assert (Hd : (-100000000 <= Day t <= 100000000)%Z)
    by (unfold Day, msPerDay; Z.div_mod_to_equations; lia).
  unfold YearFromTime. set (d := Day t) in *. clearbody d.
  apply year_scan_spec.
  - rewrite DayFromYear_step.
    assert (0 < DaysInYear (1970 + (if (0 <=? d)%Z then d / 365 else d / 366) + 1))%Z
      by (unfold DaysInYear; repeat destruct (negb _); lia).
    destruct (Z.leb_spec 0 d).
    + assert (d < DayFromYear (1970 + d / 365 + 1))%Z
        by (unfold DayFromYear; Z.div_mod_to_equations; lia).
      lia.
    + assert (d < DayFromYear (1970 + d / 366 + 1))%Z
        by (unfold DayFromYear; Z.div_mod_to_equations; lia).
      lia.
  - rewrite Nat2Z.inj_add, Z2Nat.id by (Z.div_mod_to_equations; lia).
    destruct (Z.leb_spec 0 d).
    + rewrite Z.abs_eq by lia.
      replace (1970 + d / 365 + 1 - (d / 150000 + Z.of_nat 3) + 1)%Z
        with (1970 + d / 365 + 1 - (d / 150000 + 2))%Z by lia.
      unfold DayFromYear. Z.div_mod_to_equations. lia.
    + rewrite Z.abs_neq by lia.
      replace (1970 + d / 366 + 1 - (- d / 150000 + Z.of_nat 3) + 1)%Z
        with (1970 + d / 366 + 1 - (- d / 150000 + 2))%Z by lia.
      unfold DayFromYear. Z.div_mod_to_equations. lia.
Qed.

Example date_epoch :
  (YearFromTime 0, MonthFromTime 0, DateFromTime 0) = (1970, 0, 1)%Z.
Proof. reflexivity. Qed.

Example date_leap_day :
  (YearFromTime 951782400000, MonthFromTime 951782400000,
   DateFromTime 951782400000) = (2000, 1, 29)%Z.
Proof. reflexivity. Qed.

Example date_2023_11_14 :
  (YearFromTime 1700000000000, MonthFromTime 1700000000000,
   DateFromTime 1700000000000, HourFromTime 1700000000000,
   MinFromTime 1700000000000) = (2023, 10, 14, 22, 13)%Z.
Proof. reflexivity. Qed.

Example date_before_epoch :
  (YearFromTime (-1), MonthFromTime (-1), DateFromTime (-1)) = (1969, 11, 31)%Z.
Proof. reflexivity. Qed.

(** A string ends with one code unit only. *)
Lemma endsWith_other (s : js_string) (c c' : N) :
  endsWith s c = true -> c <> c' -> endsWith s c' = false.
Proof.
  unfold endsWith. destruct (rev s) as [|d ?]; [discriminate|].
  intros Hd Hne. apply N.eqb_eq in Hd. subst d. now apply N.eqb_neq.
Qed.

Section FixedOffset.

(** A time zone whose offset from UTC never changes. *)
Variable LocalTZA : Z -> bool -> Z.
Variable offset : Z.
Hypothesis fixed_offset : forall t isUTC, LocalTZA t isUTC = offset.

Lemma setHours_fixed (now v : Z) :
  setHours LocalTZA (Some now) (number_add (getHours LocalTZA (Some now)) (Some v))
  = TimeClip (Some (now + v * msPerHour)%Z).
Proof.
  unfold setHours, getHours, number_add, MakeTime, MakeDate, UTC, LocalTime.
  rewrite !fixed_offset. f_equal. f_equal.
  pose proof (time_fields (now + offset)). lia.
Qed.

Lemma setMinutes_fixed (now v : Z) :
  setMinutes LocalTZA (Some now) (number_add (getMinutes LocalTZA (Some now)) (Some v))
  = TimeClip (Some (now + v * msPerMinute)%Z).
Proof.
  unfold setMinutes, getMinutes, number_add, MakeTime, MakeDate, UTC, LocalTime.
  rewrite !fixed_offset. f_equal. f_equal.
  pose proof (time_fields (now + offset)). lia.
Qed.

Lemma setDate_fixed (now v : Z) :
  setDate LocalTZA (Some now) (number_add (getDate LocalTZA (Some now)) (Some v))
  = TimeClip (Some (now + v * msPerDay)%Z).
Proof.
  unfold setDate, getDate, number_add, LocalTime.
  rewrite MakeDay_same_month. unfold MakeDate, UTC.
  rewrite !fixed_offset. f_equal. f_equal.
  pose proof (day_and_time (now + offset)). lia.
Qed.

End FixedOffset.

Section Store.

Variable LocalTZA : Z -> bool -> Z.
Variable Date_toISOString_text : Z -> js_string.
Variable Date_parse : js_string -> number.
Variable offset : Z.
Hypothesis fixed_offset : forall t isUTC, LocalTZA t isUTC = offset.

(** With such a clock the values the setters form on the way to a
    valid expiry are below 2^53, where doubles are exact: the time to
    live added to the time within the day of the local time
    ([MakeTime] in [setHours] and [setMinutes]), the day of the clock
    and the day of the expiry in milliseconds (the product in
    [MakeDate]), and the local expiry. *)
Lemma setters_below_2_53 (now d : Z) :
  exact_clock now offset -> valid_time (now + d) ->
  (Z.abs (TimeWithinDay (now + offset) + d) < 2 ^ 53
   /\ Z.abs (Day (now + offset) * msPerDay) < 2 ^ 53
   /\ Z.abs (Day (now + offset) * msPerDay + d) < 2 ^ 53
   /\ Z.abs (now + offset + d) < 2 ^ 53)%Z.
Proof.
  unfold exact_clock, valid_time. intros [Hnow Hoffset] Hexp.
  pose proof (day_and_time (now + offset)) as Hday.
  assert (Htime : (0 <= TimeWithinDay (now + offset) < msPerDay)%Z)
    by (unfold TimeWithinDay, msPerDay; apply Z.mod_pos_bound; lia).
  change (2 ^ 53)%Z with 9007199254740992%Z.
  unfold msPerDay in *. lia.
Qed.

Lemma ttlToExpiresAt_fixed (now : Z) (ttl : js_string) :
  valid_time now -> exact_clock now offset ->
  ttlToExpiresAt LocalTZA Date_toISOString_text now ttl
  = toISOString Date_toISOString_text
      (TimeClip (option_map (fun d => now + d)%Z (ttl_duration ttl))).
Proof.
  intros Hnow _. unfold ttlToExpiresAt, ttl_duration.
  rewrite (TimeClip_valid now Hnow). f_equal.
  destruct (endsWith ttl 0x68); [|destruct (endsWith ttl 0x64);
                                   [|destruct (endsWith ttl 0x6D)]].
  - destruct (parseInt ttl None) as [v|]; [|reflexivity].
    apply (setHours_fixed LocalTZA offset fixed_offset).
  - destruct (parseInt ttl None) as [v|]; [|reflexivity].
    apply (setDate_fixed LocalTZA offset fixed_offset).
  - destruct (parseInt ttl None) as [v|]; [|reflexivity].
    apply (setMinutes_fixed LocalTZA offset fixed_offset).
  - apply (setHours_fixed LocalTZA offset fixed_offset).
Qed.

Lemma createPaste_duration (now d : Z) (random36 ciphertext ttl : js_string)
    (hasPassword : bool) (localStorage : storage) :
  ttl_duration ttl = Some d ->
  valid_time now -> exact_clock now offset -> valid_time (now + d) ->
  createPaste LocalTZA Date_toISOString_text now random36 ciphertext ttl
    hasPassword localStorage
  = paste_created Date_toISOString_text (now + d) random36 ciphertext
      hasPassword localStorage.
Proof.
  intros Hd Hnow Hclock Hexp. unfold createPaste, paste_created.
  rewrite (ttlToExpiresAt_fixed now ttl Hnow Hclock), Hd. cbn [option_map].
  now rewrite (TimeClip_valid _ Hexp).
Qed.


(** C6. A stored paste whose [expiresAt] is before the current time is
    reported as not found, and the call purges it; asking the purged
    store gives the same answer, at that time and later. *)
Theorem fetchPaste_expired (now later t : Z) (id : js_string)
    (localStorage : storage) (paste : PasteData) :
  localStorage !! (API_PREFIX ++ id) = Some paste ->
  new_Date Date_parse (expiresAt paste) = Some t -> (t < now)%Z ->
  fetchPaste Date_parse now id localStorage
  = (None, delete (API_PREFIX ++ id) localStorage)
  /\ fetchPaste Date_parse later id (delete (API_PREFIX ++ id) localStorage)
     = (None, delete (API_PREFIX ++ id) localStorage).
Proof.
  intros Hget Hdate Hlt. split.
  - unfold fetchPaste. rewrite Hget.
    replace (expiresAt match Api.hasPassword paste with
                       | Some _ => paste
                       | None => _
                       end) with (expiresAt paste)
      by now destruct (Api.hasPassword paste).
    rewrite Hdate. cbn [number_lt].
    now rewrite (proj2 (Z.ltb_lt _ _) Hlt).
  - unfold fetchPaste. now rewrite lookup_delete_eq.
Qed.

(** C9, as the code has it. A stored paste written without
    [hasPassword] that has not expired is returned with
    [hasPassword] false. *)
Theorem fetchPaste_defaults_hasPassword (now : Z) (id : js_string)
    (localStorage : storage) (paste : PasteData) :
  localStorage !! (API_PREFIX ++ id) = Some paste ->
  hasPassword paste = None ->
  number_lt (new_Date Date_parse (expiresAt paste)) (Some now) = false ->
  fetchPaste Date_parse now id localStorage
  = (Some {| ciphertext := ciphertext paste; expiresAt := expiresAt paste;
             hasPassword := Some false |},
     localStorage).
Proof.
  intros Hget Hno Hlive. unfold fetchPaste.
  rewrite Hget, Hno. cbn [expiresAt]. now rewrite Hlive.
Qed.

(** A paste that was created is returned until its expiry has passed,
    provided [Date.parse] reads back the text of a date. *)
Lemma fetchPaste_paste_created (expires later : Z) (random36 ciphertext : js_string)
    (hasPassword : bool) (localStorage : storage) :
  (forall t, Date_parse (Date_toISOString_text t) = Some t) ->
  valid_time expires ->
  let stored :=
    snd (paste_created Date_toISOString_text expires random36 ciphertext
           hasPassword localStorage) in
  fetchPaste Date_parse later (generateId random36) stored
  = if (expires <? later)%Z
    then (None, delete (API_PREFIX ++ generateId random36) stored)
    else (Some {| Api.ciphertext := ciphertext;
                  expiresAt := Date_toISOString_text expires;
                  Api.hasPassword := Some hasPassword |}, stored).
Proof.
  intros Hparse Hexp stored. unfold stored, paste_created, fetchPaste. cbn [snd].
  rewrite lookup_insert_eq. cbn [Api.hasPassword expiresAt].
  unfold new_Date. rewrite Hparse, (TimeClip_valid _ Hexp). reflexivity.
Qed.

(** X15. Whatever [fetchPaste] returns has [hasPassword] defined. *)
Lemma fetchPaste_hasPassword_defined (now : Z) (id : js_string)
    (localStorage : storage) (paste : PasteData) :
  fst (fetchPaste Date_parse now id localStorage) = Some paste ->
  hasPassword paste <> None.
Proof.
  unfold fetchPaste.
  destruct (localStorage !! (API_PREFIX ++ id)) as [stored|]; [|discriminate].
  destruct (number_lt _ _); [discriminate|].
  cbn [fst]. intros [= <-].
  destruct (hasPassword stored) eqn:E; cbn [hasPassword]; [rewrite E|]; discriminate.
Qed.

End Store.

End StoreFacts.

(** ** The store theorems on concrete inputs, and where the store
    claims stop holding *)

Module StoreExamples.
Import JS Api Notions StoreFacts.

(** The choices the form offers, and a text without a unit. *)
Example ttl_1h : ttl_duration (lit "1h") = Some 3600000%Z.
Proof. reflexivity. Qed.

Example ttl_24h : ttl_duration (lit "24h") = Some 86400000%Z.
Proof. reflexivity. Qed.

Example ttl_7d : ttl_duration (lit "7d") = Some 604800000%Z.
Proof. reflexivity. Qed.

Example ttl_30d : ttl_duration (lit "30d") = Some 2592000000%Z.
Proof. reflexivity. Qed.

Example ttl_15m : ttl_duration (lit "15m") = Some 900000%Z.
Proof. reflexivity. Qed.

Example ttl_default : ttl_duration (lit "1 week") = Some 86400000%Z.
Proof. reflexivity. Qed.

Example ttl_no_number : ttl_duration (lit "h") = None.
Proof. reflexivity. Qed.



(** A paste that expired at 1000, asked for at 2000 and again at 3000. *)
Lemma fetchPaste_expired_witness :
  fetchPaste TestProvider.iso_parse 2000 (lit "4fzyo82m")
    (<[lit "pastebin_4fzyo82m" := TestProvider.a_paste 1000 (Some false)]> ∅)
  = (None, delete (lit "pastebin_4fzyo82m")
             (<[lit "pastebin_4fzyo82m" := TestProvider.a_paste 1000 (Some false)]> ∅))
  /\ fetchPaste TestProvider.iso_parse 3000 (lit "4fzyo82m")
       (delete (lit "pastebin_4fzyo82m")
          (<[lit "pastebin_4fzyo82m" := TestProvider.a_paste 1000 (Some false)]> ∅))
     = (None, delete (lit "pastebin_4fzyo82m")
                (<[lit "pastebin_4fzyo82m" := TestProvider.a_paste 1000 (Some false)]> ∅)).
Proof.
  apply (fetchPaste_expired TestProvider.iso_parse 2000 3000 1000 (lit "4fzyo82m")
           _ (TestProvider.a_paste 1000 (Some false))).
  - apply lookup_insert_eq.
  - reflexivity.
  - reflexivity.
Defined.

(** A paste stored without [hasPassword] that expires at 5000, asked
    for at 2000. *)
Lemma fetchPaste_defaults_hasPassword_witness :
  fetchPaste TestProvider.iso_parse 2000 (lit "4fzyo82m")
    (<[lit "pastebin_4fzyo82m" := TestProvider.a_paste 5000 None]> ∅)
  = (Some (TestProvider.a_paste 5000 (Some false)),
     <[lit "pastebin_4fzyo82m" := TestProvider.a_paste 5000 None]> ∅).
Proof.
  apply (fetchPaste_defaults_hasPassword TestProvider.iso_parse 2000
           (lit "4fzyo82m") _ (TestProvider.a_paste 5000 None)).
  - apply lookup_insert_eq.
  - reflexivity.
  - reflexivity.
Defined.

(** C9 fails as stated: a stored paste without [hasPassword] that has
    expired is not returned at all. *)
Lemma fetchPaste_expired_without_hasPassword :
  (<[lit "pastebin_4fzyo82m" := TestProvider.a_paste 1000 None]> ∅ : storage)
    !! lit "pastebin_4fzyo82m" = Some (TestProvider.a_paste 1000 None)
  /\ hasPassword (TestProvider.a_paste 1000 None) = None
  /\ fst (fetchPaste TestProvider.iso_parse 2000 (lit "4fzyo82m")
            (<[lit "pastebin_4fzyo82m" := TestProvider.a_paste 1000 None]> ∅))
     = None.
Proof.
  split; [apply lookup_insert_eq|]. split; [reflexivity|].
  unfold fetchPaste.
  change (API_PREFIX ++ lit "4fzyo82m") with (lit "pastebin_4fzyo82m").
  now rewrite lookup_insert_eq.
Qed.

End StoreExamples.

(** ** Which texts survive the encoder and the decoder *)

Module TextFacts.
Import JS Crypto Notions MoreNotions Utf8Facts.

Lemma tail_ind (P : js_string -> Prop) :
  P [] ->
  (forall c s, P s -> (forall d s', s = d :: s' -> P s') -> P (c :: s)) ->
  forall s, P s.
Proof.
  intros Hnil Hcons s.
  assert (H : P s /\ (forall d s', s = d :: s' -> P s')); [|tauto].
  induction s as [|c s [IH1 IH2]].
  - split; [exact Hnil | discriminate].
  - split; [now apply Hcons|]. now intros d s' [= _ <-].
Qed.

Lemma utf16_units_pair (c d : N) :
  is_high_surrogate c = true -> is_low_surrogate d = true ->
  utf16_units (0x10000 + (c - 0xD800) * 0x400 + (d - 0xDC00)) = [c; d].
Proof.
  intros Hh Hl.
  assert (Hwf : well_formed [c; d] = true).
  { cbn [well_formed]. rewrite Hh, Hl.
    apply surrogate_bounds in Hh.
    now replace (c <? 0x10000)%N with true by (symmetry; apply N.ltb_lt; lia). }
  pose proof (utf16_of_scalar_values [c; d] Hwf) as H.
  cbn [to_scalar_values flat_map] in H. rewrite Hh, Hl in H.
  cbn [flat_map] in H. now rewrite app_nil_r in H.
Qed.

Lemma scalar_pair (c d : N) :
  is_high_surrogate c = true -> is_low_surrogate d = true ->
  is_scalar_value (0x10000 + (c - 0xD800) * 0x400 + (d - 0xDC00)) = true.
Proof.
  intros Hh Hl. apply surrogate_bounds in Hh. apply surrogate_bounds in Hl.
  unfold is_scalar_value.
  replace (_ <=? 0x10FFFF)%N with true by (symmetry; apply N.leb_le; lia).
  replace (_ <=? 0xDFFF)%N with false by (symmetry; apply N.leb_gt; lia).
  now rewrite andb_false_r.
Qed.

Lemma scalar_unit (c : N) :
  (c < 0x10000)%N -> is_high_surrogate c = false -> is_low_surrogate c = false ->
  is_scalar_value c = true.
Proof.
  intros Hc Hh Hl. pose proof (not_surrogate_bounds c Hh Hl).
  unfold is_scalar_value.
  replace (c <=? 0x10FFFF)%N with true by (symmetry; apply N.leb_le; lia).
  destruct (N.leb_spec 0xD800 c); destruct (N.leb_spec c 0xDFFF);
    try reflexivity; lia.
Qed.

Lemma to_scalar_values_cons (c : N) (s : js_string) :
  to_scalar_values (c :: s)
  = if is_high_surrogate c then
      match s with
      | d :: s' =>
          if is_low_surrogate d
          then (0x10000 + (c - 0xD800) * 0x400 + (d - 0xDC00))%N :: to_scalar_values s'
          else 0xFFFD%N :: to_scalar_values s
      | [] => [0xFFFD%N]
      end
    else if is_low_surrogate c then 0xFFFD%N :: to_scalar_values s
    else c :: to_scalar_values s.
Proof. reflexivity. Qed.

Lemma utf16_units_replacement : utf16_units 0xFFFD = [0xFFFD%N].
Proof. reflexivity. Qed.

(** [TextEncoder] writes scalar values only, whatever the string. *)
Lemma to_scalar_values_all_scalar (s : js_string) :
  code_units s = true -> forallb is_scalar_value (to_scalar_values s) = true.
Proof.
  unfold code_units. revert s. apply (tail_ind (fun s => _ -> _)); [reflexivity|].
  intros c s IH IHtail Hunits. cbn [forallb] in Hunits.
  apply andb_prop in Hunits as [Hc Hs]. apply N.ltb_lt in Hc.
  rewrite to_scalar_values_cons.
  destruct (is_high_surrogate c) eqn:Hh.
  - destruct s as [|d s']; [reflexivity|].
    destruct (is_low_surrogate d) eqn:Hl; cbn [forallb].
    + rewrite (scalar_pair c d Hh Hl). cbn [andb].
      apply (IHtail d s' eq_refl). cbn [forallb] in Hs.
      now apply andb_prop in Hs as [_ Hs].
    + now rewrite (IH Hs).
  - destruct (is_low_surrogate c) eqn:Hl; cbn [forallb].
    + now rewrite (IH Hs).
    + now rewrite (scalar_unit c Hc Hh Hl), (IH Hs).
Qed.

(** What comes back is as long as what went in, before the decoder
    drops a leading U+FEFF. *)
Lemma scalar_values_length (s : js_string) :
  code_units s = true ->
  length (flat_map utf16_units (to_scalar_values s)) = length s.
Proof.
  unfold code_units. revert s. apply (tail_ind (fun s => _ -> _)); [reflexivity|].
  intros c s IH IHtail Hunits. cbn [forallb] in Hunits.
  apply andb_prop in Hunits as [Hc Hs].
  rewrite to_scalar_values_cons.
  destruct (is_high_surrogate c) eqn:Hh.
  - destruct s as [|d s']; [reflexivity|].
    destruct (is_low_surrogate d) eqn:Hl; cbn [flat_map].
    + rewrite (utf16_units_pair c d Hh Hl). cbn [app length].
      rewrite (IHtail d s' eq_refl); [reflexivity|].
      cbn [forallb] in Hs. now apply andb_prop in Hs as [_ Hs].
    + rewrite utf16_units_replacement. cbn [app length]. now rewrite (IH Hs).
  - destruct (is_low_surrogate c) eqn:Hl; cbn [flat_map].
    + rewrite utf16_units_replacement. cbn [app length]. now rewrite (IH Hs).
    + unfold utf16_units at 1. rewrite Hc. cbn [app length]. now rewrite (IH Hs).
Qed.

Lemma not_replacement (c : N) :
  is_high_surrogate c = true \/ is_low_surrogate c = true -> c <> 0xFFFD%N.
Proof.
  intros [H|H]; apply surrogate_bounds in H; lia.
Qed.

(** Only a well-formed string is left as it is by the replacement of
    unpaired surrogates. *)
Lemma scalar_values_fixed (s : js_string) :
  code_units s = true ->
  flat_map utf16_units (to_scalar_values s) = s -> well_formed s = true.
Proof.
  unfold code_units. revert s.
  apply (tail_ind (fun s => _ -> _ -> _)); [reflexivity|].
  intros c s IH IHtail Hunits. cbn [forallb] in Hunits.
  apply andb_prop in Hunits as [Hc Hs].
  rewrite to_scalar_values_cons. cbn [well_formed]. rewrite Hc. cbn [andb].
  destruct (is_high_surrogate c) eqn:Hh.
  - destruct s as [|d s'].
    + cbn [flat_map]. rewrite utf16_units_replacement. intros [= Heq].
      symmetry in Heq. now apply not_replacement in Heq; [|left].
    + destruct (is_low_surrogate d) eqn:Hl; cbn [flat_map].
      * rewrite (utf16_units_pair c d Hh Hl). cbn [app]. intros [= Heq].
        cbn [andb]. apply (IHtail d s' eq_refl); [|exact Heq].
        cbn [forallb] in Hs. now apply andb_prop in Hs as [_ Hs].
      * rewrite utf16_units_replacement. cbn [app].
        intros [= Heq _]. symmetry in Heq.
        now apply not_replacement in Heq; [|left].
  - destruct (is_low_surrogate c) eqn:Hl; cbn [flat_map].
    + rewrite utf16_units_replacement. cbn [app].
      intros [= Heq _]. symmetry in Heq.
      now apply not_replacement in Heq; [|right].
    + unfold utf16_units at 1. rewrite Hc. cbn [app negb andb].
      intros [= Heq]. now apply IH.
Qed.

(** The first scalar value is U+FEFF only when the first code unit
    is. *)
Lemma strip_bom_kept (s : js_string) :
  starts_with_bom s = false -> strip_bom (to_scalar_values s) = to_scalar_values s.
Proof.
  destruct s as [|c s]; [reflexivity|]. cbn [starts_with_bom to_scalar_values].
  intros Hbom.
  destruct (is_high_surrogate c) eqn:Hh.
  - destruct s as [|d s']; [reflexivity|].
    destruct (is_low_surrogate d) eqn:Hl; [|reflexivity].
    cbn [strip_bom].
    apply surrogate_bounds in Hh. apply surrogate_bounds in Hl.
    now replace (_ =? 0xFEFF)%N with false by (symmetry; apply N.eqb_neq; lia).
  - destruct (is_low_surrogate c); [reflexivity|].
    cbn [strip_bom]. now rewrite Hbom.
Qed.

Lemma strip_bom_dropped (c : N) (s : js_string) :
  starts_with_bom (c :: s) = true ->
  strip_bom (to_scalar_values (c :: s)) = to_scalar_values s.
Proof.
  cbn [starts_with_bom]. intros Hbom. apply N.eqb_eq in Hbom. subst c.
  reflexivity.
Qed.

(** What [uint8ArrayToStr] reads from what [strToUint8Array] wrote:
    the text with U+FFFD for every unpaired surrogate and without a
    leading U+FEFF. *)
Lemma text_there_and_back (s : js_string) :
  code_units s = true ->
  uint8ArrayToStr (strToUint8Array s)
  = flat_map utf16_units (strip_bom (to_scalar_values s)).
Proof.
  intros Hunits.
  unfold uint8ArrayToStr, strToUint8Array, TextDecoder_decode, TextEncoder_encode.
  now rewrite utf8_decode_encode by now apply to_scalar_values_all_scalar.
Qed.

(** X1. [strToUint8Array] then [uint8ArrayToStr] gives a text back
    unchanged exactly when it is well formed, with no surrogate outside
    a pair, and does not begin with U+FEFF. Any other text comes back
    changed. *)
Theorem uint8ArrayToStr_strToUint8Array (s : js_string) :
  code_units s = true ->
  uint8ArrayToStr (strToUint8Array s) = s
  <-> well_formed s = true /\ starts_with_bom s = false.
Proof.
  intros Hunits. split.
  - rewrite text_there_and_back by exact Hunits. intros Hback.
    destruct (starts_with_bom s) eqn:Hbom.
    + exfalso. destruct s as [|c s]; [discriminate|].
      rewrite (strip_bom_dropped c s Hbom) in Hback.
      apply (f_equal (@length N)) in Hback.
      unfold code_units in Hunits. cbn [forallb] in Hunits.
      apply andb_prop in Hunits as [_ Hs].
      rewrite (scalar_values_length s Hs) in Hback. cbn [length] in Hback. lia.
    + rewrite (strip_bom_kept s Hbom) in Hback.
      split; [now apply scalar_values_fixed | reflexivity].
  - intros [Hwf Hbom]. unfold uint8ArrayToStr, strToUint8Array.
    now apply TextDecoder_TextEncoder.
Qed.

End TextFacts.

(** ** More on the hex codec and on keys *)

Module CodecFacts.
Import JS Crypto Notions MoreNotions HexFacts EnvelopeFacts.

Lemma hex_pair_lower (b : byte) : forallb is_lower_hex_digit (hex_pair b) = true.
Proof. destruct b; reflexivity. Qed.

Lemma arrayBufferToHex_lower (buffer : bytes) :
  forallb is_lower_hex_digit (arrayBufferToHex buffer) = true.
Proof.
  induction buffer as [|b bs IH]; [reflexivity|].
  now rewrite arrayBufferToHex_cons, forallb_app, hex_pair_lower, IH.
Qed.

(** X2. The hex text of a buffer has two characters per byte, each one of
    0-9 and a-f. *)
Theorem arrayBufferToHex_shape (buffer : bytes) :
  length (arrayBufferToHex buffer) = 2 * length buffer
  /\ forallb is_lower_hex_digit (arrayBufferToHex buffer) = true.
Proof.
  split; [apply arrayBufferToHex_length | apply arrayBufferToHex_lower].
Qed.

Lemma upper_hex_pair (b : byte) (s : js_string) :
  hexToArrayBuffer (toUpperCase_ascii (hex_pair b) ++ s) = b :: hexToArrayBuffer s.
Proof.
  rewrite !hexToArrayBuffer_matches.
  assert (H : exists h l, toUpperCase_ascii (hex_pair b) = [h; l]
                          /\ is_line_terminator h = false
                          /\ is_line_terminator l = false
                          /\ ToUint8 (parseInt [h; l] (Some 16%N)) = b)
    by (destruct b; do 2 eexists; repeat split).
  destruct H as (h & l & -> & Hh & Hl & Hp).
  cbn [app]. rewrite dot_1_2_matches_pair by assumption.
  cbn [List.map]. now rewrite Hp.
Qed.

(** X3. Hex text is read the same in upper case: a key or an envelope typed
    in capitals gives the same bytes. *)
Theorem hexToArrayBuffer_upper_case (buffer : bytes) :
  hexToArrayBuffer (toUpperCase_ascii (arrayBufferToHex buffer)) = buffer.
Proof.
  induction buffer as [|b bs IH]; [reflexivity|].
  rewrite arrayBufferToHex_cons. unfold toUpperCase_ascii in *.
  rewrite List.map_app. fold (toUpperCase_ascii (hex_pair b)).
  now rewrite upper_hex_pair, IH.
Qed.

(** [hexToArrayBuffer] never returns more than one byte per two
    characters, rounded up. *)
Lemma dot_1_2_matches_bound (n : nat) (s : js_string) :
  length s <= n -> 2 * length (dot_1_2_matches s) <= length s + 1.
Proof.
  revert s. induction n as [n IH] using lt_wf_ind. intros s Hn.
  destruct s as [|c [|d s]]; cbn [dot_1_2_matches length].
  - lia.
  - destruct (is_line_terminator c); cbn [dot_1_2_matches length]; lia.
  - destruct (is_line_terminator c).
    + specialize (IH (length (d :: s)) ltac:(cbn in *; lia) (d :: s) (le_n _)).
      cbn [dot_1_2_matches length] in IH. lia.
    + specialize (IH (length s) ltac:(cbn in *; lia) s (le_n _)).
      destruct (is_line_terminator d); cbn [length]; lia.
Qed.

Lemma dot_1_2_matches_one_line (n : nat) (s : js_string) :
  length s <= n -> one_line s = true ->
  length (dot_1_2_matches s) = Nat.div2 (length s + 1).
Proof.
  revert s. induction n as [n IH] using lt_wf_ind. intros s Hn Hline.
  destruct s as [|c [|d s]]; cbn [dot_1_2_matches length].
  - reflexivity.
  - cbn in Hline. rewrite andb_true_r in Hline. apply negb_true_iff in Hline.
    now rewrite Hline.
  - cbn [one_line forallb] in Hline.
    apply andb_prop in Hline as [Hc Hline]. apply andb_prop in Hline as [Hd Hline].
    apply negb_true_iff in Hc, Hd. rewrite Hc, Hd. cbn [length].
    rewrite (IH (length s) ltac:(cbn in *; lia) s (le_n _) Hline).
    replace (S (S (length s)) + 1) with (S (S (length s + 1))) by lia.
    reflexivity.
Qed.

Lemma hexToArrayBuffer_bound (s : js_string) :
  2 * length (hexToArrayBuffer s) <= length s + 1.
Proof.
  rewrite hexToArrayBuffer_matches, length_map.
  now apply (dot_1_2_matches_bound (length s)).
Qed.

(** X4. Of a text without line terminators, hex or not, [hexToArrayBuffer]
    makes one byte per two characters, and one more of an odd last
    character; of any text it makes no more than that. *)
Theorem hexToArrayBuffer_size (hex : js_string) :
  2 * length (hexToArrayBuffer hex) <= length hex + 1
  /\ (one_line hex = true ->
      length (hexToArrayBuffer hex) = Nat.div2 (length hex + 1)).
Proof.
  split; [apply hexToArrayBuffer_bound|].
  intros Hline. rewrite hexToArrayBuffer_matches, length_map.
  now apply (dot_1_2_matches_one_line (length hex)).
Qed.

Section Provider.

Context {rng : Type}.
Variable getRandomValues : nat -> rng -> bytes * rng.
Variable aes_gcm_encrypt : bytes -> bytes -> bytes -> bytes.
Variable aes_gcm_decrypt : bytes -> bytes -> bytes -> option bytes.
Variable pbkdf2 : hash_name -> N -> bytes -> bytes -> N -> bytes.

Hypothesis getRandomValues_length :
  forall n r, length (fst (getRandomValues n r)) = n.
Hypothesis aes_gcm_short :
  forall key iv data, length data < 16 -> aes_gcm_decrypt key iv data = None.

(** X5. [generateKey] returns a key of 64 characters, each one of 0-9 and
    a-f, which [importKey] accepts, and leaves the random source
    advanced by the 32 bytes of the key. *)
Theorem generateKey_key (r : rng) :
  exists hexKey,
    generateKey getRandomValues r = (Ok hexKey, snd (getRandomValues 32 r))
    /\ length hexKey = 64
    /\ forallb is_lower_hex_digit hexKey = true
    /\ importKey hexKey r = (Ok (fst (getRandomValues 32 r)), r).
Proof.
  unfold generateKey, bind, crypto_getRandomValues, ret.
  pose proof (getRandomValues_length 32 r) as Hlen.
  destruct (getRandomValues 32 r) as [key r']. cbn [fst snd] in *.
  exists (arrayBufferToHex key). split; [reflexivity|].
  split; [now rewrite arrayBufferToHex_length, Hlen|].
  split; [apply arrayBufferToHex_lower|].
  unfold importKey, subtle_importKey_AES_GCM. rewrite hex_roundtrip.
  unfold aes_key_length_ok. now rewrite Hlen.
Qed.

(** X6. A key [importKey] refuses makes [encrypt] and [decrypt] reject with
    the DataError of [importKey] itself: [encrypt] has then drawn no
    nonce, and [decrypt], whose [try] starts after the import, does not
    turn it into its own error. *)
Theorem refused_key (text ciphertext hexKey : js_string) (r : rng) :
  aes_key_length_ok (hexToArrayBuffer hexKey) = false ->
  encrypt getRandomValues aes_gcm_encrypt text hexKey r = (Throw DataError, r)
  /\ decrypt aes_gcm_decrypt ciphertext hexKey r = (Throw DataError, r).
Proof.
  intros Hkey. split.
  - unfold encrypt, importKey, subtle_importKey_AES_GCM, bind, throw.
    now rewrite Hkey.
  - unfold decrypt, importKey, subtle_importKey_AES_GCM, bind, throw.
    now rewrite Hkey.
Qed.

(** X7. An envelope too short to hold a 16-byte tag after its fixed fields
    is rejected: [decrypt] fails on fewer than 55 characters and
    [decryptWithPassword] on fewer than 87, each with its own
    message. *)
Theorem envelope_without_tag (ciphertext hexKey password : js_string) (r : rng) :
  aes_key_length_ok (hexToArrayBuffer hexKey) = true ->
  (length ciphertext < 55 ->
   decrypt aes_gcm_decrypt ciphertext hexKey r
   = (Throw (Error "Failed to decrypt: Invalid key or corrupted data"), r))
  /\ (length ciphertext < 87 ->
      decryptWithPassword aes_gcm_decrypt pbkdf2 ciphertext password r
      = (Throw (Error "Failed to decrypt: Invalid password or corrupted data"), r)).
Proof.
  intros Hkey.
  assert (Hshort : forall n, length ciphertext < n + 31 ->
            length (hexToArrayBuffer (substring ciphertext n None)) < 16).
  { intros n Hn.
    pose proof (hexToArrayBuffer_bound (substring ciphertext n None)) as Hb.
    assert (length (substring ciphertext n None) <= 30); [|lia].
    unfold substring.
    rewrite length_firstn, length_skipn. lia. }
  split; intros Hlen.
  - rewrite (decrypt_eq aes_gcm_decrypt) by exact Hkey.
    now rewrite aes_gcm_short by (apply Hshort; lia).
  - rewrite decryptWithPassword_eq.
    now rewrite aes_gcm_short by (apply Hshort; lia).
Qed.

(** X8. Whatever makes the cipher reject under the key derived from the
    password, a wrong password as well as a damaged envelope,
    [decryptWithPassword] fails with the one message
    "Failed to decrypt: Invalid password or corrupted data"; and it never
    fails in another way. *)
Theorem decryptWithPassword_rejected (ciphertext password : js_string) (r : rng) :
  (aes_gcm_decrypt
     (pbkdf2 SHA_256 100000 (strToUint8Array password)
        (hexToArrayBuffer (substring ciphertext 0 (Some 32))) 256)
     (hexToArrayBuffer (substring ciphertext 32 (Some 56)))
     (hexToArrayBuffer (substring ciphertext 56 None)) = None ->
   decryptWithPassword aes_gcm_decrypt pbkdf2 ciphertext password r
   = (Throw (Error "Failed to decrypt: Invalid password or corrupted data"), r))
  /\ (forall e,
         fst (decryptWithPassword aes_gcm_decrypt pbkdf2 ciphertext password r)
         = Throw e ->
         e = Error "Failed to decrypt: Invalid password or corrupted data").
Proof.
  rewrite decryptWithPassword_eq. split.
  - now intros ->.
  - intros e. destruct (aes_gcm_decrypt _ _ _); cbn [fst]; [discriminate|].
    now intros [= <-].
Qed.

End Provider.

End CodecFacts.

(** ** More on the paste store *)

Module StoreMore.
Import JS Api Notions MoreNotions StoreFacts.

Lemma as_fetched_expiresAt (paste : PasteData) :
  expiresAt (as_fetched paste) = expiresAt paste.
Proof. unfold as_fetched. now destruct (hasPassword paste). Qed.

Lemma substring_length (s : js_string) (start : nat) (end_ : nat) :
  start <= end_ ->
  length (substring s start (Some end_))
  = Nat.min end_ (length s) - Nat.min start (length s).
Proof.
  intros H. unfold substring. rewrite length_firstn, length_skipn. lia.
Qed.


Section Store.

Variable LocalTZA : Z -> bool -> Z.
Variable Date_toISOString_text : Z -> js_string.
Variable Date_parse : js_string -> number.

(** X10. A time to live that ends in h, d or m but starts with no number
    makes [createPaste] reject with the RangeError of [toISOString], in
    any time zone, and the store is left as it was. *)
Theorem createPaste_without_number (now : Z) (random36 ciphertext ttl : js_string)
    (hasPassword : bool) (localStorage : storage) :
  endsWith ttl 0x68 || endsWith ttl 0x64 || endsWith ttl 0x6D = true ->
  parseInt ttl None = None ->
  createPaste LocalTZA Date_toISOString_text now random36 ciphertext ttl
    hasPassword localStorage
  = (Throw RangeError, localStorage).
Proof.
  intros Hunit Hnan. unfold createPaste, ttlToExpiresAt. rewrite Hnan.
  assert (Hadd : forall a, number_add a None = None) by (now intros [a|]).
  rewrite !Hadd.
  assert (Hset : setHours LocalTZA (TimeClip (Some now)) None = None
                 /\ setDate LocalTZA (TimeClip (Some now)) None = None
                 /\ setMinutes LocalTZA (TimeClip (Some now)) None = None)
    by (destruct (TimeClip (Some now)); repeat split).
  destruct Hset as (Hh & Hd & Hm).
  destruct (endsWith ttl 0x68); [now rewrite Hh|].
  destruct (endsWith ttl 0x64); [now rewrite Hd|].
  destruct (endsWith ttl 0x6D); [now rewrite Hm | discriminate].
Qed.

(** X11. What [createPaste] tells its caller is what it stored: when it
    returns a response, the store holds, under the prefix and the id of
    the response, the ciphertext given, the [expiresAt] of the response
    and the password flag given, whatever was stored under that id
    before. *)
Theorem createPaste_response (now : Z) (random36 ciphertext ttl : js_string)
    (hasPassword : bool) (localStorage stored : storage) (response : PasteResponse) :
  createPaste LocalTZA Date_toISOString_text now random36 ciphertext ttl
    hasPassword localStorage = (Ok response, stored) ->
  stored !! (API_PREFIX ++ id response)
  = Some {| Api.ciphertext := ciphertext;
            expiresAt := response_expiresAt response;
            Api.hasPassword := Some hasPassword |}
  /\ id response = generateId random36
  /\ response_ciphertext response = ciphertext
  /\ response_hasPassword response = hasPassword.
Proof.
  unfold createPaste.
  destruct (ttlToExpiresAt _ _ _ _) as [expires|e]; [|discriminate].
  intros [= <- <-]. cbn [id response_expiresAt response_ciphertext response_hasPassword].
  now rewrite lookup_insert_eq.
Qed.

(** X12. [createPaste] and [fetchPaste] leave every other key of the store
    as it is. *)
Theorem other_keys_untouched (now : Z) (random36 ciphertext ttl id key : js_string)
    (hasPassword : bool) (localStorage : storage) :
  (key <> API_PREFIX ++ generateId random36 ->
   snd (createPaste LocalTZA Date_toISOString_text now random36 ciphertext ttl
          hasPassword localStorage) !! key = localStorage !! key)
  /\ (key <> API_PREFIX ++ id ->
      snd (fetchPaste Date_parse now id localStorage) !! key = localStorage !! key).
Proof.
  split; intros Hkey.
  - unfold createPaste.
    destruct (ttlToExpiresAt _ _ _ _); cbn [snd]; [|reflexivity].
    now rewrite lookup_insert_ne.
  - unfold fetchPaste.
    destruct (localStorage !! (API_PREFIX ++ id)); [|reflexivity].
    destruct (number_lt _ _); cbn [snd]; [|reflexivity].
    now rewrite lookup_delete_ne.
Qed.

(** X13. [fetchPaste] changes the store in one way only: it removes the
    paste it was asked for, which was there, and then it answers not
    found. Otherwise the store is as it was. *)
Theorem fetchPaste_only_purges (now : Z) (id : js_string) (localStorage : storage) :
  snd (fetchPaste Date_parse now id localStorage) = localStorage
  \/ (fst (fetchPaste Date_parse now id localStorage) = None
      /\ snd (fetchPaste Date_parse now id localStorage)
         = delete (API_PREFIX ++ id) localStorage
      /\ is_Some (localStorage !! (API_PREFIX ++ id))).
Proof.
  unfold fetchPaste.
  destruct (localStorage !! (API_PREFIX ++ id)) as [paste|]; [|now left].
  destruct (number_lt _ _); [right | now left].
  cbn [fst snd]. repeat split. now exists paste.
Qed.

(** X14. A stored paste is returned up to and including the instant of its
    expiry, and one whose [expiresAt] does not read as a date is
    returned at any time; the store is then left as it was, so asking
    again gives the same. *)
Theorem fetchPaste_live (now : Z) (id : js_string) (localStorage : storage)
    (paste : PasteData) :
  localStorage !! (API_PREFIX ++ id) = Some paste ->
  (new_Date Date_parse (expiresAt paste) = None
   \/ exists t, new_Date Date_parse (expiresAt paste) = Some t /\ (now <= t)%Z) ->
  fetchPaste Date_parse now id localStorage = (Some (as_fetched paste), localStorage).
Proof.
  intros Hget Hlive. unfold fetchPaste. rewrite Hget.
  fold (as_fetched paste). rewrite as_fetched_expiresAt.
  destruct Hlive as [-> | (t & -> & Ht)]; cbn [number_lt]; [reflexivity|].
  now rewrite (proj2 (Z.ltb_ge _ _) Ht).
Qed.

Variable offset : Z.
Hypothesis fixed_offset : forall t isUTC, LocalTZA t isUTC = offset.

(** X16. Creating a paste and fetching it under the id of the response gives
    the paste back, with the ciphertext and the password flag it was
    created with, until its expiry has passed; after that it is not
    found and is removed. This is in a time zone with a fixed offset,
    with a clock and an offset for which the arithmetic of the setters
    is exact ([exact_clock]), for a time to live [d], and when
    [Date.parse] reads back the text of the expiry. *)
Theorem fetchPaste_createPaste (now later d : Z) (random36 ciphertext ttl : js_string)
    (hasPassword : bool) (localStorage : storage) :
  ttl_duration ttl = Some d ->
  valid_time now -> exact_clock now offset -> valid_time (now + d) ->
  Date_parse (Date_toISOString_text (now + d)) = Some (now + d)%Z ->
  exists response stored,
    createPaste LocalTZA Date_toISOString_text now random36 ciphertext ttl
      hasPassword localStorage = (Ok response, stored)
    /\ fetchPaste Date_parse later (id response) stored
       = if (now + d <? later)%Z
         then (None, delete (API_PREFIX ++ id response) stored)
         else (Some {| Api.ciphertext := ciphertext;
                       expiresAt := Date_toISOString_text (now + d);
                       Api.hasPassword := Some hasPassword |}, stored).
Proof.
  intros Hd Hnow Hclock Hexp Hparse.
  rewrite (createPaste_duration LocalTZA Date_toISOString_text offset fixed_offset
             now d random36 ciphertext ttl hasPassword localStorage Hd Hnow Hclock
             Hexp).
  unfold paste_created. eexists. eexists. split; [reflexivity|].
  cbn [id]. unfold fetchPaste. rewrite lookup_insert_eq.
  cbn [Api.hasPassword expiresAt]. unfold new_Date.
  now rewrite Hparse, (TimeClip_valid _ Hexp).
Qed.

End Store.

End StoreMore.

(** ** The hook around the cipher *)

Module HookFacts.
Import JS JSText Crypto Notions MoreNotions HexFacts Utf8Facts EnvelopeFacts.

Section Provider.

Context {rng : Type}.
Variable getRandomValues : nat -> rng -> bytes * rng.
Variable aes_gcm_encrypt : bytes -> bytes -> bytes -> bytes.
Variable aes_gcm_decrypt : bytes -> bytes -> bytes -> option bytes.
Variable pbkdf2 : hash_name -> N -> bytes -> bytes -> N -> bytes.
Variable native_message : exn -> string.

Hypothesis getRandomValues_length :
  forall n r, length (fst (getRandomValues n r)) = n.
Hypothesis aes_gcm_correct :
  forall key iv data,
    aes_key_length_ok key = true -> length iv = 12 ->
    aes_gcm_decrypt key iv (aes_gcm_encrypt key iv data) = Some data.
Hypothesis pbkdf2_length :
  forall password salt, length (pbkdf2 SHA_256 100000 password salt 256) = 32.

Local Abbreviation keyed_envelope :=
  (Notions.keyed_envelope getRandomValues aes_gcm_encrypt).
Local Abbreviation password_envelope :=
  (Notions.password_envelope getRandomValues aes_gcm_encrypt pbkdf2).

(** The key [generateKey] draws in state [r]. *)
Local Abbreviation fresh_key r := (arrayBufferToHex (fst (getRandomValues 32 r))).

Lemma fresh_key_imports (r : rng) :
  aes_key_length_ok (hexToArrayBuffer (fresh_key r)) = true.
Proof.
  apply hex_key_imports, arrayBufferToHex_hex_key, getRandomValues_length.
Qed.

Lemma encryptText_eq (text : js_string) (h : UseCrypto.CryptoState) (r : rng) :
  UseCrypto.encryptText getRandomValues aes_gcm_encrypt native_message text h r
  = (Ok (keyed_envelope text (fresh_key r) (snd (getRandomValues 32 r)), fresh_key r),
     UseCrypto.initial,
     snd (getRandomValues 12 (snd (getRandomValues 32 r)))).
Proof.
  unfold UseCrypto.encryptText, bind at 1.
  unfold generateKey, bind at 1, crypto_getRandomValues, ret at 1.
  pose proof (fresh_key_imports r) as Hkey.
  destruct (getRandomValues 32 r) as [key r1]. cbn [fst snd] in *.
  unfold bind. rewrite (encrypt_eq getRandomValues aes_gcm_encrypt) by exact Hkey.
  reflexivity.
Qed.

Lemma hook_encryptWithPassword_eq (text password : js_string)
    (h : UseCrypto.CryptoState) (r : rng) :
  UseCrypto.encryptWithPassword getRandomValues aes_gcm_encrypt pbkdf2 native_message
    text password h r
  = (Ok (password_envelope text password r), UseCrypto.initial,
     snd (getRandomValues 12 (snd (getRandomValues 16 r)))).
Proof.
  unfold UseCrypto.encryptWithPassword.
  now rewrite (encryptWithPassword_eq getRandomValues aes_gcm_encrypt pbkdf2).
Qed.

Lemma decryptText_eq (ciphertext key : js_string) (h : UseCrypto.CryptoState) (r : rng) :
  UseCrypto.decryptText aes_gcm_decrypt native_message ciphertext key h r
  = match fst (decrypt aes_gcm_decrypt ciphertext key r) with
    | Ok plaintext => (Ok plaintext, UseCrypto.initial, r)
    | Throw err =>
        (Throw (Error (message native_message err)),
         {| UseCrypto.isProcessing := false;
            UseCrypto.error := Some (message native_message err) |}, r)
    end.
Proof.
  unfold UseCrypto.decryptText, decrypt, try_catch, bind, importKey,
    subtle_importKey_AES_GCM, subtle_decrypt_AES_GCM, ret, throw.
  destruct (aes_key_length_ok _); [|reflexivity].
  now destruct (aes_gcm_decrypt _ _ _).
Qed.

Lemma hook_decryptWithPassword_eq (ciphertext password : js_string)
    (h : UseCrypto.CryptoState) (r : rng) :
  UseCrypto.decryptWithPassword aes_gcm_decrypt pbkdf2 native_message
    ciphertext password h r
  = match fst (decryptWithPassword aes_gcm_decrypt pbkdf2 ciphertext password r) with
    | Ok plaintext => (Ok plaintext, UseCrypto.initial, r)
    | Throw err =>
        (Throw (Error (message native_message err)),
         {| UseCrypto.isProcessing := false;
            UseCrypto.error := Some (message native_message err) |}, r)
    end.
Proof.
  unfold UseCrypto.decryptWithPassword.
  rewrite decryptWithPassword_eq.
  now destruct (aes_gcm_decrypt _ _ _).
Qed.

Lemma decryptText_keyed_envelope (text key : js_string) (h : UseCrypto.CryptoState)
    (r r2 : rng) :
  aes_key_length_ok (hexToArrayBuffer key) = true ->
  UseCrypto.decryptText aes_gcm_decrypt native_message (keyed_envelope text key r)
    key h r2
  = (Ok (uint8ArrayToStr (strToUint8Array text)), UseCrypto.initial, r2).
Proof.
  intros Hkey. rewrite decryptText_eq.
  now rewrite (decrypt_keyed_envelope getRandomValues aes_gcm_encrypt aes_gcm_decrypt
                 getRandomValues_length aes_gcm_correct) by exact Hkey.
Qed.

Lemma decryptWithPassword_password_envelope (text password : js_string)
    (h : UseCrypto.CryptoState) (r r2 : rng) :
  UseCrypto.decryptWithPassword aes_gcm_decrypt pbkdf2 native_message
    (password_envelope text password r) password h r2
  = (Ok (uint8ArrayToStr (strToUint8Array text)), UseCrypto.initial, r2).
Proof.
  rewrite hook_decryptWithPassword_eq.
  now rewrite (decrypt_password_envelope getRandomValues aes_gcm_encrypt
                 aes_gcm_decrypt pbkdf2 getRandomValues_length aes_gcm_correct
                 pbkdf2_length).
Qed.

Lemma text_round_trip (text : js_string) :
  well_formed text = true -> starts_with_bom text = false ->
  uint8ArrayToStr (strToUint8Array text) = text.
Proof.
  intros Hwf Hbom. unfold uint8ArrayToStr, strToUint8Array.
  now apply TextDecoder_TextEncoder.
Qed.

(** X17. [encryptText] of the hook makes a fresh key of 64 hex characters
    and returns it with the envelope; [decryptText] of that envelope
    under that key gives the text back, for a well-formed text that
    does not begin with U+FEFF. Both calls leave the hook idle and
    without an error, whatever state it was in. *)
Theorem decryptText_encryptText (text : js_string) (h h2 : UseCrypto.CryptoState)
    (r r2 : rng) :
  well_formed text = true -> starts_with_bom text = false ->
  exists ciphertext key,
    UseCrypto.encryptText getRandomValues aes_gcm_encrypt native_message text h r
    = (Ok (ciphertext, key), UseCrypto.initial,
       snd (getRandomValues 12 (snd (getRandomValues 32 r))))
    /\ is_hex_key key = true
    /\ UseCrypto.decryptText aes_gcm_decrypt native_message ciphertext key h2 r2
       = (Ok text, UseCrypto.initial, r2).
Proof.
  intros Hwf Hbom. eexists. eexists. split; [apply encryptText_eq|]. split.
  - apply arrayBufferToHex_hex_key, getRandomValues_length.
  - rewrite decryptText_keyed_envelope by apply fresh_key_imports.
    now rewrite text_round_trip.
Qed.

(** X18. The same through a password: [decryptWithPassword] of the hook
    gives back what [encryptWithPassword] of the hook was given. *)
Theorem hook_password_round_trip (text password : js_string)
    (h h2 : UseCrypto.CryptoState) (r r2 : rng) :
  well_formed text = true -> starts_with_bom text = false ->
  exists ciphertext,
    UseCrypto.encryptWithPassword getRandomValues aes_gcm_encrypt pbkdf2
      native_message text password h r
    = (Ok ciphertext, UseCrypto.initial,
       snd (getRandomValues 12 (snd (getRandomValues 16 r))))
    /\ UseCrypto.decryptWithPassword aes_gcm_decrypt pbkdf2 native_message
         ciphertext password h2 r2
       = (Ok text, UseCrypto.initial, r2).
Proof.
  intros Hwf Hbom. eexists. split; [apply hook_encryptWithPassword_eq|].
  rewrite decryptWithPassword_password_envelope. now rewrite text_round_trip.
Qed.

End Provider.

Section AnyProvider.

Context {rng : Type}.
Variable getRandomValues : nat -> rng -> bytes * rng.
Variable aes_gcm_encrypt : bytes -> bytes -> bytes -> bytes.
Variable aes_gcm_decrypt : bytes -> bytes -> bytes -> option bytes.
Variable pbkdf2 : hash_name -> N -> bytes -> bytes -> N -> bytes.
Variable native_message : exn -> string.

(** X19. With any provider, after each of the four calls of the hook has
    settled, [isProcessing] is false; [error] is null when the call
    returned, and when it threw, what it threw is an [Error] whose
    message is the one in [error]. The state before the call does not
    matter. *)
Theorem hook_settled (text ciphertext key password : js_string)
    (h : UseCrypto.CryptoState) (r : rng) :
  (let '(outcome, h', _) :=
     UseCrypto.encryptText getRandomValues aes_gcm_encrypt native_message text h r in
   settled outcome h')
  /\ (let '(outcome, h', _) :=
        UseCrypto.encryptWithPassword getRandomValues aes_gcm_encrypt pbkdf2
          native_message text password h r in
      settled outcome h')
  /\ (let '(outcome, h', _) :=
        UseCrypto.decryptText aes_gcm_decrypt native_message ciphertext key h r in
      settled outcome h')
  /\ (let '(outcome, h', _) :=
        UseCrypto.decryptWithPassword aes_gcm_decrypt pbkdf2 native_message
          ciphertext password h r in
      settled outcome h').
Proof.
  unfold UseCrypto.encryptText, UseCrypto.encryptWithPassword,
    UseCrypto.decryptText, UseCrypto.decryptWithPassword, settled.
  repeat split.
  - destruct (bind _ _ r) as [[v|e] r']; cbn; [tauto|]. split; [reflexivity|eauto].
  - destruct (encryptWithPassword _ _ _ _ _ r) as [[v|e] r']; cbn; [tauto|].
    split; [reflexivity|eauto].
  - destruct (decrypt _ _ _ r) as [[v|e] r']; cbn; [tauto|].
    split; [reflexivity|eauto].
  - destruct (decryptWithPassword _ _ _ _ r) as [[v|e] r']; cbn; [tauto|].
    split; [reflexivity|eauto].
Qed.

(** X20. The messages a failed decryption leaves in the hook. A key that
    [importKey] refuses leaves the platform's own message for its
    DataError; an envelope the cipher rejects leaves
    "Failed to decrypt: Invalid key or corrupted data". With a password
    there is one message for every failure. *)
Theorem hook_decrypt_messages (ciphertext key password : js_string)
    (h : UseCrypto.CryptoState) (r : rng) :
  (aes_key_length_ok (hexToArrayBuffer key) = false ->
   UseCrypto.decryptText aes_gcm_decrypt native_message ciphertext key h r
   = (Throw (Error (native_message DataError)),
      {| UseCrypto.isProcessing := false;
         UseCrypto.error := Some (native_message DataError) |}, r))
  /\ (aes_key_length_ok (hexToArrayBuffer key) = true ->
      aes_gcm_decrypt (hexToArrayBuffer key)
        (hexToArrayBuffer (substring ciphertext 0 (Some 24)))
        (hexToArrayBuffer (substring ciphertext 24 None)) = None ->
      UseCrypto.decryptText aes_gcm_decrypt native_message ciphertext key h r
      = (Throw (Error "Failed to decrypt: Invalid key or corrupted data"),
         {| UseCrypto.isProcessing := false;
            UseCrypto.error :=
              Some "Failed to decrypt: Invalid key or corrupted data"%string |}, r))
  /\ (forall e h' r',
         UseCrypto.decryptWithPassword aes_gcm_decrypt pbkdf2 native_message
           ciphertext password h r = (Throw e, h', r') ->
         e = Error "Failed to decrypt: Invalid password or corrupted data"
         /\ UseCrypto.error h'
            = Some "Failed to decrypt: Invalid password or corrupted data"%string
         /\ r' = r).
Proof.
  repeat split.
  - intros Hkey. rewrite decryptText_eq.
    unfold decrypt, importKey, subtle_importKey_AES_GCM, bind, throw.
    now rewrite Hkey.
  - intros Hkey Hrej. rewrite decryptText_eq.
    rewrite (decrypt_eq aes_gcm_decrypt) by exact Hkey. now rewrite Hrej.
  - rewrite hook_decryptWithPassword_eq, decryptWithPassword_eq in H.
    destruct (aes_gcm_decrypt _ _ _); cbn [fst] in H; [discriminate|].
    now injection H as <- _ _.
  - rewrite hook_decryptWithPassword_eq, decryptWithPassword_eq in H.
    destruct (aes_gcm_decrypt _ _ _); cbn [fst] in H; [discriminate|].
    now injection H as _ <- _.
  - rewrite hook_decryptWithPassword_eq, decryptWithPassword_eq in H.
    destruct (aes_gcm_decrypt _ _ _); cbn [fst] in H; [discriminate|].
    now injection H as _ _ <-.
Qed.

End AnyProvider.

End HookFacts.

(** ** The pages: creating a paste and viewing it *)

Module PageFacts.
Import JS JSText Crypto Api Notions MoreNotions HexFacts Utf8Facts EnvelopeFacts
  StoreFacts HookFacts.

Lemma blank_trim_start (s : js_string) : blank (trim_start s) = blank s.
Proof.
  induction s as [|c s IH]; [reflexivity|].
  cbn [trim_start blank forallb].
  destruct (is_white_space c || is_line_terminator c) eqn:E.
  - exact IH.
  - cbn [forallb]. now rewrite E.
Qed.

Lemma falsy_trim_start (s : js_string) : falsy (trim_start s) = blank s.
Proof.
  induction s as [|c s IH]; [reflexivity|].
  cbn [trim_start blank forallb].
  destruct (is_white_space c || is_line_terminator c); [exact IH | reflexivity].
Qed.

Lemma blank_rev (s : js_string) : blank (rev s) = blank s.
Proof.
  unfold blank. induction s as [|c s IH]; [reflexivity|].
  cbn [rev forallb]. rewrite forallb_app, IH. cbn [forallb].
  rewrite andb_true_r. apply andb_comm.
Qed.

(** [!s.trim()] holds of the strings that are white space only. *)
Lemma falsy_trim (s : js_string) : falsy (trim s) = blank s.
Proof.
  unfold trim.
  assert (Hrev : forall l : js_string, falsy (rev l) = falsy l).
  { intros [|c l]; [reflexivity|]. cbn [rev]. now destruct (rev l). }
  now rewrite Hrev, falsy_trim_start, blank_rev, blank_trim_start.
Qed.

Lemma key_of_hash_fragment (key : js_string) :
  ViewPaste.key_of_hash (lit "#" ++ key) = key.
Proof.
  unfold ViewPaste.key_of_hash. now apply (substring_suffix _ _ 1).
Qed.

Section Submit.

Context {rng : Type}.
Variable getRandomValues : nat -> rng -> bytes * rng.
Variable aes_gcm_encrypt : bytes -> bytes -> bytes -> bytes.
Variable pbkdf2 : hash_name -> N -> bytes -> bytes -> N -> bytes.
Variable native_message : exn -> string.
Variable LocalTZA : Z -> bool -> Z.
Variable Date_toISOString_text : Z -> js_string.

Local Abbreviation handleSubmit :=
  (CreatePaste.handleSubmit getRandomValues aes_gcm_encrypt pbkdf2 native_message
     LocalTZA Date_toISOString_text).

(** X21. A submission whose content is white space only, or that asks for a
    password and gives white space only, is refused with a message of
    its own: nothing is encrypted, stored or navigated to, and the
    random source is not used. *)
Theorem handleSubmit_blank (now : Z) (random36 : js_string) (f : CreatePaste.FormState)
    (h : UseCrypto.CryptoState) (r : rng) (store : storage) :
  (blank (CreatePaste.content f) = true ->
   handleSubmit now random36 f h r store
   = {| CreatePaste.form :=
          CreatePaste.setError (Some "Content cannot be empty"%string) f;
        CreatePaste.hook := h; CreatePaste.random := r;
        CreatePaste.localStorage := store; CreatePaste.navigated := None |})
  /\ (blank (CreatePaste.content f) = false ->
      CreatePaste.usePassword f = true ->
      blank (CreatePaste.password f) = true ->
      handleSubmit now random36 f h r store
      = {| CreatePaste.form :=
             CreatePaste.setError
               (Some "Password cannot be empty when password protection is enabled"%string)
               f;
           CreatePaste.hook := h; CreatePaste.random := r;
           CreatePaste.localStorage := store; CreatePaste.navigated := None |}).
Proof.
  unfold CreatePaste.handleSubmit. rewrite !falsy_trim. split.
  - now intros ->.
  - now intros -> -> ->.
Qed.

Hypothesis getRandomValues_length :
  forall n r, length (fst (getRandomValues n r)) = n.
Variable offset : Z.
Hypothesis fixed_offset : forall t isUTC, LocalTZA t isUTC = offset.

Local Abbreviation keyed_envelope :=
  (Notions.keyed_envelope getRandomValues aes_gcm_encrypt).
Local Abbreviation password_envelope :=
  (Notions.password_envelope getRandomValues aes_gcm_encrypt pbkdf2).

Lemma handleSubmit_keyed_eq (now d : Z) (random36 : js_string)
    (f : CreatePaste.FormState) (h : UseCrypto.CryptoState) (r : rng)
    (store : storage) :
  blank (CreatePaste.content f) = false -> CreatePaste.usePassword f = false ->
  ttl_duration (CreatePaste.ttl f) = Some d ->
  valid_time now -> exact_clock now offset -> valid_time (now + d) ->
  handleSubmit now random36 f h r store
  = {| CreatePaste.form :=
         CreatePaste.setIsSubmitting false (CreatePaste.setError None f);
       CreatePaste.hook := UseCrypto.initial;
       CreatePaste.random := snd (getRandomValues 12 (snd (getRandomValues 32 r)));
       CreatePaste.localStorage :=
         <[API_PREFIX ++ generateId random36 :=
             {| ciphertext :=
                  keyed_envelope (CreatePaste.content f)
                    (arrayBufferToHex (fst (getRandomValues 32 r)))
                    (snd (getRandomValues 32 r));
                expiresAt := Date_toISOString_text (now + d);
                hasPassword := Some false |}]> store;
       CreatePaste.navigated :=
         Some (lit "/p/" ++ generateId random36 ++ lit "#"
               ++ arrayBufferToHex (fst (getRandomValues 32 r))) |}.
Proof.
  intros Hcontent Hmode Hd Hnow Hclock Hexp.
  unfold CreatePaste.handleSubmit. rewrite falsy_trim, Hcontent.
  cbn [CreatePaste.usePassword CreatePaste.setIsSubmitting CreatePaste.setError
       CreatePaste.content CreatePaste.ttl CreatePaste.password].
  rewrite Hmode. cbn [andb].
  rewrite (encryptText_eq getRandomValues aes_gcm_encrypt native_message
             getRandomValues_length).
  rewrite (createPaste_duration LocalTZA Date_toISOString_text offset fixed_offset
             now d random36 _ _ false store Hd Hnow Hclock Hexp).
  reflexivity.
Qed.

Lemma handleSubmit_password_eq (now d : Z) (random36 : js_string)
    (f : CreatePaste.FormState) (h : UseCrypto.CryptoState) (r : rng)
    (store : storage) :
  blank (CreatePaste.content f) = false -> CreatePaste.usePassword f = true ->
  blank (CreatePaste.password f) = false ->
  ttl_duration (CreatePaste.ttl f) = Some d ->
  valid_time now -> exact_clock now offset -> valid_time (now + d) ->
  handleSubmit now random36 f h r store
  = {| CreatePaste.form :=
         CreatePaste.setIsSubmitting false (CreatePaste.setError None f);
       CreatePaste.hook := UseCrypto.initial;
       CreatePaste.random := snd (getRandomValues 12 (snd (getRandomValues 16 r)));
       CreatePaste.localStorage :=
         <[API_PREFIX ++ generateId random36 :=
             {| ciphertext :=
                  password_envelope (CreatePaste.content f) (CreatePaste.password f) r;
                expiresAt := Date_toISOString_text (now + d);
                hasPassword := Some true |}]> store;
       CreatePaste.navigated := Some (lit "/p/" ++ generateId random36) |}.
Proof.
  intros Hcontent Hmode Hpassword Hd Hnow Hclock Hexp.
  unfold CreatePaste.handleSubmit. rewrite !falsy_trim, Hcontent, Hpassword.
  cbn [CreatePaste.usePassword CreatePaste.setIsSubmitting CreatePaste.setError
       CreatePaste.content CreatePaste.ttl CreatePaste.password].
  rewrite Hmode. cbn [andb].
  rewrite (hook_encryptWithPassword_eq getRandomValues aes_gcm_encrypt pbkdf2
             native_message).
  rewrite (createPaste_duration LocalTZA Date_toISOString_text offset fixed_offset
             now d random36 _ _ true store Hd Hnow Hclock Hexp).
  reflexivity.
Qed.

(** X22. Submitting content without a password, in a time zone with a
    fixed offset, with a clock and an offset for which the arithmetic
    of the setters is exact ([exact_clock]), and for a time to live
    [d]: the page navigates to
    /p/ and the id, followed by # and a fresh key of 64 hex characters;
    the store gains, under that id, the envelope of the content under
    that key, the expiry and the password flag false, and nothing of
    the key; the form ends with no error and not submitting. *)
Theorem handleSubmit_keyed (now d : Z) (random36 : js_string)
    (f : CreatePaste.FormState) (h : UseCrypto.CryptoState) (r : rng)
    (store : storage) :
  blank (CreatePaste.content f) = false -> CreatePaste.usePassword f = false ->
  ttl_duration (CreatePaste.ttl f) = Some d ->
  valid_time now -> exact_clock now offset -> valid_time (now + d) ->
  exists key,
    is_hex_key key = true
    /\ key = arrayBufferToHex (fst (getRandomValues 32 r))
    /\ handleSubmit now random36 f h r store
       = {| CreatePaste.form :=
              CreatePaste.setIsSubmitting false (CreatePaste.setError None f);
            CreatePaste.hook := UseCrypto.initial;
            CreatePaste.random :=
              snd (getRandomValues 12 (snd (getRandomValues 32 r)));
            CreatePaste.localStorage :=
              <[API_PREFIX ++ generateId random36 :=
                  {| ciphertext :=
                       keyed_envelope (CreatePaste.content f) key
                         (snd (getRandomValues 32 r));
                     expiresAt := Date_toISOString_text (now + d);
                     hasPassword := Some false |}]> store;
            CreatePaste.navigated :=
              Some (lit "/p/" ++ generateId random36 ++ lit "#" ++ key) |}.
Proof.
  intros Hcontent Hmode Hd Hnow Hclock Hexp.
  eexists. split; [|split; [reflexivity|]].
  - apply arrayBufferToHex_hex_key, getRandomValues_length.
  - now apply handleSubmit_keyed_eq.
Qed.

(** X23. Submitting content with a password, under the same conditions
    on the zone and the clock: the page navigates to /p/ and the id,
    with no fragment; the store gains the envelope of the
    content under the password and the password flag true. *)
Theorem handleSubmit_password (now d : Z) (random36 : js_string)
    (f : CreatePaste.FormState) (h : UseCrypto.CryptoState) (r : rng)
    (store : storage) :
  blank (CreatePaste.content f) = false -> CreatePaste.usePassword f = true ->
  blank (CreatePaste.password f) = false ->
  ttl_duration (CreatePaste.ttl f) = Some d ->
  valid_time now -> exact_clock now offset -> valid_time (now + d) ->
  handleSubmit now random36 f h r store
  = {| CreatePaste.form :=
         CreatePaste.setIsSubmitting false (CreatePaste.setError None f);
       CreatePaste.hook := UseCrypto.initial;
       CreatePaste.random := snd (getRandomValues 12 (snd (getRandomValues 16 r)));
       CreatePaste.localStorage :=
         <[API_PREFIX ++ generateId random36 :=
             {| ciphertext :=
                  password_envelope (CreatePaste.content f) (CreatePaste.password f) r;
                expiresAt := Date_toISOString_text (now + d);
                hasPassword := Some true |}]> store;
       CreatePaste.navigated := Some (lit "/p/" ++ generateId random36) |}.
Proof. apply handleSubmit_password_eq. Qed.

End Submit.

End PageFacts.

(** ** Viewing a paste *)

Module ViewFacts.
Import JS JSText Crypto Api Notions MoreNotions HexFacts Utf8Facts EnvelopeFacts
  StoreFacts HookFacts PageFacts.

Section View.

Context {rng : Type}.
Variable aes_gcm_decrypt : bytes -> bytes -> bytes -> option bytes.
Variable pbkdf2 : hash_name -> N -> bytes -> bytes -> N -> bytes.
Variable native_message : exn -> string.
Variable Date_parse : js_string -> number.

Local Abbreviation getRemainingTime := (ViewPaste.getRemainingTime Date_parse).
Local Abbreviation render := (ViewPaste.render Date_parse).
Local Abbreviation effect := (ViewPaste.effect (rng := rng) aes_gcm_decrypt native_message).
Local Abbreviation handlePasswordSubmit :=
  (ViewPaste.handlePasswordSubmit (rng := rng) aes_gcm_decrypt pbkdf2 native_message).
Local Abbreviation rerun_effect :=
  (ViewPaste.rerun_effect (rng := rng) aes_gcm_decrypt native_message).
Local Abbreviation open_page :=
  (MoreNotions.open_page (rng := rng) aes_gcm_decrypt native_message Date_parse).

Lemma remaining_parts (diff : Z) :
  (0 < diff)%Z ->
  let d := (diff / msPerDay)%Z in
  let h := (Z.rem diff msPerDay / msPerHour)%Z in
  let m := (Z.rem diff msPerHour / msPerMinute)%Z in
  (0 <= d /\ 0 <= h < 24 /\ 0 <= m < 60
   /\ 0 <= diff - (d * msPerDay + h * msPerHour + m * msPerMinute) < msPerMinute)%Z.
Proof.
  intros Hpos d h m. unfold d, h, m.
  rewrite !Z.rem_mod_nonneg by (unfold msPerDay, msPerHour; lia).
  unfold msPerDay, msPerHour, msPerMinute.
  Z.div_mod_to_equations. lia.
Qed.

(** X24. The text of the remaining time, for a clock not before 1970, where
    the arithmetic of the source is exact. An expiry at or before the
    clock reads "Expired". Otherwise the time left is split into whole
    days, hours below 24 and minutes below 60, rounded down with less
    than a minute dropped, and the text gives days and hours, or hours
    and minutes when there is no whole day, or minutes alone. An
    [expiresAt] that does not read as a date gives "NaNm remaining". *)
Theorem getRemainingTime_text (now : Z) (dateString : js_string) :
  (0 <= now)%Z ->
  match new_Date Date_parse dateString with
  | None => getRemainingTime now dateString = lit "NaNm remaining"
  | Some t =>
      ((t <= now)%Z -> getRemainingTime now dateString = lit "Expired")
      /\ ((now < t)%Z ->
          exists d h m,
            (0 <= d /\ 0 <= h < 24 /\ 0 <= m < 60
             /\ 0 <= (t - now) - (d * msPerDay + h * msPerHour + m * msPerMinute)
                < msPerMinute)%Z
            /\ getRemainingTime now dateString = remaining_text d h m)
  end.
Proof.
  intros _. unfold ViewPaste.getRemainingTime.
  destruct (new_Date Date_parse dateString) as [t|]; [|reflexivity].
  cbn [number_sub number_le]. split.
  - intros Hle. now rewrite (proj2 (Z.leb_le _ _)) by lia.
  - intros Hlt. rewrite (proj2 (Z.leb_gt _ _)) by lia.
    exists ((t - now) / msPerDay)%Z, (Z.rem (t - now) msPerDay / msPerHour)%Z,
      (Z.rem (t - now) msPerHour / msPerMinute)%Z.
    split; [apply remaining_parts; lia|].
    reflexivity.
Qed.

Lemma fetchData_eq (now : Z) (id : js_string) (s : UseFetchPaste.FetchState)
    (store : storage) :
  UseFetchPaste.fetchData Date_parse now id s store
  = (match fst (fetchPaste Date_parse now id store) with
     | None =>
         {| UseFetchPaste.paste := None; UseFetchPaste.loading := false;
            UseFetchPaste.error := Some "Paste not found or expired"%string |}
     | Some p =>
         {| UseFetchPaste.paste := Some p; UseFetchPaste.loading := false;
            UseFetchPaste.error := None |}
     end, snd (fetchPaste Date_parse now id store)).
Proof.
  unfold UseFetchPaste.fetchData.
  now destruct (fetchPaste Date_parse now id store) as [[p|] store'].
Qed.

Lemma effect_processed (paste : option PasteData) (key : js_string)
    (v : ViewPaste.ViewState) (h : UseCrypto.CryptoState) (r : rng) :
  UseCrypto.isProcessing h = false ->
  UseCrypto.isProcessing (snd (fst (effect paste key v h r))) = false.
Proof.
  intros Hidle. unfold ViewPaste.effect, ViewPaste.decryptPaste.
  destruct paste as [p|]; [|exact Hidle].
  destruct (ViewPaste.truthy (hasPassword p) && falsy key); [exact Hidle|].
  destruct (negb (ViewPaste.showPasswordPrompt v)); [|exact Hidle].
  rewrite !decryptText_eq.
  destruct (ViewPaste.truthy (hasPassword p) && negb (falsy key));
    [now destruct (fst (decrypt _ _ _ _))|].
  destruct (negb (ViewPaste.truthy (hasPassword p)) && negb (falsy key));
    [now destruct (fst (decrypt _ _ _ _)) | exact Hidle].
Qed.

(** With the prompt open the effect changes nothing. *)
Lemma effect_prompt_shown (paste : option PasteData) (key : js_string)
    (v : ViewPaste.ViewState) (h : UseCrypto.CryptoState) (r : rng) :
  ViewPaste.showPasswordPrompt v = true -> effect paste key v h r = (v, h, r).
Proof.
  intros Hshown. unfold ViewPaste.effect. rewrite Hshown. cbn [negb].
  destruct paste as [p|]; [|reflexivity].
  destruct (ViewPaste.truthy (hasPassword p) && falsy key); [|reflexivity].
  destruct v. cbn in Hshown. now subst.
Qed.

Lemma rerun_effect_shown (fuel : nat) (paste : option PasteData) (key : js_string)
    (shown : bool) (v : ViewPaste.ViewState) (h : UseCrypto.CryptoState) (r : rng) :
  ViewPaste.showPasswordPrompt v = true ->
  rerun_effect fuel paste key shown v h r = (v, h, r).
Proof.
  intros Hshown. revert shown.
  induction fuel as [|fuel IH]; intros shown; [reflexivity|].
  cbn [ViewPaste.rerun_effect].
  destruct (Bool.eqb shown (ViewPaste.showPasswordPrompt v)); [reflexivity|].
  rewrite (effect_prompt_shown paste key v h r Hshown). apply IH.
Qed.

(** After the effect has run from a state with the prompt closed, it
    is not run again, or runs without changing anything. *)
Lemma rerun_after_effect (fuel : nat) (paste : option PasteData) (key : js_string)
    (v : ViewPaste.ViewState) (h : UseCrypto.CryptoState) (r : rng) :
  ViewPaste.showPasswordPrompt v = false ->
  (let '(v', h', r') := effect paste key v h r in
   rerun_effect fuel paste key false v' h' r')
  = effect paste key v h r.
Proof.
  intros Hclosed. destruct (effect paste key v h r) as [[v' h'] r'].
  destruct fuel as [|fuel]; [reflexivity|]. cbn [ViewPaste.rerun_effect].
  destruct (ViewPaste.showPasswordPrompt v') eqn:Hshown; [|reflexivity].
  cbn [Bool.eqb].
  rewrite (effect_prompt_shown paste key v' h' r' Hshown).
  now apply rerun_effect_shown.
Qed.

(** X25. The effect does not keep the page rendering: after a change of the
    state it runs at most twice before [showPasswordPrompt] stays as it
    is, so running it for longer changes nothing. *)
Theorem rerun_effect_settles (fuel : nat) (paste : option PasteData)
    (key : js_string) (shown : bool) (v : ViewPaste.ViewState)
    (h : UseCrypto.CryptoState) (r : rng) :
  2 <= fuel ->
  rerun_effect fuel paste key shown v h r = rerun_effect 2 paste key shown v h r.
Proof.
  intros Hfuel. destruct fuel as [|[|fuel]]; [lia | lia |].
  cbn [ViewPaste.rerun_effect].
  destruct (Bool.eqb shown (ViewPaste.showPasswordPrompt v)); [reflexivity|].
  destruct (ViewPaste.showPasswordPrompt v) eqn:Hshown.
  - rewrite (effect_prompt_shown paste key v h r Hshown).
    now rewrite Hshown.
  - pose proof (rerun_after_effect (S fuel) paste key v h r Hshown) as Hmore.
    pose proof (rerun_after_effect 1 paste key v h r Hshown) as Hone.
    destruct (effect paste key v h r) as [[v' h'] r'].
    cbn [ViewPaste.rerun_effect] in Hmore, Hone.
    now rewrite Hmore, Hone.
Qed.

Lemma open_page_eq (fuel : nat) (now : Z) (id hash : js_string) (store : storage)
    (r : rng) :
  open_page fuel now id hash store r
  = let '(fetched, store') :=
      UseFetchPaste.fetchData Date_parse now id UseFetchPaste.initial store in
    let '(v, h, r') :=
      effect (UseFetchPaste.paste fetched) (ViewPaste.key_of_hash hash)
        ViewPaste.initial UseCrypto.initial r in
    (fetched, v, h, r', store').
Proof.
  unfold MoreNotions.open_page.
  destruct (UseFetchPaste.fetchData _ _ _ _ _) as [fetched store'].
  pose proof (rerun_after_effect fuel (UseFetchPaste.paste fetched)
                (ViewPaste.key_of_hash hash) ViewPaste.initial UseCrypto.initial r
                eq_refl) as Hsame.
  destruct (effect _ _ _ _ _) as [[v h] r'].
  cbn [ViewPaste.showPasswordPrompt ViewPaste.initial]. now rewrite Hsame.
Qed.

(** X26. The page says "Paste not found or expired" exactly when [fetchPaste]
    returns null: then no decryption is tried, whatever the fragment,
    and the store is as [fetchPaste] left it. *)
Theorem open_page_not_found (fuel : nat) (now later : Z) (id hash : js_string)
    (store : storage) (r : rng) :
  let '(fetched, v, h, r', store') := open_page fuel now id hash store r in
  store' = snd (fetchPaste Date_parse now id store)
  /\ (fst (fetchPaste Date_parse now id store) = None ->
      render later fetched (ViewPaste.key_of_hash hash) v h
      = ViewPaste.NotFound (Some "Paste not found or expired"%string)
      /\ v = ViewPaste.initial /\ h = UseCrypto.initial /\ r' = r)
  /\ (fst (fetchPaste Date_parse now id store) <> None ->
      forall text,
        render later fetched (ViewPaste.key_of_hash hash) v h
        <> ViewPaste.NotFound text).
Proof.
  rewrite open_page_eq, fetchData_eq.
  destruct (fst (fetchPaste Date_parse now id store)) as [p|] eqn:Hfetch.
  - cbn [UseFetchPaste.paste].
    pose proof (effect_processed (Some p) (ViewPaste.key_of_hash hash)
                  ViewPaste.initial UseCrypto.initial r eq_refl) as Hidle.
    destruct (effect _ _ _ _ _) as [[v h] r']. cbn [fst snd] in Hidle.
    split; [reflexivity|]. split; [discriminate|].
    intros _ text. unfold ViewPaste.render.
    cbn [UseFetchPaste.loading UseFetchPaste.paste UseFetchPaste.error truthy_text].
    rewrite Hidle. cbn [orb].
    repeat match goal with
           | |- context [if ?b then _ else _] => destruct b
           end; discriminate.
  - cbn [UseFetchPaste.paste ViewPaste.effect].
    split; [reflexivity|]. split; [|congruence].
    intros _. repeat split.
Qed.

Lemma effect_keyed_eq (p : PasteData) (key : js_string) (v : ViewPaste.ViewState)
    (h : UseCrypto.CryptoState) (r : rng) :
  ViewPaste.truthy (hasPassword p) = false -> falsy key = false ->
  ViewPaste.showPasswordPrompt v = false ->
  effect (Some p) key v h r
  = match fst (decrypt aes_gcm_decrypt (ciphertext p) key r) with
    | Ok plaintext =>
        ({| ViewPaste.content := plaintext; ViewPaste.decryptionError := None;
            ViewPaste.password := ViewPaste.password v;
            ViewPaste.showPasswordPrompt := false;
            ViewPaste.isDecrypting := ViewPaste.isDecrypting v |},
         UseCrypto.initial, r)
    | Throw err =>
        (ViewPaste.setDecryptionError
           (Some "Failed to decrypt: Invalid key or corrupted data"%string) v,
         {| UseCrypto.isProcessing := false;
            UseCrypto.error := Some (message native_message err) |}, r)
    end.
Proof.
  intros Hflag Hkey Hprompt.
  unfold ViewPaste.effect, ViewPaste.decryptPaste.
  rewrite Hflag, Hkey, Hprompt. cbn [andb negb].
  rewrite decryptText_eq.
  now destruct (fst (decrypt _ _ _ _)).
Qed.

(** X27. A paste without a password that was fetched, opened with a
    fragment that does not decrypt it. Without a fragment the page asks
    for the key and tries nothing. With one, whatever [decrypt] throws,
    the refusal of a key of the wrong size as well as the rejection by
    the cipher, the page shows
    "Failed to decrypt: Invalid key or corrupted data" and no content. *)
Theorem view_keyed_failures (fuel : nat) (now later : Z) (id hash : js_string)
    (store : storage) (r : rng) (p : PasteData) :
  fst (fetchPaste Date_parse now id store) = Some p ->
  hasPassword p = Some false ->
  let key := ViewPaste.key_of_hash hash in
  let '(fetched, v, h, r', store') := open_page fuel now id hash store r in
  (key = [] ->
   render later fetched key v h = ViewPaste.MissingKey
   /\ v = ViewPaste.initial /\ h = UseCrypto.initial /\ r' = r)
  /\ (key <> [] ->
      forall e, fst (decrypt aes_gcm_decrypt (ciphertext p) key r) = Throw e ->
      render later fetched key v h
      = ViewPaste.DecryptFailed
          (Some "Failed to decrypt: Invalid key or corrupted data"%string)
      /\ ViewPaste.content v = []).
Proof.
  intros Hfetch Hflag key. rewrite open_page_eq, fetchData_eq, Hfetch. cbn [UseFetchPaste.paste]. fold key.
  destruct key as [|c key'] eqn:Hkey.
  - unfold ViewPaste.effect, ViewPaste.decryptPaste. rewrite Hflag.
    cbn. split; [|congruence]. intros _. rewrite Hflag. repeat split.
  - rewrite effect_keyed_eq by (try reflexivity; now rewrite Hflag).
    destruct (fst (decrypt aes_gcm_decrypt (ciphertext p) (c :: key') r))
      as [text|thrown].
    + split; [discriminate|]. intros _ e He. discriminate He.
    + split; [discriminate|]. intros _ e _.
      unfold ViewPaste.render. cbn. now split.
Qed.

(** X28. What [handlePasswordSubmit] does to the state. A password of white
    space only: nothing. When the cipher rejects, under the key derived
    from the password entered: the content and the prompt are kept and
    the error is "Failed to decrypt: Invalid password", while the hook
    holds the longer message of [decryptWithPassword]. When the cipher
    accepts: the content is the text decoded, the prompt is closed and
    no error is left. *)
Theorem handlePasswordSubmit_outcomes (p : PasteData) (v : ViewPaste.ViewState)
    (h : UseCrypto.CryptoState) (r : rng) :
  let attempt :=
    aes_gcm_decrypt
      (pbkdf2 SHA_256 100000 (strToUint8Array (ViewPaste.password v))
         (hexToArrayBuffer (substring (ciphertext p) 0 (Some 32))) 256)
      (hexToArrayBuffer (substring (ciphertext p) 32 (Some 56)))
      (hexToArrayBuffer (substring (ciphertext p) 56 None)) in
  (blank (ViewPaste.password v) = true ->
   handlePasswordSubmit (Some p) v h r = (v, h, r))
  /\ (blank (ViewPaste.password v) = false -> attempt = None ->
      handlePasswordSubmit (Some p) v h r
      = ({| ViewPaste.content := ViewPaste.content v;
            ViewPaste.decryptionError :=
              Some "Failed to decrypt: Invalid password"%string;
            ViewPaste.password := ViewPaste.password v;
            ViewPaste.showPasswordPrompt := ViewPaste.showPasswordPrompt v;
            ViewPaste.isDecrypting := false |},
         {| UseCrypto.isProcessing := false;
            UseCrypto.error :=
              Some "Failed to decrypt: Invalid password or corrupted data"%string |},
         r))
  /\ (forall plain,
         blank (ViewPaste.password v) = false -> attempt = Some plain ->
         handlePasswordSubmit (Some p) v h r
         = ({| ViewPaste.content := uint8ArrayToStr plain;
               ViewPaste.decryptionError := None;
               ViewPaste.password := ViewPaste.password v;
               ViewPaste.showPasswordPrompt := false;
               ViewPaste.isDecrypting := false |},
            UseCrypto.initial, r)).
Proof.
  intros attempt. unfold ViewPaste.handlePasswordSubmit.
  rewrite falsy_trim. repeat split.
  - now intros ->.
  - intros -> Hrej.
    cbn [ViewPaste.password ViewPaste.setIsDecrypting ViewPaste.setDecryptionError].
    rewrite hook_decryptWithPassword_eq, decryptWithPassword_eq.
    fold attempt. now rewrite Hrej.
  - intros plain -> Hok.
    cbn [ViewPaste.password ViewPaste.setIsDecrypting ViewPaste.setDecryptionError].
    rewrite hook_decryptWithPassword_eq, decryptWithPassword_eq.
    fold attempt. now rewrite Hok.
Qed.

End View.

Section Journey.

Context {rng : Type}.
Variable getRandomValues : nat -> rng -> bytes * rng.
Variable aes_gcm_encrypt : bytes -> bytes -> bytes -> bytes.
Variable aes_gcm_decrypt : bytes -> bytes -> bytes -> option bytes.
Variable pbkdf2 : hash_name -> N -> bytes -> bytes -> N -> bytes.
Variable native_message : exn -> string.
Variable LocalTZA : Z -> bool -> Z.
Variable Date_toISOString_text : Z -> js_string.
Variable Date_parse : js_string -> number.

Hypothesis getRandomValues_length :
  forall n r, length (fst (getRandomValues n r)) = n.
Hypothesis aes_gcm_correct :
  forall key iv data,
    aes_key_length_ok key = true -> length iv = 12 ->
    aes_gcm_decrypt key iv (aes_gcm_encrypt key iv data) = Some data.
Hypothesis pbkdf2_length :
  forall password salt, length (pbkdf2 SHA_256 100000 password salt 256) = 32.
Variable offset : Z.
Hypothesis fixed_offset : forall t isUTC, LocalTZA t isUTC = offset.

Local Abbreviation handleSubmit :=
  (CreatePaste.handleSubmit getRandomValues aes_gcm_encrypt pbkdf2 native_message
     LocalTZA Date_toISOString_text).
Local Abbreviation getRemainingTime := (ViewPaste.getRemainingTime Date_parse).
Local Abbreviation render := (ViewPaste.render Date_parse).
Local Abbreviation handlePasswordSubmit :=
  (ViewPaste.handlePasswordSubmit (rng := rng) aes_gcm_decrypt pbkdf2 native_message).
Local Abbreviation open_page :=
  (MoreNotions.open_page (rng := rng) aes_gcm_decrypt native_message Date_parse).
Local Abbreviation submit_password :=
  (MoreNotions.submit_password (rng := rng) aes_gcm_decrypt pbkdf2 native_message).

Lemma fetchPaste_stored (expires later : Z) (id envelope : js_string) (flag : bool)
    (store : storage) :
  valid_time expires ->
  Date_parse (Date_toISOString_text expires) = Some expires ->
  (later <= expires)%Z ->
  fetchPaste Date_parse later id
    (<[API_PREFIX ++ id :=
         {| ciphertext := envelope; expiresAt := Date_toISOString_text expires;
            hasPassword := Some flag |}]> store)
  = (Some {| ciphertext := envelope; expiresAt := Date_toISOString_text expires;
             hasPassword := Some flag |},
     <[API_PREFIX ++ id :=
         {| ciphertext := envelope; expiresAt := Date_toISOString_text expires;
            hasPassword := Some flag |}]> store).
Proof.
  intros Hexp Hparse Hlive. unfold fetchPaste. rewrite lookup_insert_eq.
  cbn [hasPassword expiresAt]. unfold new_Date.
  rewrite Hparse, (TimeClip_valid _ Hexp). cbn [number_lt].
  now rewrite (proj2 (Z.ltb_ge _ _) Hlive).
Qed.



End Journey.

End ViewFacts.

(** ** The further properties on concrete inputs *)

Module MoreExamples.
Import JS JSText Crypto Api Notions MoreNotions.

(** "hello world" encoded and decoded. *)
Lemma uint8ArrayToStr_strToUint8Array_witness :
  uint8ArrayToStr (strToUint8Array (lit "hello world")) = lit "hello world".
Proof.
  apply (proj2 (TextFacts.uint8ArrayToStr_strToUint8Array (lit "hello world")
                  eq_refl)).
  split; reflexivity.
Defined.

(** A key drawn in state 5 of the test source. *)
Lemma generateKey_key_witness :
  exists hexKey,
    generateKey TestProvider.getRandomValues 5%N = (Ok hexKey, 6%N)
    /\ length hexKey = 64
    /\ forallb is_lower_hex_digit hexKey = true.
Proof.
  destruct (CodecFacts.generateKey_key TestProvider.getRandomValues
              TestProviderFacts.test_getRandomValues_length 5%N)
    as (hexKey & Hkey & Hlen & Hhex & _).
  exists hexKey. split; [exact Hkey|]. split; [exact Hlen | exact Hhex].
Defined.

(** A key of two bytes. *)
Lemma refused_key_witness :
  encrypt TestProvider.getRandomValues TestProvider.aes_gcm_encrypt
    (lit "hello world") (lit "abcd") 5%N = (Throw DataError, 5%N)
  /\ decrypt TestProvider.aes_gcm_decrypt (lit "00ff") (lit "abcd") 5%N
     = (Throw DataError, 5%N).
Proof.
  apply (CodecFacts.refused_key TestProvider.getRandomValues
           TestProvider.aes_gcm_encrypt TestProvider.aes_gcm_decrypt).
  reflexivity.
Defined.

(** Envelopes one character short of holding a tag. *)
Lemma envelope_without_tag_witness :
  decrypt TestProvider.aes_gcm_decrypt (repeat 0x30%N 54) TestProvider.key1 0%N
  = (Throw (Error "Failed to decrypt: Invalid key or corrupted data"), 0%N)
  /\ decryptWithPassword TestProvider.aes_gcm_decrypt TestProvider.pbkdf2
       (repeat 0x30%N 86) (lit "correct horse") 0%N
     = (Throw (Error "Failed to decrypt: Invalid password or corrupted data"), 0%N).
Proof.
  split.
  - apply (proj1 (CodecFacts.envelope_without_tag TestProvider.aes_gcm_decrypt
                    TestProvider.pbkdf2 TestProviderFacts.test_aes_gcm_short
                    (repeat 0x30%N 54) TestProvider.key1 (lit "correct horse") 0%N
                    eq_refl)).
    cbn; lia.
  - apply (proj2 (CodecFacts.envelope_without_tag TestProvider.aes_gcm_decrypt
                    TestProvider.pbkdf2 TestProviderFacts.test_aes_gcm_short
                    (repeat 0x30%N 86) TestProvider.key1 (lit "correct horse") 0%N
                    eq_refl)).
    cbn; lia.
Defined.

(** A time to live of "h" alone, in a zone that changes its offset. *)
Lemma createPaste_without_number_witness :
  createPaste TestProvider.eastern TestProvider.iso_text 1710003600000
    (lit "0.4fzyo82mvyr") (lit "00ff") (lit "h") false ∅
  = (Throw RangeError, ∅).
Proof.
  apply StoreMore.createPaste_without_number; reflexivity.
Defined.

(** Seven days from 2023-11-14T22:13:20Z in UTC. *)
Lemma createPaste_response_witness :
  snd (paste_created TestProvider.iso_text (1700000000000 + 7 * msPerDay)
         (lit "0.4fzyo82mvyr") (lit "00ff") false ∅)
    !! (API_PREFIX ++ lit "4fzyo82m")
  = Some {| ciphertext := lit "00ff";
            expiresAt := TestProvider.iso_text (1700000000000 + 7 * msPerDay);
            hasPassword := Some false |}.
Proof.
  refine (proj1 (StoreMore.createPaste_response TestProvider.utc
                   TestProvider.iso_text 1700000000000
                   (lit "0.4fzyo82mvyr") (lit "00ff") (lit "7d") false ∅ _
                   {| id := lit "4fzyo82m"; response_ciphertext := lit "00ff";
                      response_expiresAt :=
                        TestProvider.iso_text (1700000000000 + 7 * msPerDay);
                      response_hasPassword := false |} _)).
  apply (StoreFacts.createPaste_duration TestProvider.utc TestProvider.iso_text 0
           (fun _ _ => eq_refl) 1700000000000 (7 * msPerDay)).
  - reflexivity.
  - unfold valid_time. lia.
  - unfold exact_clock, msPerDay. lia.
  - unfold valid_time, msPerDay, msPerHour. lia.
Defined.

(** A paste that expires at 5000, asked for at that instant. *)
Lemma fetchPaste_live_witness :
  fetchPaste TestProvider.iso_parse 5000 (lit "4fzyo82m")
    (<[lit "pastebin_4fzyo82m" := TestProvider.a_paste 5000 (Some true)]> ∅)
  = (Some (as_fetched (TestProvider.a_paste 5000 (Some true))),
     <[lit "pastebin_4fzyo82m" := TestProvider.a_paste 5000 (Some true)]> ∅).
Proof.
  apply (StoreMore.fetchPaste_live TestProvider.iso_parse 5000 (lit "4fzyo82m")
           _ (TestProvider.a_paste 5000 (Some true))).
  - apply lookup_insert_eq.
  - right. exists 5000%Z. split; [reflexivity | lia].
Defined.

(** A paste stored without [hasPassword], as it is returned. *)
Lemma fetchPaste_hasPassword_defined_witness :
  hasPassword (TestProvider.a_paste 5000 (Some false)) <> None.
Proof.
  apply (StoreFacts.fetchPaste_hasPassword_defined TestProvider.iso_parse 2000
           (lit "4fzyo82m")
           (<[lit "pastebin_4fzyo82m" := TestProvider.a_paste 5000 None]> ∅)).
  unfold fetchPaste.
  change (API_PREFIX ++ lit "4fzyo82m") with (lit "pastebin_4fzyo82m").
  now rewrite lookup_insert_eq.
Defined.

(** A paste made for seven days, fetched a second later. *)
Lemma fetchPaste_createPaste_witness :
  exists response stored,
    createPaste TestProvider.utc TestProvider.iso_text 1700000000000
      (lit "0.4fzyo82mvyr") (lit "00ff") (lit "7d") true ∅ = (Ok response, stored)
    /\ fetchPaste TestProvider.iso_parse 1700000001000 (id response) stored
       = if (1700000000000 + 7 * msPerDay <? 1700000001000)%Z
         then (None, delete (API_PREFIX ++ id response) stored)
         else (Some {| ciphertext := lit "00ff";
                       expiresAt :=
                         TestProvider.iso_text (1700000000000 + 7 * msPerDay);
                       hasPassword := Some true |}, stored).
Proof.
  apply (StoreMore.fetchPaste_createPaste TestProvider.utc TestProvider.iso_text
           TestProvider.iso_parse 0 (fun _ _ => eq_refl)).
  - reflexivity.
  - unfold valid_time. lia.
  - unfold exact_clock, msPerDay. lia.
  - unfold valid_time, msPerDay, msPerHour. lia.
  - vm_compute. reflexivity.
Defined.

(** "hello world" through the hook, with a key and with a password. *)
Lemma decryptText_encryptText_witness :
  exists ciphertext key,
    UseCrypto.encryptText TestProvider.getRandomValues TestProvider.aes_gcm_encrypt
      TestPages.native_message (lit "hello world") UseCrypto.initial 5%N
    = (Ok (ciphertext, key), UseCrypto.initial, 7%N)
    /\ is_hex_key key = true
    /\ UseCrypto.decryptText TestProvider.aes_gcm_decrypt TestPages.native_message
         ciphertext key UseCrypto.initial 7%N
       = (Ok (lit "hello world"), UseCrypto.initial, 7%N).
Proof.
  apply (HookFacts.decryptText_encryptText TestProvider.getRandomValues
           TestProvider.aes_gcm_encrypt TestProvider.aes_gcm_decrypt
           TestPages.native_message
           TestProviderFacts.test_getRandomValues_length
           TestProviderFacts.test_aes_gcm_correct); reflexivity.
Defined.

Lemma hook_password_round_trip_witness :
  exists ciphertext,
    UseCrypto.encryptWithPassword TestProvider.getRandomValues
      TestProvider.aes_gcm_encrypt TestProvider.pbkdf2 TestPages.native_message
      (lit "hello world") (lit "correct horse") UseCrypto.initial 5%N
    = (Ok ciphertext, UseCrypto.initial, 7%N)
    /\ UseCrypto.decryptWithPassword TestProvider.aes_gcm_decrypt
         TestProvider.pbkdf2 TestPages.native_message
         ciphertext (lit "correct horse") UseCrypto.initial 7%N
       = (Ok (lit "hello world"), UseCrypto.initial, 7%N).
Proof.
  apply (HookFacts.hook_password_round_trip TestProvider.getRandomValues
           TestProvider.aes_gcm_encrypt TestProvider.aes_gcm_decrypt
           TestProvider.pbkdf2 TestPages.native_message
           TestProviderFacts.test_getRandomValues_length
           TestProviderFacts.test_aes_gcm_correct
           TestProviderFacts.test_pbkdf2_length); reflexivity.
Defined.

(** "hello world" submitted for seven days, at 2023-11-14T22:13:20Z in
    UTC. *)
Lemma handleSubmit_keyed_witness :
  exists key,
    is_hex_key key = true
    /\ CreatePaste.navigated
         (CreatePaste.handleSubmit TestProvider.getRandomValues
            TestProvider.aes_gcm_encrypt TestProvider.pbkdf2
            TestPages.native_message TestProvider.utc TestProvider.iso_text
            1700000000000 (lit "0.4fzyo82mvyr")
            (TestPages.form (lit "hello world") (lit "7d")) UseCrypto.initial 5%N ∅)
       = Some (lit "/p/4fzyo82m#" ++ key).
Proof.
  destruct (PageFacts.handleSubmit_keyed TestProvider.getRandomValues
              TestProvider.aes_gcm_encrypt TestProvider.pbkdf2
              TestPages.native_message TestProvider.utc TestProvider.iso_text
              TestProviderFacts.test_getRandomValues_length 0 (fun _ _ => eq_refl)
              1700000000000 (7 * msPerDay) (lit "0.4fzyo82mvyr")
              (TestPages.form (lit "hello world") (lit "7d")) UseCrypto.initial
              5%N ∅ eq_refl eq_refl eq_refl)
    as (key & Hkey & _ & Hout).
  - unfold valid_time. lia.
  - unfold exact_clock, msPerDay. lia.
  - unfold valid_time, msPerDay, msPerHour. lia.
  - exists key. split; [exact Hkey|]. now rewrite Hout.
Defined.

Lemma handleSubmit_password_witness :
  CreatePaste.navigated
    (CreatePaste.handleSubmit TestProvider.getRandomValues
       TestProvider.aes_gcm_encrypt TestProvider.pbkdf2
       TestPages.native_message TestProvider.utc TestProvider.iso_text
       1700000000000 (lit "0.4fzyo82mvyr")
       (TestPages.form_with_password (lit "hello world") (lit "7d")
          (lit "correct horse")) UseCrypto.initial 5%N ∅)
  = Some (lit "/p/4fzyo82m").
Proof.
  rewrite (PageFacts.handleSubmit_password TestProvider.getRandomValues
             TestProvider.aes_gcm_encrypt TestProvider.pbkdf2
             TestPages.native_message TestProvider.utc TestProvider.iso_text
             0 (fun _ _ => eq_refl)
             1700000000000 (7 * msPerDay) (lit "0.4fzyo82mvyr")
             (TestPages.form_with_password (lit "hello world") (lit "7d")
                (lit "correct horse")) UseCrypto.initial 5%N ∅
             eq_refl eq_refl eq_refl eq_refl).
  - reflexivity.
  - unfold valid_time. lia.
  - unfold exact_clock, msPerDay. lia.
  - unfold valid_time, msPerDay, msPerHour. lia.
Defined.

(** One day, one hour, one minute and one second left; one hour and a
    second; a second; none; and a date that does not read. *)
Example remaining_days :
  ViewPaste.getRemainingTime TestProvider.iso_parse 1700000000000
    (TestProvider.iso_text 1700090061000) = lit "1d 1h remaining".
Proof. vm_compute. reflexivity. Qed.

Example remaining_hours :
  ViewPaste.getRemainingTime TestProvider.iso_parse 1700000000000
    (TestProvider.iso_text 1700003601000) = lit "1h 0m remaining".
Proof. vm_compute. reflexivity. Qed.

Example remaining_second :
  ViewPaste.getRemainingTime TestProvider.iso_parse 1700000000000
    (TestProvider.iso_text 1700000001000) = lit "0m remaining".
Proof. vm_compute. reflexivity. Qed.

Example remaining_none :
  ViewPaste.getRemainingTime TestProvider.iso_parse 1700000000000
    (TestProvider.iso_text 1700000000000) = lit "Expired".
Proof. vm_compute. reflexivity. Qed.

Example remaining_unreadable :
  ViewPaste.getRemainingTime TestProvider.iso_parse 1700000000000 (lit "soon")
  = lit "NaNm remaining".
Proof. vm_compute. reflexivity. Qed.

Lemma getRemainingTime_text_witness :
  exists d h m,
    (0 <= d /\ 0 <= h < 24 /\ 0 <= m < 60
     /\ 0 <= (1700090061000 - 1700000000000)
             - (d * msPerDay + h * msPerHour + m * msPerMinute) < msPerMinute)%Z
    /\ ViewPaste.getRemainingTime TestProvider.iso_parse 1700000000000
         (TestProvider.iso_text 1700090061000) = remaining_text d h m.
Proof.
  assert (Hdate : new_Date TestProvider.iso_parse (TestProvider.iso_text 1700090061000)
                  = Some 1700090061000%Z) by (vm_compute; reflexivity).
  pose proof (ViewFacts.getRemainingTime_text TestProvider.iso_parse 1700000000000
                (TestProvider.iso_text 1700090061000)) as Htext.
  rewrite Hdate in Htext. apply Htext; lia.
Defined.

(** A paste with a password, no key, and the prompt just closed. *)
Lemma rerun_effect_settles_witness :
  ViewPaste.rerun_effect TestProvider.aes_gcm_decrypt TestPages.native_message 5
    (Some (TestProvider.a_paste 5000 (Some true))) [] true ViewPaste.initial
    UseCrypto.initial 0%N
  = ViewPaste.rerun_effect TestProvider.aes_gcm_decrypt TestPages.native_message 2
      (Some (TestProvider.a_paste 5000 (Some true))) [] true ViewPaste.initial
      UseCrypto.initial 0%N.
Proof.
  apply ViewFacts.rerun_effect_settles. lia.
Defined.

(** A paste without a password whose ciphertext is no envelope, opened
    with [key1] in the fragment. *)
Lemma view_keyed_failures_witness :
  let key := ViewPaste.key_of_hash (lit "#" ++ TestProvider.key1) in
  let '(fetched, v, h, r', store') :=
    open_page TestProvider.aes_gcm_decrypt TestPages.native_message
      TestProvider.iso_parse 3 2000 (lit "4fzyo82m") (lit "#" ++ TestProvider.key1)
      (<[lit "pastebin_4fzyo82m" := TestProvider.a_paste 5000 (Some false)]> ∅)
      0%N in
  (key = [] ->
   ViewPaste.render TestProvider.iso_parse 2500 fetched key v h = ViewPaste.MissingKey
   /\ v = ViewPaste.initial /\ h = UseCrypto.initial /\ r' = 0%N)
  /\ (key <> [] ->
      forall e,
        fst (decrypt TestProvider.aes_gcm_decrypt
               (ciphertext (TestProvider.a_paste 5000 (Some false))) key 0%N)
        = Throw e ->
        ViewPaste.render TestProvider.iso_parse 2500 fetched key v h
        = ViewPaste.DecryptFailed
            (Some "Failed to decrypt: Invalid key or corrupted data"%string)
        /\ ViewPaste.content v = []).
Proof.
  apply (ViewFacts.view_keyed_failures TestProvider.aes_gcm_decrypt
           TestPages.native_message TestProvider.iso_parse 3 2000 2500
           (lit "4fzyo82m") (lit "#" ++ TestProvider.key1)
           (<[lit "pastebin_4fzyo82m" := TestProvider.a_paste 5000 (Some false)]> ∅)
           0%N (TestProvider.a_paste 5000 (Some false))).
  - unfold fetchPaste.
    change (API_PREFIX ++ lit "4fzyo82m") with (lit "pastebin_4fzyo82m").
    now rewrite lookup_insert_eq.
  - reflexivity.
Defined.



End MoreExamples.
